(** * Request admission and account scheduling of the relay service

    A shallow embedding of [src/services/unifiedOpenAIScheduler.js],
    [src/services/unifiedClaudeScheduler.js] and
    [src/services/apiKeyService.js], and of the key-id route of
    [src/routes/apiStats.js].

    The JavaScript is asynchronous code over a key-value store: it is
    embedded in a state-and-exception monad.  Built-ins of the runtime
    (Date, JSON, crypto, parseInt) and the service modules the files
    import are interfaces (type classes); the instances further down are
    the ones the examples run on. *)

From Stdlib Require Import ZArith QArith Qcanon String Ascii List Bool Lia.
From stdpp Require Import base option numbers gmap strings list sorting pretty.

Local Open Scope Z_scope.
Local Open Scope string_scope.

(** ** JavaScript values *)

(** The values the services handle where a field is not always a string:
    option objects, update objects and flags such as [schedulable]. *)
#[warnings="-register-all"]
Inductive jsval : Type :=
| JUndefined
| JNull
| JBool (b : bool)
| JNum (q : Qc)
| JNaN
| JStr (s : string)
| JArr (l : list jsval)
| JObj (fields : list (string * jsval)).

(** [if (v)], [v || d], [!v]. *)
Definition truthy (v : jsval) : bool :=
  match v with
  | JUndefined | JNull | JNaN => false
  | JBool b => b
  | JNum q => if decide (q = 0%Qc) then false else true
  | JStr s => if decide (s = "") then false else true
  | JArr _ | JObj _ => true
  end.

(** [v.k]; [undefined] when [v] has no such property. *)
Definition js_get (v : jsval) (k : string) : jsval :=
  match v with
  | JObj fields =>
      match find (fun kv => bool_decide (fst kv = k)) fields with
      | Some kv => snd kv
      | None => JUndefined
      end
  | _ => JUndefined
  end.

(** [v || d] *)
Definition js_or (v d : jsval) : jsval := if truthy v then v else d.

(** [v ?? d] *)
Definition js_nullish (v d : jsval) : jsval :=
  match v with JUndefined | JNull => d | _ => v end.

(** A default parameter or destructuring default: only [undefined] takes it. *)
Definition js_default (v d : jsval) : jsval :=
  match v with JUndefined => d | _ => v end.

(** Truthiness of a string-valued field; an absent field reads as [""]. *)
Definition nonempty (s : string) : bool := if decide (s = "") then false else true.

(** Numbers that may be NaN: the results of [getTime()] and [parseInt].
    Every comparison with NaN is false. *)
Definition num_add (a b : option Z) : option Z :=
  match a, b with Some x, Some y => Some (x + y) | _, _ => None end.

Definition num_sub (a b : option Z) : option Z :=
  match a, b with Some x, Some y => Some (x - y) | _, _ => None end.

Definition num_lt (a b : option Z) : bool :=
  match a, b with Some x, Some y => bool_decide (x < y) | _, _ => false end.

Definition num_gt (a b : option Z) : bool := num_lt b a.

(** [s === t] on strings. *)
Definition streq (s t : string) : bool := bool_decide (s = t).

(** [s.startsWith(p)] *)
Definition startsWith (p s : string) : bool := String.prefix p s.

(** [s.replace(p, '')] where [s.startsWith(p)] holds: the first occurrence
    of [p] is the prefix, which is cut off. *)
Definition stripPrefix (p s : string) : string :=
  String.substring (String.length p) (String.length s - String.length p) s.

(** [v === 's'] and [v === b] for a string and a boolean literal. *)
Definition js_is_str (v : jsval) (s : string) : bool :=
  match v with JStr s' => streq s' s | _ => false end.

Definition js_is_bool (v : jsval) (b : bool) : bool :=
  match v with JBool b' => Bool.eqb b' b | _ => false end.

(** [l.includes(x)] on an array of strings. *)
Definition includes (x : string) (l : list string) : bool :=
  existsb (streq x) l.

(** [Array.prototype.sort(compareFn)].  The sort is stable (ECMAScript
    2019) and takes a NaN from [compareFn] as 0; for a comparator that is
    a total preorder its result is the one stable sorted arrangement,
    computed here by insertion.  [x] goes before the first [y] that it
    does not have to follow. *)
Definition precedes {A} (compareFn : A -> A -> option Z) (x y : A) : bool :=
  match compareFn x y with
  | Some v => bool_decide (v <= 0)
  | None => true
  end.

Fixpoint sort_insert {A} (compareFn : A -> A -> option Z) (x : A) (l : list A) : list A :=
  match l with
  | [] => [x]
  | y :: l' => if precedes compareFn x y then x :: y :: l'
               else y :: sort_insert compareFn x l'
  end.

Fixpoint js_sort {A} (compareFn : A -> A -> option Z) (l : list A) : list A :=
  match l with
  | [] => []
  | x :: l' => sort_insert compareFn x (js_sort compareFn l')
  end.

(** ** The runtime's built-ins *)

Class JSRuntime : Type := {
  (** [new Date(s).getTime()]; [None] is NaN (an invalid date). *)
  Date_parse : string -> option Z;
  (** [new Date(ms).toISOString()] *)
  Date_toISOString : Z -> string;
  (** [parseInt(s)]; [None] is NaN. *)
  parseInt : string -> option Z;
  (** [parseFloat(s)]; [None] is NaN. *)
  parseFloat : string -> option Qc;
  (** [String(n)] and [n.toString()] on a number. *)
  Number_toString : Qc -> string;
  (** [JSON.stringify(v)] *)
  JSON_stringify : jsval -> string;
  (** [JSON.parse(s)]; [None] when it throws a SyntaxError. *)
  JSON_parse : string -> option jsval;
  (** [crypto.createHash('sha256').update(s).digest('hex')] *)
  sha256_hex : string -> string
}.

(** ** Asynchronous code over a store: state and exceptions *)

Inductive outcome (A : Type) : Type :=
| Returned (a : A)
| Thrown (e : string).
Arguments Returned {A} a.
Arguments Thrown {A} e.

(** An [async] function: it runs on the store, returns or throws, and
    leaves the store as its completed writes made it (a throw does not
    roll back). *)
Definition io (S A : Type) : Type := S -> outcome A * S.

Definition ret {S A} (a : A) : io S A := fun s => (Returned a, s).

Definition throw {S A} (e : string) : io S A := fun s => (Thrown e, s).

Definition bind {S A B} (m : io S A) (k : A -> io S B) : io S B :=
  fun s => match m s with
           | (Returned a, s') => k a s'
           | (Thrown e, s') => (Thrown e, s')
           end.

(** [try { m } catch (error) { h error }] *)
Definition try_catch {S A} (m : io S A) (h : string -> io S A) : io S A :=
  fun s => match m s with
           | (Returned a, s') => (Returned a, s')
           | (Thrown e, s') => h e s'
           end.

Notation "x <- m ;; k" := (bind m (fun x => k))
  (at level 100, m at next level, right associativity).
Notation "m ;;; k" := (bind m (fun _ => k))
  (at level 100, right associativity).

(** [for (const x of l) { acc = body x acc }]: the loops of the schedulers
    only push onto one array, which is the accumulator. *)
Fixpoint for_of {S A B} (l : list A) (body : A -> B -> io S B) (acc : B) : io S B :=
  match l with
  | [] => ret acc
  | x :: l' => acc' <- body x acc ;; for_of l' body acc'
  end.

(** ** Accounts, groups and session mappings *)

Inductive SupportedModels : Type :=
| SMAbsent
| SMArray (l : list string)
| SMObject (m : list (string * string)).

(** An upstream account as the account services return it.  Fields read
    from a store hash are strings and an absent one is [""]; [isActive]
    and [schedulable] are strings for some services and booleans for
    others. *)
Record Account : Type := {
  id : string;
  name : string;
  isActive : jsval;
  status : string;
  accountType : string;
  schedulable : jsval;
  priority : string;
  lastUsedAt : string;
  rateLimitStatus : string;
  rateLimitedAt : string;
  supportedModels : SupportedModels;
  refreshToken : string
}.

Record Group : Type := {
  groupName : string;
  platform : string
}.

(** [{ accountId, accountType }]: the value of a session mapping and the
    result of a selection. *)
Record Selection : Type := {
  sel_accountId : string;
  sel_accountType : string
}.

(** An entry of the candidate array:
    [{ ...account, accountId, accountType, priority, lastUsedAt }]; of the
    spread fields only [name] is read afterwards. *)
Record Candidate : Type := {
  c_accountId : string;
  c_accountType : string;
  c_name : string;
  c_priority : Z;
  c_lastUsedAt : string
}.

(** The fields of the validated key that the schedulers read. *)
Record ApiKeyData : Type := {
  keyName : string;
  claudeAccountId : string;
  claudeConsoleAccountId : string;
  openaiAccountId : string
}.

(** ** The modules the schedulers import *)

Class Services (S : Type) : Type := {
  (** openaiAccountService *)
  openai_getAccount : string -> io S (option Account);
  openai_getAllAccounts : io S (list Account);
  openai_isTokenExpired : Account -> bool;
  (** accountGroupService *)
  group_getGroup : string -> io S (option Group);
  group_getGroupMembers : string -> io S (list string);
  (** redis *)
  redis_getClaudeAccount : string -> io S (option Account);
  redis_getAllClaudeAccounts : io S (list Account);
  (** claudeAccountService *)
  claude_isAccountRateLimited : string -> io S bool;
  (** claudeConsoleAccountService *)
  console_getAccount : string -> io S (option Account);
  console_getAllAccounts : io S (list Account);
  console_isAccountRateLimited : string -> io S bool;
  console_isModelSupported : list (string * string) -> string -> bool;
  (** redis.getClientSafe(): get, setex, del *)
  client_get : string -> io S (option string);
  client_setex : string -> Z -> string -> io S unit;
  client_del : string -> io S unit
}.

(** ** What the two schedulers share

    Both files carry the same text for these. *)

Section Ranking.
Context {RT : JSRuntime}.

(** [parseInt(account.priority) || 50] *)
Definition priorityOrDefault (priority : string) : Z :=
  match parseInt priority with
  | Some n => if decide (n = 0) then 50 else n
  | None => 50
  end.

(** [{ ...account, accountId: account.id, accountType, priority:
    parseInt(account.priority) || 50, lastUsedAt: account.lastUsedAt || '0' }] *)
Definition candidateOf (account : Account) (accountType : string) : Candidate :=
  {| c_accountId := id account;
     c_accountType := accountType;
     c_name := name account;
     c_priority := priorityOrDefault (priority account);
     c_lastUsedAt := if nonempty (lastUsedAt account) then lastUsedAt account else "0" |}.

(** [new Date(a.lastUsedAt || 0).getTime()] *)
Definition lastUsedTime (a : Candidate) : option Z :=
  if nonempty (c_lastUsedAt a) then Date_parse (c_lastUsedAt a) else Some 0.

(** The comparator of [_sortAccountsByPriority]. *)
Definition compareAccounts (a b : Candidate) : option Z :=
  if negb (bool_decide (c_priority a = c_priority b))
  then Some (c_priority a - c_priority b)
  else
    let aLastUsed := lastUsedTime a in
    let bLastUsed := lastUsedTime b in
    num_sub aLastUsed bLastUsed.

Definition _sortAccountsByPriority (accounts : list Candidate) : list Candidate :=
  js_sort compareAccounts accounts.

End Ranking.

Section SessionMappings.
Context {RT : JSRuntime} {S : Type} {SV : Services S}.

(** A property that is compared with strings only: one that is missing or
    not a string reads as [""], which no account id or type equals. *)
Definition stringField (v : jsval) (k : string) : string :=
  match js_get v k with JStr s => s | _ => "" end.

(** [try { return JSON.parse(mappingData) } catch { return null }], and
    the caller's [if (mappedAccount)]. *)
Definition parseSelection (mappingData : string) : option Selection :=
  match JSON_parse mappingData with
  | Some v =>
      if truthy v
      then Some {| sel_accountId := stringField v "accountId";
                   sel_accountType := stringField v "accountType" |}
      else None
  | None => None
  end.

(** [JSON.stringify({ accountId, accountType })] *)
Definition stringifySelection (accountId accountType : string) : string :=
  JSON_stringify (JObj [("accountId", JStr accountId); ("accountType", JStr accountType)]).

Definition _getSessionMapping (prefix sessionHash : string) : io S (option Selection) :=
  mappingData <- client_get (prefix +:+ sessionHash) ;;
  match mappingData with
  | Some mappingData =>
      if nonempty mappingData then ret (parseSelection mappingData) else ret None
  | None => ret None
  end.

Definition _setSessionMapping (prefix sessionHash accountId accountType : string) : io S unit :=
  let mappingData := stringifySelection accountId accountType in
  client_setex (prefix +:+ sessionHash) 3600 mappingData.

Definition _deleteSessionMapping (prefix sessionHash : string) : io S unit :=
  client_del (prefix +:+ sessionHash).

End SessionMappings.

(** ** unifiedOpenAIScheduler.js *)

Module UnifiedOpenAIScheduler.
Section Scheduler.
Context {RT : JSRuntime} {S : Type} {SV : Services S}.

Definition SESSION_MAPPING_PREFIX : string := "unified_openai_session_mapping:".

Definition _isSchedulable (schedulable : jsval) : bool :=
  match schedulable with
  | JUndefined | JNull => true
  | _ => negb (js_is_bool schedulable false) && negb (js_is_str schedulable "false")
  end.

(** 60 * 60 * 1000 *)
Definition limitDuration : Z := 60 * 60 * 1000.

(** [isAccountRateLimited(accountId)]; [now] is what [Date.now()] reads. *)
Definition isAccountRateLimited (now : Z) (accountId : string) : io S bool :=
  try_catch
    (account <- openai_getAccount accountId ;;
     match account with
     | None => ret false
     | Some account =>
         if streq (rateLimitStatus account) "limited" && nonempty (rateLimitedAt account)
         then
           let limitedAt := Date_parse (rateLimitedAt account) in
           ret (num_lt (Some now) (num_add limitedAt (Some limitDuration)))
         else ret false
     end)
    (fun _ => ret false).

(** [requestedModel && account.supportedModels &&
    account.supportedModels.length > 0] and then
    [!account.supportedModels.includes(requestedModel)]; an object has no
    [length], so only a non-empty array filters. *)
Definition modelNotSupported (requestedModel : string) (account : Account) : bool :=
  nonempty requestedModel &&
  match supportedModels account with
  | SMArray l => bool_decide (0 < Z.of_nat (length l)) && negb (includes requestedModel l)
  | _ => false
  end.

Definition _isAccountAvailable (now : Z) (accountId accountType : string) : io S bool :=
  try_catch
    (if streq accountType "openai" then
       account <- openai_getAccount accountId ;;
       match account with
       | None => ret false
       | Some account =>
           if negb (js_is_str (isActive account) "true") || streq (status account) "error"
           then ret false
           else if negb (_isSchedulable (schedulable account)) then ret false
           else limited <- isAccountRateLimited now accountId ;; ret (negb limited)
       end
     else ret false)
    (fun _ => ret false).

(** The body of the two loops over accounts: [continue] leaves the array
    as it is. *)
Definition considerAccount (now : Z) (requestedModel : string) (account : Account)
    (availableAccounts : list Candidate) : io S (list Candidate) :=
  let isExpired := openai_isTokenExpired account in
  if isExpired && negb (nonempty (refreshToken account)) then ret availableAccounts
  else if modelNotSupported requestedModel account then ret availableAccounts
  else
    isRateLimited <- isAccountRateLimited now (id account) ;;
    if isRateLimited then ret availableAccounts
    else ret (availableAccounts ++ [candidateOf account "openai"])%list.

Definition _getAllAvailableAccounts (now : Z) (apiKeyData : ApiKeyData)
    (requestedModel : string) : io S (list Candidate) :=
  let availableAccounts : list Candidate := [] in
  early <-
    (if nonempty (openaiAccountId apiKeyData) then
       boundAccount <- openai_getAccount (openaiAccountId apiKeyData) ;;
       match boundAccount with
       | Some boundAccount =>
           if js_is_str (isActive boundAccount) "true"
              && negb (streq (status boundAccount) "error")
           then
             isRateLimited <- isAccountRateLimited now (id boundAccount) ;;
             if negb isRateLimited then
               if modelNotSupported requestedModel boundAccount
               then ret (Some availableAccounts)
               else ret (Some [candidateOf boundAccount "openai"])
             else ret None
           else ret None
       | None => ret None
       end
     else ret None) ;;
  match early with
  | Some result => ret result
  | None =>
      openaiAccounts <- openai_getAllAccounts ;;
      for_of openaiAccounts
        (fun account availableAccounts =>
           if js_is_str (isActive account) "true"
              && negb (streq (status account) "error")
              && (streq (accountType account) "shared" || negb (nonempty (accountType account)))
              && _isSchedulable (schedulable account)
           then considerAccount now requestedModel account availableAccounts
           else ret availableAccounts)
        availableAccounts
  end.

Definition _isAccountInGroup (accountId groupId : string) : io S bool :=
  members <- group_getGroupMembers groupId ;;
  ret (includes accountId members).

(** The tail both selections share: sort, take the first, write the
    session mapping when there is a session hash. *)
Definition pickFirst (sessionHash : string) (availableAccounts : list Candidate) : io S Selection :=
  let sortedAccounts := _sortAccountsByPriority availableAccounts in
  match sortedAccounts with
  | [] => throw "TypeError: Cannot read properties of undefined"
  | selectedAccount :: _ =>
      (if nonempty sessionHash
       then _setSessionMapping SESSION_MAPPING_PREFIX sessionHash
              (c_accountId selectedAccount) (c_accountType selectedAccount)
       else ret tt) ;;;
      ret {| sel_accountId := c_accountId selectedAccount;
             sel_accountType := c_accountType selectedAccount |}
  end.

Definition selectAccountFromGroup (now : Z) (groupId sessionHash requestedModel : string)
    : io S Selection :=
  try_catch
    (group <- group_getGroup groupId ;;
     match group with
     | None => throw ("Group " +:+ groupId +:+ " not found")
     | Some group =>
         if negb (streq (platform group) "openai")
         then throw ("Group " +:+ groupName group +:+ " is not an OpenAI group")
         else
           sticky <-
             (if nonempty sessionHash then
                mappedAccount <- _getSessionMapping SESSION_MAPPING_PREFIX sessionHash ;;
                match mappedAccount with
                | Some mappedAccount =>
                    isInGroup <- _isAccountInGroup (sel_accountId mappedAccount) groupId ;;
                    isAvailable <-
                      (if isInGroup
                       then _isAccountAvailable now (sel_accountId mappedAccount)
                              (sel_accountType mappedAccount)
                       else ret false) ;;
                    if isInGroup && isAvailable then ret (Some mappedAccount)
                    else (_deleteSessionMapping SESSION_MAPPING_PREFIX sessionHash ;;; ret None)
                | None => ret None
                end
              else ret None) ;;
           match sticky with
           | Some mappedAccount => ret mappedAccount
           | None =>
               memberIds <- group_getGroupMembers groupId ;;
               if bool_decide (length memberIds = 0%nat)
               then throw ("Group " +:+ groupName group +:+ " has no members")
               else
                 availableAccounts <-
                   for_of memberIds
                     (fun memberId availableAccounts =>
                        account <- openai_getAccount memberId ;;
                        match account with
                        | Some account =>
                            if js_is_str (isActive account) "true"
                               && negb (streq (status account) "error")
                               && _isSchedulable (schedulable account)
                            then considerAccount now requestedModel account availableAccounts
                            else ret availableAccounts
                        | None => ret availableAccounts
                        end)
                     [] ;;
                 if bool_decide (length availableAccounts = 0%nat)
                 then throw ("No available accounts in group " +:+ groupName group)
                 else pickFirst sessionHash availableAccounts
           end
     end)
    (fun error => throw error).

Definition selectAccountForApiKey (now : Z) (apiKeyData : ApiKeyData)
    (sessionHash requestedModel : string) : io S Selection :=
  try_catch
    (bound <-
       (if nonempty (openaiAccountId apiKeyData) then
          if startsWith "group:" (openaiAccountId apiKeyData) then
            let groupId := stripPrefix "group:" (openaiAccountId apiKeyData) in
            sel <- selectAccountFromGroup now groupId sessionHash requestedModel ;;
            ret (Some sel)
          else
            boundAccount <- openai_getAccount (openaiAccountId apiKeyData) ;;
            match boundAccount with
            | Some boundAccount =>
                if js_is_str (isActive boundAccount) "true"
                   && negb (streq (status boundAccount) "error")
                then ret (Some {| sel_accountId := openaiAccountId apiKeyData;
                                  sel_accountType := "openai" |})
                else ret None
            | None => ret None
            end
        else ret None) ;;
     match bound with
     | Some selection => ret selection
     | None =>
         sticky <-
           (if nonempty sessionHash then
              mappedAccount <- _getSessionMapping SESSION_MAPPING_PREFIX sessionHash ;;
              match mappedAccount with
              | Some mappedAccount =>
                  isAvailable <- _isAccountAvailable now (sel_accountId mappedAccount)
                                   (sel_accountType mappedAccount) ;;
                  if isAvailable then ret (Some mappedAccount)
                  else (_deleteSessionMapping SESSION_MAPPING_PREFIX sessionHash ;;; ret None)
              | None => ret None
              end
            else ret None) ;;
         match sticky with
         | Some mappedAccount => ret mappedAccount
         | None =>
             availableAccounts <- _getAllAvailableAccounts now apiKeyData requestedModel ;;
             if bool_decide (length availableAccounts = 0%nat) then
               if nonempty requestedModel
               then throw ("No available OpenAI accounts support the requested model: "
                           +:+ requestedModel)
               else throw "No available OpenAI accounts"
             else pickFirst sessionHash availableAccounts
         end
     end)
    (fun error => throw error).

End Scheduler.
End UnifiedOpenAIScheduler.

(** ** unifiedClaudeScheduler.js *)

Module UnifiedClaudeScheduler.
Section Scheduler.
Context {RT : JSRuntime} {S : Type} {SV : Services S}.

Definition SESSION_MAPPING_PREFIX : string := "unified_claude_session_mapping:".

(** The model filter of the Console loop: [true] is its [continue]. *)
Definition modelNotSupported (requestedModel : string) (account : Account) : bool :=
  nonempty requestedModel &&
  match supportedModels account with
  | SMAbsent => false
  | SMArray l => bool_decide (0 < Z.of_nat (length l)) && negb (includes requestedModel l)
  | SMObject m =>
      bool_decide (0 < Z.of_nat (length m)) && negb (console_isModelSupported m requestedModel)
  end.

Definition _getAllAvailableAccounts (apiKeyData : ApiKeyData) (requestedModel : string)
    : io S (list Candidate) :=
  let availableAccounts : list Candidate := [] in
  early1 <-
    (if nonempty (claudeAccountId apiKeyData) then
       boundAccount <- redis_getClaudeAccount (claudeAccountId apiKeyData) ;;
       match boundAccount with
       | Some boundAccount =>
           if js_is_str (isActive boundAccount) "true"
              && negb (streq (status boundAccount) "error")
              && negb (streq (status boundAccount) "blocked")
           then
             isRateLimited <- claude_isAccountRateLimited (id boundAccount) ;;
             if negb isRateLimited
             then ret (Some [candidateOf boundAccount "claude-official"])
             else ret None
           else ret None
       | None => ret None
       end
     else ret None) ;;
  match early1 with
  | Some result => ret result
  | None =>
  early2 <-
    (if nonempty (claudeConsoleAccountId apiKeyData) then
       boundConsoleAccount <- console_getAccount (claudeConsoleAccountId apiKeyData) ;;
       match boundConsoleAccount with
       | Some boundConsoleAccount =>
           if js_is_bool (isActive boundConsoleAccount) true
              && streq (status boundConsoleAccount) "active"
           then
             isRateLimited <- console_isAccountRateLimited (id boundConsoleAccount) ;;
             if negb isRateLimited
             then ret (Some [candidateOf boundConsoleAccount "claude-console"])
             else ret None
           else ret None
       | None => ret None
       end
     else ret None) ;;
  match early2 with
  | Some result => ret result
  | None =>
      claudeAccounts <- redis_getAllClaudeAccounts ;;
      availableAccounts <-
        for_of claudeAccounts
          (fun account availableAccounts =>
             if js_is_str (isActive account) "true"
                && negb (streq (status account) "error")
                && negb (streq (status account) "blocked")
                && (streq (accountType account) "shared" || negb (nonempty (accountType account)))
                && negb (js_is_str (schedulable account) "false")
             then
               isRateLimited <- claude_isAccountRateLimited (id account) ;;
               if negb isRateLimited
               then ret (availableAccounts ++ [candidateOf account "claude-official"])%list
               else ret availableAccounts
             else ret availableAccounts)
          availableAccounts ;;
      consoleAccounts <- console_getAllAccounts ;;
      for_of consoleAccounts
        (fun account availableAccounts =>
           if js_is_bool (isActive account) true
              && streq (status account) "active"
              && streq (accountType account) "shared"
              && negb (js_is_bool (schedulable account) false)
           then
             if modelNotSupported requestedModel account then ret availableAccounts
             else
               isRateLimited <- console_isAccountRateLimited (id account) ;;
               if negb isRateLimited
               then ret (availableAccounts ++ [candidateOf account "claude-console"])%list
               else ret availableAccounts
           else ret availableAccounts)
        availableAccounts
  end
  end.

Definition _isAccountAvailable (accountId accountType : string) : io S bool :=
  try_catch
    (if streq accountType "claude-official" then
       account <- redis_getClaudeAccount accountId ;;
       match account with
       | None => ret false
       | Some account =>
           if negb (js_is_str (isActive account) "true") || streq (status account) "error"
           then ret false
           else if js_is_str (schedulable account) "false" then ret false
           else limited <- claude_isAccountRateLimited accountId ;; ret (negb limited)
       end
     else if streq accountType "claude-console" then
       account <- console_getAccount accountId ;;
       match account with
       | None => ret false
       | Some account =>
           if negb (truthy (isActive account)) || negb (streq (status account) "active")
           then ret false
           else if js_is_bool (schedulable account) false then ret false
           else limited <- console_isAccountRateLimited accountId ;; ret (negb limited)
       end
     else ret false)
    (fun _ => ret false).

Definition selectAccountForApiKey (apiKeyData : ApiKeyData)
    (sessionHash requestedModel : string) : io S Selection :=
  try_catch
    (bound1 <-
       (if nonempty (claudeAccountId apiKeyData) then
          boundAccount <- redis_getClaudeAccount (claudeAccountId apiKeyData) ;;
          match boundAccount with
          | Some boundAccount =>
              if js_is_str (isActive boundAccount) "true"
                 && negb (streq (status boundAccount) "error")
              then ret (Some {| sel_accountId := claudeAccountId apiKeyData;
                                sel_accountType := "claude-official" |})
              else ret None
          | None => ret None
          end
        else ret None) ;;
     match bound1 with
     | Some selection => ret selection
     | None =>
     bound2 <-
       (if nonempty (claudeConsoleAccountId apiKeyData) then
          boundConsoleAccount <- console_getAccount (claudeConsoleAccountId apiKeyData) ;;
          match boundConsoleAccount with
          | Some boundConsoleAccount =>
              if js_is_bool (isActive boundConsoleAccount) true
                 && streq (status boundConsoleAccount) "active"
              then ret (Some {| sel_accountId := claudeConsoleAccountId apiKeyData;
                                sel_accountType := "claude-console" |})
              else ret None
          | None => ret None
          end
        else ret None) ;;
     match bound2 with
     | Some selection => ret selection
     | None =>
         sticky <-
           (if nonempty sessionHash then
              mappedAccount <- _getSessionMapping SESSION_MAPPING_PREFIX sessionHash ;;
              match mappedAccount with
              | Some mappedAccount =>
                  isAvailable <- _isAccountAvailable (sel_accountId mappedAccount)
                                   (sel_accountType mappedAccount) ;;
                  if isAvailable then ret (Some mappedAccount)
                  else (_deleteSessionMapping SESSION_MAPPING_PREFIX sessionHash ;;; ret None)
              | None => ret None
              end
            else ret None) ;;
         match sticky with
         | Some mappedAccount => ret mappedAccount
         | None =>
             availableAccounts <- _getAllAvailableAccounts apiKeyData requestedModel ;;
             if bool_decide (length availableAccounts = 0%nat) then
               if nonempty requestedModel
               then throw ("No available Claude accounts support the requested model: "
                           +:+ requestedModel)
               else throw "No available Claude accounts (neither official nor console)"
             else
               let sortedAccounts := _sortAccountsByPriority availableAccounts in
               match sortedAccounts with
               | [] => throw "TypeError: Cannot read properties of undefined"
               | selectedAccount :: _ =>
                   (if nonempty sessionHash
                    then _setSessionMapping SESSION_MAPPING_PREFIX sessionHash
                           (c_accountId selectedAccount) (c_accountType selectedAccount)
                    else ret tt) ;;;
                   ret {| sel_accountId := c_accountId selectedAccount;
                          sel_accountType := c_accountType selectedAccount |}
               end
         end
     end
     end)
    (fun error => throw error).

End Scheduler.
End UnifiedClaudeScheduler.

(** ** apiKeyService.js *)

(** [String(v)]; on a value that is neither [null] nor [undefined] also
    [v.toString()]. *)
Fixpoint js_String {RT : JSRuntime} (v : jsval) : string :=
  match v with
  | JUndefined => "undefined"
  | JNull => "null"
  | JBool true => "true"
  | JBool false => "false"
  | JNum q => Number_toString q
  | JNaN => "NaN"
  | JStr s => s
  | JArr l =>
      String.concat ","
        (map (fun x => match x with JUndefined | JNull => "" | _ => js_String x end) l)
  | JObj _ => "[object Object]"
  end.

(** [config.security.apiKeyPrefix], [config.security.encryptionKey] and
    [config.limits.defaultTokenLimit] of [config/config]. *)
Record Config : Type := {
  apiKeyPrefix : string;
  encryptionKey : string;
  defaultTokenLimit : jsval
}.

(** A key record, a store hash: field name to string value. *)
Abbreviation KeyData := (gmap string string).

(** [keyData.f] where it is used as a string: an absent field reads as
    [""] ([undefined] and [""] are both falsy and equal no literal the
    code compares with). *)
Definition fieldOf (keyData : KeyData) (f : string) : string :=
  default "" (keyData !! f).

(** The functions of [models/redis] and [utils/costCalculator] that
    apiKeyService calls. *)
Class Redis (S : Type) : Type := {
  (** [setApiKey(keyId, keyData, hashedKey = null)] *)
  redis_setApiKey : string -> KeyData -> option string -> io S unit;
  redis_findApiKeyByHash : string -> io S (option KeyData);
  redis_getApiKey : string -> io S (option KeyData);
  redis_getUsageStats : string -> io S jsval;
  redis_getDailyCost : string -> io S jsval;
  (** [incrementTokenUsage(keyId, totalTokens, inputTokens, outputTokens,
      cacheCreateTokens, cacheReadTokens, model)] *)
  redis_incrementTokenUsage : string -> Z -> Z -> Z -> Z -> Z -> string -> io S unit;
  redis_incrementDailyCost : string -> Qc -> io S unit;
  (** [incrementAccountUsage(accountId, totalTokens, ..., model)] *)
  redis_incrementAccountUsage : string -> Z -> Z -> Z -> Z -> Z -> string -> io S unit;
  (** [CostCalculator.calculateCost(usage, model).costs.total] *)
  calculateCost : Z -> Z -> Z -> Z -> string -> io S Qc
}.

(** [{ valid: true, keyData }] and [{ valid: false, error }] *)
Record ValidatedKey : Type := {
  vk_id : option string;
  vk_name : option string;
  vk_description : option string;
  vk_createdAt : option string;
  vk_expiresAt : option string;
  vk_claudeAccountId : option string;
  vk_claudeConsoleAccountId : option string;
  vk_geminiAccountId : option string;
  vk_permissions : string;
  vk_tokenLimit : option Z;
  vk_concurrencyLimit : option Z;
  vk_rateLimitWindow : option Z;
  vk_rateLimitRequests : option Z;
  vk_enableModelRestriction : bool;
  vk_restrictedModels : jsval;
  vk_enableClientRestriction : bool;
  vk_allowedClients : jsval;
  vk_dailyCostLimit : option Qc;
  vk_dailyCost : jsval;
  vk_tags : jsval;
  vk_usage : jsval
}.

Inductive Validation : Type :=
| Valid (keyData : ValidatedKey)
| Invalid (error : string).

(** What [generateApiKey] returns: the id, the secret, and the fields of
    [keyData] read back. *)
Record GeneratedKey : Type := {
  g_id : string;
  g_apiKey : string;
  g_name : string;
  g_description : string;
  g_tokenLimit : option Z;
  g_concurrencyLimit : option Z;
  g_rateLimitWindow : option Z;
  g_rateLimitRequests : option Z;
  g_isActive : bool;
  g_claudeAccountId : string;
  g_claudeConsoleAccountId : string;
  g_geminiAccountId : string;
  g_permissions : string;
  g_enableModelRestriction : bool;
  g_restrictedModels : jsval;
  g_enableClientRestriction : bool;
  g_allowedClients : jsval;
  g_dailyCostLimit : option Qc;
  g_tags : jsval;
  g_createdAt : string;
  g_expiresAt : string;
  g_createdBy : string
}.

Module ApiKeyService.
Section Service.
Context {RT : JSRuntime} {S : Type} {RD : Redis S} (config : Config).

(** [this.prefix] *)
Definition prefix : string := apiKeyPrefix config.

Definition _hashApiKey (apiKey : string) : string :=
  sha256_hex (apiKey +:+ encryptionKey config).

(** [parseInt(s || 0)], [parseFloat(s || 0)] *)
Definition parseIntOr0 (s : string) : option Z :=
  if nonempty s then parseInt s else Some 0.

Definition parseFloatOr0 (s : string) : option Qc :=
  if nonempty s then parseFloat s else Some 0%Qc.

(** [JSON.parse(s)] where a SyntaxError propagates. *)
Definition JSON_parse_throw (s : string) : io S jsval :=
  match JSON_parse s with
  | Some v => ret v
  | None => throw "SyntaxError"
  end.

(** [let x = []; try { x = s ? JSON.parse(s) : [] } catch (e) { x = [] }] *)
Definition parseOrEmpty (s : string) : jsval :=
  if nonempty s
  then match JSON_parse s with Some v => v | None => JArr [] end
  else JArr [].

(** The [keyData] object of [generateApiKey], from the destructured
    options.  The store keeps hash values as strings, so a field given as
    another value is kept as its [String]. *)
Definition newKeyData (now : Z) (keyId hashedKey : string) (options : jsval) : KeyData :=
  let name := js_default (js_get options "name") (JStr "Unnamed Key") in
  let description := js_default (js_get options "description") (JStr "") in
  let tokenLimit := js_default (js_get options "tokenLimit") (defaultTokenLimit config) in
  let expiresAt := js_default (js_get options "expiresAt") JNull in
  let claudeAccountId := js_default (js_get options "claudeAccountId") JNull in
  let claudeConsoleAccountId := js_default (js_get options "claudeConsoleAccountId") JNull in
  let geminiAccountId := js_default (js_get options "geminiAccountId") JNull in
  let permissions := js_default (js_get options "permissions") (JStr "all") in
  let isActive := js_default (js_get options "isActive") (JBool true) in
  let concurrencyLimit := js_default (js_get options "concurrencyLimit") (JNum 0) in
  let rateLimitWindow := js_default (js_get options "rateLimitWindow") JNull in
  let rateLimitRequests := js_default (js_get options "rateLimitRequests") JNull in
  let enableModelRestriction :=
    js_default (js_get options "enableModelRestriction") (JBool false) in
  let restrictedModels := js_default (js_get options "restrictedModels") (JArr []) in
  let enableClientRestriction :=
    js_default (js_get options "enableClientRestriction") (JBool false) in
  let allowedClients := js_default (js_get options "allowedClients") (JArr []) in
  let dailyCostLimit := js_default (js_get options "dailyCostLimit") (JNum 0) in
  let tags := js_default (js_get options "tags") (JArr []) in
  list_to_map
    [ ("id", keyId);
      ("name", js_String name);
      ("description", js_String description);
      ("apiKey", hashedKey);
      ("tokenLimit", js_String (js_nullish tokenLimit (JNum 0)));
      ("concurrencyLimit", js_String (js_nullish concurrencyLimit (JNum 0)));
      ("rateLimitWindow", js_String (js_nullish rateLimitWindow (JNum 0)));
      ("rateLimitRequests", js_String (js_nullish rateLimitRequests (JNum 0)));
      ("isActive", js_String isActive);
      ("claudeAccountId", js_String (js_or claudeAccountId (JStr "")));
      ("claudeConsoleAccountId", js_String (js_or claudeConsoleAccountId (JStr "")));
      ("geminiAccountId", js_String (js_or geminiAccountId (JStr "")));
      ("permissions", js_String (js_or permissions (JStr "all")));
      ("enableModelRestriction", js_String enableModelRestriction);
      ("restrictedModels", JSON_stringify (js_or restrictedModels (JArr [])));
      ("enableClientRestriction", js_String (js_or enableClientRestriction (JBool false)));
      ("allowedClients", JSON_stringify (js_or allowedClients (JArr [])));
      ("dailyCostLimit", js_String (js_or dailyCostLimit (JNum 0)));
      ("tags", JSON_stringify (js_or tags (JArr [])));
      ("createdAt", Date_toISOString now);
      ("lastUsedAt", "");
      ("expiresAt", js_String (js_or expiresAt (JStr "")));
      ("createdBy", "admin") ].

(** [generateApiKey(options = {})].  [keyId] is what [uuidv4()] gives,
    [secretKey] what [_generateSecretKey()] gives and [now] the clock
    read by [new Date()]. *)
Definition generateApiKey (now : Z) (keyId secretKey : string) (options : jsval)
    : io S GeneratedKey :=
  let apiKey := prefix +:+ secretKey in
  let hashedKey := _hashApiKey apiKey in
  let keyData := newKeyData now keyId hashedKey options in
  redis_setApiKey keyId keyData (Some hashedKey) ;;;
  restrictedModels' <- JSON_parse_throw (fieldOf keyData "restrictedModels") ;;
  allowedClients' <-
    JSON_parse_throw (if nonempty (fieldOf keyData "allowedClients")
                      then fieldOf keyData "allowedClients" else "[]") ;;
  tags' <-
    JSON_parse_throw (if nonempty (fieldOf keyData "tags") then fieldOf keyData "tags" else "[]") ;;
  ret {| g_id := keyId;
         g_apiKey := apiKey;
         g_name := fieldOf keyData "name";
         g_description := fieldOf keyData "description";
         g_tokenLimit := parseInt (fieldOf keyData "tokenLimit");
         g_concurrencyLimit := parseInt (fieldOf keyData "concurrencyLimit");
         g_rateLimitWindow := parseIntOr0 (fieldOf keyData "rateLimitWindow");
         g_rateLimitRequests := parseIntOr0 (fieldOf keyData "rateLimitRequests");
         g_isActive := streq (fieldOf keyData "isActive") "true";
         g_claudeAccountId := fieldOf keyData "claudeAccountId";
         g_claudeConsoleAccountId := fieldOf keyData "claudeConsoleAccountId";
         g_geminiAccountId := fieldOf keyData "geminiAccountId";
         g_permissions := fieldOf keyData "permissions";
         g_enableModelRestriction := streq (fieldOf keyData "enableModelRestriction") "true";
         g_restrictedModels := restrictedModels';
         g_enableClientRestriction := streq (fieldOf keyData "enableClientRestriction") "true";
         g_allowedClients := allowedClients';
         g_dailyCostLimit := parseFloatOr0 (fieldOf keyData "dailyCostLimit");
         g_tags := tags';
         g_createdAt := fieldOf keyData "createdAt";
         g_expiresAt := fieldOf keyData "expiresAt";
         g_createdBy := fieldOf keyData "createdBy" |}.

(** [validateApiKey(apiKey)]; [now] is what [new Date()] reads. *)
Definition validateApiKey (now : Z) (apiKey : string) : io S Validation :=
  try_catch
    (if negb (nonempty apiKey) || negb (startsWith prefix apiKey)
     then ret (Invalid "Invalid API key format")
     else
       let hashedKey := _hashApiKey apiKey in
       keyData <- redis_findApiKeyByHash hashedKey ;;
       match keyData with
       | None => ret (Invalid "API key not found")
       | Some keyData =>
           if negb (streq (fieldOf keyData "isActive") "true")
           then ret (Invalid "API key is disabled")
           else if nonempty (fieldOf keyData "expiresAt")
                   && num_gt (Some now) (Date_parse (fieldOf keyData "expiresAt"))
           then ret (Invalid "API key has expired")
           else
             usage <- redis_getUsageStats (fieldOf keyData "id") ;;
             dailyCost <- redis_getDailyCost (fieldOf keyData "id") ;;
             let restrictedModels := parseOrEmpty (fieldOf keyData "restrictedModels") in
             let allowedClients := parseOrEmpty (fieldOf keyData "allowedClients") in
             let tags := parseOrEmpty (fieldOf keyData "tags") in
             ret (Valid
               {| vk_id := keyData !! "id";
                  vk_name := keyData !! "name";
                  vk_description := keyData !! "description";
                  vk_createdAt := keyData !! "createdAt";
                  vk_expiresAt := keyData !! "expiresAt";
                  vk_claudeAccountId := keyData !! "claudeAccountId";
                  vk_claudeConsoleAccountId := keyData !! "claudeConsoleAccountId";
                  vk_geminiAccountId := keyData !! "geminiAccountId";
                  vk_permissions :=
                    if nonempty (fieldOf keyData "permissions")
                    then fieldOf keyData "permissions" else "all";
                  vk_tokenLimit := parseInt (fieldOf keyData "tokenLimit");
                  vk_concurrencyLimit := parseIntOr0 (fieldOf keyData "concurrencyLimit");
                  vk_rateLimitWindow := parseIntOr0 (fieldOf keyData "rateLimitWindow");
                  vk_rateLimitRequests := parseIntOr0 (fieldOf keyData "rateLimitRequests");
                  vk_enableModelRestriction :=
                    streq (fieldOf keyData "enableModelRestriction") "true";
                  vk_restrictedModels := restrictedModels;
                  vk_enableClientRestriction :=
                    streq (fieldOf keyData "enableClientRestriction") "true";
                  vk_allowedClients := allowedClients;
                  vk_dailyCostLimit := parseFloatOr0 (fieldOf keyData "dailyCostLimit");
                  vk_dailyCost := js_or dailyCost (JNum 0);
                  vk_tags := tags;
                  vk_usage := usage |})
       end)
    (fun _ => ret (Invalid "Internal validation error")).

Definition allowedUpdates : list string :=
  [ "name"; "description"; "tokenLimit"; "concurrencyLimit"; "rateLimitWindow";
    "rateLimitRequests"; "isActive"; "claudeAccountId"; "claudeConsoleAccountId";
    "geminiAccountId"; "permissions"; "expiresAt"; "enableModelRestriction";
    "restrictedModels"; "enableClientRestriction"; "allowedClients"; "dailyCostLimit";
    "tags" ].

(** One turn of the loop over [Object.entries(updates)]. *)
Definition applyUpdate (updatedData : KeyData) (entry : string * jsval) : KeyData :=
  let '(field, value) := entry in
  if includes field allowedUpdates then
    if streq field "restrictedModels" || streq field "allowedClients" || streq field "tags"
    then <[field := JSON_stringify (js_or value (JArr []))]> updatedData
    else if streq field "enableModelRestriction" || streq field "enableClientRestriction"
    then <[field := js_String value]> updatedData
    else <[field := js_String (js_nullish value (JStr ""))]> updatedData
  else updatedData.

(** [updateApiKey(keyId, updates)]; [updates] is [Object.entries(updates)]
    and the result [tt] is [{ success: true }]. *)
Definition updateApiKey (now : Z) (keyId : string) (updates : list (string * jsval))
    : io S unit :=
  try_catch
    (keyData <- redis_getApiKey keyId ;;
     match keyData with
     | None => throw "API key not found"
     | Some keyData =>
         if bool_decide (size keyData = 0%nat) then throw "API key not found"
         else
           let updatedData := keyData in
           let updatedData := fold_left applyUpdate updates updatedData in
           let updatedData := <["updatedAt" := Date_toISOString now]> updatedData in
           redis_setApiKey keyId updatedData None ;;;
           ret tt
     end)
    (fun error => throw error).

(** [recordUsage(keyId, inputTokens, outputTokens, cacheCreateTokens,
    cacheReadTokens, model, accountId)]; an argument left out is its
    default at the call (0, ['unknown'], and [""] for a null
    [accountId]). *)
Definition recordUsage (now : Z) (keyId : string)
    (inputTokens outputTokens cacheCreateTokens cacheReadTokens : Z)
    (model accountId : string) : io S unit :=
  try_catch
    (let totalTokens := inputTokens + outputTokens + cacheCreateTokens + cacheReadTokens in
     costTotal <- calculateCost inputTokens outputTokens cacheCreateTokens
                    cacheReadTokens model ;;
     redis_incrementTokenUsage keyId totalTokens inputTokens outputTokens
       cacheCreateTokens cacheReadTokens model ;;;
     (if bool_decide (0 < costTotal)%Qc
      then redis_incrementDailyCost keyId costTotal
      else ret tt) ;;;
     keyData <- redis_getApiKey keyId ;;
     match keyData with
     | Some keyData =>
         if bool_decide (0 < size keyData)%nat then
           let keyData := <["lastUsedAt" := Date_toISOString now]> keyData in
           redis_setApiKey keyId keyData None ;;;
           if nonempty accountId
           then redis_incrementAccountUsage accountId totalTokens inputTokens outputTokens
                  cacheCreateTokens cacheReadTokens model
           else ret tt
         else ret tt
     | None => ret tt
     end)
    (fun _ => ret tt).

End Service.
End ApiKeyService.

(** ** unifiedOpenAIScheduler.js: the writers *)

(** The functions of openaiAccountService that write an account. *)
Class AccountWriters (S : Type) : Type := {
  (** [setAccountRateLimited(accountId, isLimited)] *)
  openai_setAccountRateLimited : string -> bool -> io S unit;
  (** [updateAccount(accountId, { lastUsedAt })] *)
  openai_updateLastUsedAt : string -> string -> io S unit
}.

Module UnifiedOpenAISchedulerWriters.
Section Writers.
Context {RT : JSRuntime} {S : Type} {SV : Services S} {AW : AccountWriters S}.

(** [markAccountRateLimited(accountId, accountType, sessionHash = null)];
    a null [sessionHash] is [""], and the result [tt] is
    [{ success: true }]. *)
Definition markAccountRateLimited (accountId accountType sessionHash : string) : io S unit :=
  try_catch
    ((if streq accountType "openai"
      then openai_setAccountRateLimited accountId true
      else ret tt) ;;;
     (if nonempty sessionHash
      then _deleteSessionMapping UnifiedOpenAIScheduler.SESSION_MAPPING_PREFIX sessionHash
      else ret tt) ;;;
     ret tt)
    (fun error => throw error).

Definition removeAccountRateLimit (accountId accountType : string) : io S unit :=
  try_catch
    ((if streq accountType "openai"
      then openai_setAccountRateLimited accountId false
      else ret tt) ;;;
     ret tt)
    (fun error => throw error).

(** [updateAccountLastUsed(accountId, accountType)]; [now] is what
    [new Date()] reads. *)
Definition updateAccountLastUsed (now : Z) (accountId accountType : string) : io S unit :=
  try_catch
    (if streq accountType "openai"
     then openai_updateLastUsedAt accountId (Date_toISOString now)
     else ret tt)
    (fun _ => ret tt).

End Writers.
End UnifiedOpenAISchedulerWriters.

(** ** apiKeyService.js: listing, deleting and expiring keys *)

(** The functions of [models/redis] behind the admin operations. *)
Class RedisAdmin (S : Type) : Type := {
  (** [getAllApiKeys()]: the key records, each with its [id]. *)
  redis_getAllApiKeys : io S (list KeyData);
  (** [deleteApiKey(keyId)]: the number of records deleted. *)
  redis_deleteApiKey : string -> io S Z;
  redis_getConcurrency : string -> io S jsval
}.

(** A number that may be NaN, as a value. *)
Definition js_int (n : option Z) : jsval :=
  match n with Some z => JNum (Q2Qc (inject_Z z)) | None => JNaN end.

Definition js_float (q : option Qc) : jsval :=
  match q with Some q => JNum q | None => JNaN end.

Module ApiKeyServiceAdmin.
Section Service.
Context {RT : JSRuntime} {S : Type} {RD : Redis S} {RA : RedisAdmin S} (config : Config).

(** The body of the loop of [getAllApiKeys], on one record: the fields
    assigned, in the order of the source, and [delete key.apiKey] last. *)
Definition listedKey (key : KeyData) (usage currentConcurrency dailyCost : jsval)
    : gmap string jsval :=
  let o : gmap string jsval := JStr <$> key in
  let o := <["usage" := usage]> o in
  let o := <["tokenLimit" := js_int (parseInt (fieldOf key "tokenLimit"))]> o in
  let o := <["concurrencyLimit" :=
               js_int (ApiKeyService.parseIntOr0 (fieldOf key "concurrencyLimit"))]> o in
  let o := <["rateLimitWindow" :=
               js_int (ApiKeyService.parseIntOr0 (fieldOf key "rateLimitWindow"))]> o in
  let o := <["rateLimitRequests" :=
               js_int (ApiKeyService.parseIntOr0 (fieldOf key "rateLimitRequests"))]> o in
  let o := <["currentConcurrency" := currentConcurrency]> o in
  let o := <["isActive" := JBool (streq (fieldOf key "isActive") "true")]> o in
  let o := <["enableModelRestriction" :=
               JBool (streq (fieldOf key "enableModelRestriction") "true")]> o in
  let o := <["enableClientRestriction" :=
               JBool (streq (fieldOf key "enableClientRestriction") "true")]> o in
  let o := <["permissions" :=
               JStr (if nonempty (fieldOf key "permissions")
                     then fieldOf key "permissions" else "all")]> o in
  let o := <["dailyCostLimit" :=
               js_float (ApiKeyService.parseFloatOr0 (fieldOf key "dailyCostLimit"))]> o in
  let o := <["dailyCost" := js_or dailyCost (JNum 0)]> o in
  let o := <["restrictedModels" :=
               ApiKeyService.parseOrEmpty (fieldOf key "restrictedModels")]> o in
  let o := <["allowedClients" :=
               ApiKeyService.parseOrEmpty (fieldOf key "allowedClients")]> o in
  let o := <["tags" := ApiKeyService.parseOrEmpty (fieldOf key "tags")]> o in
  delete "apiKey" o.

(** [getAllApiKeys()]: the loop changes each record of the listing in
    place; the array it returns is the accumulator here. *)
Definition getAllApiKeys : io S (list (gmap string jsval)) :=
  try_catch
    (apiKeys <- redis_getAllApiKeys ;;
     for_of apiKeys
       (fun key listed =>
          usage <- redis_getUsageStats (fieldOf key "id") ;;
          currentConcurrency <- redis_getConcurrency (fieldOf key "id") ;;
          dailyCost <- redis_getDailyCost (fieldOf key "id") ;;
          ret (listed ++ [listedKey key usage currentConcurrency dailyCost])%list)
       [])
    (fun error => throw error).

(** [deleteApiKey(keyId)]; the result [tt] is [{ success: true }]. *)
Definition deleteApiKey (keyId : string) : io S unit :=
  try_catch
    (result <- redis_deleteApiKey keyId ;;
     if bool_decide (result = 0) then throw "API key not found" else ret tt)
    (fun error => throw error).

(** [cleanupExpiredKeys()]; [now] is what [new Date()] reads, here and in
    the updates. *)
Definition cleanupExpiredKeys (now : Z) : io S Z :=
  try_catch
    (apiKeys <- redis_getAllApiKeys ;;
     let cleanedCount := 0 in
     for_of apiKeys
       (fun key cleanedCount =>
          if nonempty (fieldOf key "expiresAt")
             && num_lt (Date_parse (fieldOf key "expiresAt")) (Some now)
             && streq (fieldOf key "isActive") "true"
          then
            ApiKeyService.updateApiKey now (fieldOf key "id") [("isActive", JBool false)] ;;;
            ret (cleanedCount + 1)
          else ret cleanedCount)
       cleanedCount)
    (fun _ => ret 0).

End Service.
End ApiKeyServiceAdmin.

(** ** routes/apiStats.js: the key id of a secret *)

(** [s.length], the number of UTF-16 code units of a string.  A string
    is held as its UTF-8 bytes, those that [crypto] hashes: the byte that
    starts a character counts one unit, or two when the character takes
    four bytes (it lies outside the Basic Multilingual Plane and is a
    surrogate pair in JavaScript), and a continuation byte counts none. *)
Definition codeUnits (b : ascii) : Z :=
  let n := Z.of_N (N_of_ascii b) in
  if bool_decide (n < 128) then 1
  else if bool_decide (n < 192) then 0
  else if bool_decide (n < 240) then 1
  else 2.

Fixpoint js_length (s : string) : Z :=
  match s with
  | EmptyString => 0
  | String b s' => codeUnits b + js_length s'
  end.

(** [const { k } = v]: a TypeError when [v] is [undefined] or [null], the
    property otherwise ([undefined] on a value that has none). *)
Definition js_destructure {S : Type} (v : jsval) (k : string) : io S jsval :=
  match v with
  | JUndefined =>
      throw ("TypeError: Cannot destructure property '" +:+ k +:+ "' of undefined")
  | JNull => throw ("TypeError: Cannot destructure property '" +:+ k +:+ "' of null")
  | _ => ret (js_get v k)
  end.

Module ApiStats.
Section Routes.
Context {RT : JSRuntime} {S : Type} {RD : Redis S} (config : Config).

(** What a handler answers: the status and the JSON body. *)
Definition Response : Type := Z * jsval.

Definition errorBody (error message : string) : jsval :=
  JObj [("error", JStr error); ("message", JStr message)].

(** A property of a returned object that may be missing. *)
Definition js_optional (o : option string) : jsval :=
  match o with Some s => JStr s | None => JUndefined end.

(** [router.post('/api/get-key-id', ...)]; [body] is [req.body] and [now]
    what [new Date()] reads during validation. *)
Definition getKeyId (now : Z) (body : jsval) : io S Response :=
  try_catch
    (apiKey <- js_destructure body "apiKey" ;;
     if negb (truthy apiKey)
     then ret (400, errorBody "API Key is required" "Please provide your API Key")
     else
       match apiKey with
       | JStr apiKey =>
           if bool_decide (js_length apiKey < 10) || bool_decide (512 < js_length apiKey)
           then ret (400, errorBody "Invalid API key format" "API key format is invalid")
           else
             validation <- ApiKeyService.validateApiKey config now apiKey ;;
             match validation with
             | Invalid error => ret (401, errorBody "Invalid API key" error)
             | Valid keyData =>
                 ret (200, JObj [("success", JBool true);
                                 ("data", JObj [("id", js_optional (vk_id keyData))])])
             end
       | _ => ret (400, errorBody "Invalid API key format" "API key format is invalid")
       end)
    (fun _ =>
       ret (500, errorBody "Internal server error" "Failed to retrieve API key ID")).

End Routes.
End ApiStats.

(** ** A runtime to run the examples on

    The built-ins as Node computes them, on the inputs the examples use:
    ISO instants, decimal numbers, compact JSON, and SHA-256 in full. *)

Module Sha256.

Definition w32 (x : Z) : Z := Z.land x 0xffffffff.
Definition rotr (n x : Z) : Z := Z.lor (Z.shiftr x n) (w32 (Z.shiftl x (32 - n))).
Definition Ch (x y z : Z) : Z := Z.lxor (Z.land x y) (Z.land (Z.lxor x 0xffffffff) z).
Definition Maj (x y z : Z) : Z := Z.lxor (Z.lxor (Z.land x y) (Z.land x z)) (Z.land y z).
Definition bsig0 (x : Z) : Z := Z.lxor (Z.lxor (rotr 2 x) (rotr 13 x)) (rotr 22 x).
Definition bsig1 (x : Z) : Z := Z.lxor (Z.lxor (rotr 6 x) (rotr 11 x)) (rotr 25 x).
Definition ssig0 (x : Z) : Z := Z.lxor (Z.lxor (rotr 7 x) (rotr 18 x)) (Z.shiftr x 3).
Definition ssig1 (x : Z) : Z := Z.lxor (Z.lxor (rotr 17 x) (rotr 19 x)) (Z.shiftr x 10).

(** The first primes, in order. *)
Definition isPrime (p : Z) : bool :=
  forallb (fun d => negb (p mod Z.of_nat d =? 0)%Z) (seq 2 (Z.to_nat p - 2)).

Definition primes (n : nat) : list Z :=
  firstn n (filter (fun p => isPrime p = true) (map Z.of_nat (seq 2 310))).

(** The integer cube root of [n], bit by bit from [2 ^ bits] down. *)
Fixpoint cubeRoot (bits : nat) (n r : Z) : Z :=
  match bits with
  | O => r
  | S bits' =>
      let c := r + 2 ^ Z.of_nat bits' in
      if (c * c * c <=? n)%Z then cubeRoot bits' n c else cubeRoot bits' n r
  end.

(** The round constants: the first 32 bits of the fractional parts of the
    cube roots of the first 64 primes; the initial hash value: the same of
    the square roots of the first 8. *)
Definition K : list Z :=
  Eval vm_compute in map (fun p => w32 (cubeRoot 36 (p * 2 ^ 96) 0)) (primes 64).

Definition H0 : list Z :=
  Eval vm_compute in map (fun p => w32 (Z.sqrt (p * 2 ^ 64))) (primes 8).

(** The message schedule, newest word first. *)
Fixpoint schedule (n : nat) (w : list Z) : list Z :=
  match n with
  | O => w
  | S n' =>
      let x := w32 (ssig1 (nth 1 w 0) + nth 6 w 0 + ssig0 (nth 14 w 0) + nth 15 w 0) in
      schedule n' (x :: w)
  end.

Definition round (st : list Z) (kw : Z * Z) : list Z :=
  match st with
  | [a; b; c; d; e; f; g; h] =>
      let t1 := h + bsig1 e + Ch e f g + fst kw + snd kw in
      let t2 := bsig0 a + Maj a b c in
      [w32 (t1 + t2); a; b; c; w32 (d + t1); e; f; g]
  | _ => st
  end.

Definition compress (h : list Z) (block : list Z) : list Z :=
  let w := rev (schedule 48 (rev block)) in
  map (fun p => w32 (fst p + snd p)) (combine h (fold_left round (combine K w) h)).

Fixpoint words (bytes : list Z) : list Z :=
  match bytes with
  | a :: b :: c :: d :: rest =>
      (Z.shiftl a 24 + Z.shiftl b 16 + Z.shiftl c 8 + d) :: words rest
  | _ => []
  end.

Fixpoint blocks (n : nat) (ws : list Z) : list (list Z) :=
  match n with
  | O => []
  | S n' => firstn 16 ws :: blocks n' (skipn 16 ws)
  end.

Definition pad (bytes : list Z) : list Z :=
  let len := Z.of_nat (length bytes) in
  let zeros := Z.to_nat ((55 - len) mod 64) in
  bytes ++ [0x80] ++ repeat 0 zeros
    ++ map (fun i => Z.land (Z.shiftr (8 * len) (8 * (7 - Z.of_nat i))) 0xff) (seq 0 8).

Definition hexdigit (x : Z) : ascii :=
  nth (Z.to_nat x) (list_ascii_of_string "0123456789abcdef") "0"%char.

Definition hex32 (x : Z) : list ascii :=
  map (fun i => hexdigit (Z.land (Z.shiftr x (4 * (7 - Z.of_nat i))) 0xf)) (seq 0 8).

Definition digest (s : string) : string :=
  let bytes := map (fun c => Z.of_N (N_of_ascii c)) (list_ascii_of_string s) in
  let ws := words (pad bytes) in
  let h := fold_left compress (blocks (length ws / 16) ws) H0 in
  string_of_list_ascii (concat (map hex32 h)).

End Sha256.

(** The digests of the empty message and of a message of two blocks. *)
Example sha256_vectors :
  Sha256.digest "" = "e3b0c44298fc1c149afbf4c8996fb92427ae41e4649b934ca495991b7852b855"
  /\ Sha256.digest "abcdbcdecdefdefgefghfghighijhijkijkljklmklmnlmnomnopnopq"
     = "248d6a61d20638b8e5c026930c3e6039a33ce45964ff2167f6ecedd419db06c1"
  /\ nth 0 Sha256.K 0 = 0x428a2f98 /\ nth 63 Sha256.K 0 = 0xc67178f2
  /\ nth 0 Sha256.H0 0 = 0x6a09e667 /\ nth 7 Sha256.H0 0 = 0x5be0cd19.
Proof. repeat split; vm_compute; reflexivity. Qed.

Module Node.

(** Decimal digits. *)
Definition digit (c : ascii) : option Z :=
  let n := Z.of_N (N_of_ascii c) in
  if bool_decide (48 <= n <= 57) then Some (n - 48) else None.

Fixpoint digits_acc (acc : Z) (cs : list ascii) : Z * list ascii :=
  match cs with
  | c :: cs' => match digit c with
                | Some d => digits_acc (10 * acc + d) cs'
                | None => (acc, cs)
                end
  | [] => (acc, [])
  end.

(** A run of exactly [n] digits as a number. *)
Fixpoint fixed (n : nat) (acc : Z) (cs : list ascii) : option (Z * list ascii) :=
  match n, cs with
  | O, _ => Some (acc, cs)
  | S n', c :: cs' => match digit c with
                      | Some d => fixed n' (10 * acc + d) cs'
                      | None => None
                      end
  | S _, [] => None
  end.

Definition expect (c : ascii) (cs : list ascii) : option (list ascii) :=
  match cs with
  | c' :: cs' => if bool_decide (c = c') then Some cs' else None
  | [] => None
  end.

Definition leap (y : Z) : bool :=
  bool_decide (y mod 4 = 0) && (negb (bool_decide (y mod 100 = 0)) || bool_decide (y mod 400 = 0)).

Definition daysInMonth (y m : Z) : Z :=
  if bool_decide (m = 2) then (if leap y then 29 else 28)
  else if bool_decide (m = 4 \/ m = 6 \/ m = 9 \/ m = 11) then 30 else 31.

(** Days from 1970-01-01 to the civil date. *)
Definition daysFromCivil (y m d : Z) : Z :=
  let y' := if bool_decide (m <= 2) then y - 1 else y in
  let era := y' / 400 in
  let yoe := y' - era * 400 in
  let mp := (m + 9) mod 12 in
  let doy := (153 * mp + 2) / 5 + d - 1 in
  let doe := yoe * 365 + yoe / 4 - yoe / 100 + doy in
  era * 146097 + doe - 719468.

Definition civilFromDays (days : Z) : Z * Z * Z :=
  let z := days + 719468 in
  let era := z / 146097 in
  let doe := z - era * 146097 in
  let yoe := (doe - doe / 1460 + doe / 36524 - doe / 146096) / 365 in
  let doy := doe - (365 * yoe + yoe / 4 - yoe / 100) in
  let mp := (5 * doy + 2) / 153 in
  let d := doy - (153 * mp + 2) / 5 + 1 in
  let m := if bool_decide (mp < 10) then mp + 3 else mp - 9 in
  let y := yoe + era * 400 in
  (if bool_decide (m <= 2) then y + 1 else y, m, d).

(** [YYYY-MM-DDTHH:mm:ss.sssZ], the format [toISOString] writes. *)
Definition parseISO (s : string) : option Z :=
  '(y, r) ← fixed 4 0 (list_ascii_of_string s);
  r ← expect "-" r; '(m, r) ← fixed 2 0 r;
  r ← expect "-" r; '(d, r) ← fixed 2 0 r;
  r ← expect "T" r; '(hh, r) ← fixed 2 0 r;
  r ← expect ":" r; '(mi, r) ← fixed 2 0 r;
  r ← expect ":" r; '(ss, r) ← fixed 2 0 r;
  r ← expect "." r; '(ms, r) ← fixed 3 0 r;
  r ← expect "Z" r;
  if bool_decide (r = []) && bool_decide (1 <= m <= 12) && bool_decide (1 <= d <= daysInMonth y m)
     && bool_decide (hh <= 23) && bool_decide (mi <= 59) && bool_decide (ss <= 59)
  then Some ((((daysFromCivil y m d * 24 + hh) * 60 + mi) * 60 + ss) * 1000 + ms)
  else None.

(** [new Date(s).getTime()] on an ISO instant, and on ["0"], which V8
    reads as the start of the year 2000 (in a process whose local time is
    UTC); other formats are not covered and read as invalid. *)
Definition Date_parse (s : string) : option Z :=
  if bool_decide (s = "0") then Some 946684800000 else parseISO s.

Definition pad (n : nat) (x : Z) : string :=
  let s := pretty x in
  string_of_list_ascii (repeat "0"%char (n - String.length s)) +:+ s.

Definition Date_toISOString (t : Z) : string :=
  let days := t / 86400000 in
  let ms := t mod 86400000 in
  let '(y, m, d) := civilFromDays days in
  pad 4 y +:+ "-" +:+ pad 2 m +:+ "-" +:+ pad 2 d +:+ "T"
    +:+ pad 2 (ms / 3600000) +:+ ":" +:+ pad 2 (ms / 60000 mod 60) +:+ ":"
    +:+ pad 2 (ms / 1000 mod 60) +:+ "." +:+ pad 3 (ms mod 1000) +:+ "Z".

Definition isSpace (c : ascii) : bool :=
  let n := Z.of_N (N_of_ascii c) in bool_decide (n = 32 \/ 9 <= n <= 13).

Fixpoint skipSpaces (cs : list ascii) : list ascii :=
  match cs with
  | c :: cs' => if isSpace c then skipSpaces cs' else cs
  | [] => []
  end.

Definition startsWithDigit (cs : list ascii) : bool :=
  match cs with c :: _ => bool_decide (is_Some (digit c)) | [] => false end.

(** A sign, then a run of digits: the number and the rest. *)
Definition signedDigits (cs : list ascii) : option (Z * Z * list ascii) :=
  let '(sign, r) :=
    match cs with
    | "-"%char :: r => (-1, r)
    | "+"%char :: r => (1, r)
    | _ => (1, cs)
    end in
  if startsWithDigit r
  then let '(n, r') := digits_acc 0 r in Some (sign, n, r')
  else None.

(** [parseInt(s)] in base 10 (a [0x] prefix is not covered). *)
Definition parseInt (s : string) : option Z :=
  '(sign, n, _) ← signedDigits (skipSpaces (list_ascii_of_string s));
  Some (sign * n).

(** [parseFloat(s)] on a decimal with an optional fraction (no exponent,
    no leading point). *)
Definition parseFloat (s : string) : option Qc :=
  '(sign, n, r) ← signedDigits (skipSpaces (list_ascii_of_string s));
  match r with
  | "."%char :: r' =>
      let '(f, r'') := digits_acc 0 r' in
      let k := Z.of_nat (length r' - length r'') in
      Some (Q2Qc (inject_Z sign * (inject_Z n + inject_Z f / inject_Z (10 ^ k))))
  | _ => Some (Q2Qc (inject_Z (sign * n)))
  end.

(** [num / den] as an integer scaled by a power of ten: the least [k],
    within the fuel, that makes [num * 10^k / den] whole. *)
Fixpoint decimals (fuel : nat) (num den : Z) (k : nat) : option (Z * nat) :=
  if bool_decide (num mod den = 0) then Some (num / den, k)
  else match fuel with
       | O => None
       | S fuel' => decimals fuel' (10 * num) den (S k)
       end.

(** [String(n)] for an integer and for a decimal of at most 20 places;
    what a double rounds is not covered. *)
Definition Number_toString (q : Qc) : string :=
  let num := Qnum q in
  let den := Z.pos (Qden q) in
  match decimals 20 (Z.abs num) den 0 with
  | Some (n, k) =>
      let ip := n / 10 ^ Z.of_nat k in
      let fp := n mod 10 ^ Z.of_nat k in
      (if bool_decide (num < 0) then "-" else "") +:+ pretty ip
        +:+ (if bool_decide (k = 0%nat) then "" else "." +:+ pad k fp)
  | None => "NaN"
  end.

(** The double quote. *)
Definition dquote : ascii := ascii_of_nat 34.

(** JSON text of a string: quotes and backslashes escaped (control
    characters are not covered). *)
Fixpoint escape (cs : list ascii) : list ascii :=
  match cs with
  | c :: cs' =>
      if bool_decide (c = dquote \/ c = "\"%char)
      then "\"%char :: c :: escape cs'
      else c :: escape cs'
  | [] => []
  end.

Definition quote (s : string) : string :=
  string_of_list_ascii (dquote :: escape (list_ascii_of_string s) ++ [dquote]).

Fixpoint JSON_stringify (v : jsval) : string :=
  match v with
  | JUndefined | JNull | JNaN => "null"
  | JBool true => "true"
  | JBool false => "false"
  | JNum q => Number_toString q
  | JStr s => quote s
  | JArr l => "[" +:+ String.concat "," (map JSON_stringify l) +:+ "]"
  | JObj fields =>
      "{" +:+ String.concat ","
                (map (fun kv => quote (fst kv) +:+ ":" +:+ JSON_stringify (snd kv)) fields)
          +:+ "}"
  end.

(** The characters of a string literal up to its closing quote. *)
Fixpoint stringBody (escaped : bool) (cs : list ascii) : option (list ascii * list ascii) :=
  match cs with
  | c :: r =>
      if escaped then
        if bool_decide (c = dquote \/ c = "\"%char)
        then '(s, r') ← stringBody false r; Some (c :: s, r')
        else None
      else if bool_decide (c = dquote) then Some ([], r)
      else if bool_decide (c = "\"%char) then stringBody true r
      else '(s, r') ← stringBody false r; Some (c :: s, r')
  | [] => None
  end.

Section Parser.
Variable value : list ascii -> option (jsval * list ascii).

Fixpoint elements (n : nat) (cs : list ascii) : option (list jsval * list ascii) :=
  match n with
  | O => None
  | S n' =>
      '(v, r) ← value cs;
      match r with
      | ","%char :: r' => '(vs, r'') ← elements n' r'; Some (v :: vs, r'')
      | "]"%char :: r' => Some ([v], r')
      | _ => None
      end
  end.

Fixpoint members (n : nat) (cs : list ascii) : option (list (string * jsval) * list ascii) :=
  match n with
  | O => None
  | S n' =>
      r ← expect dquote cs;
      '(k, r) ← stringBody false r;
      r ← expect ":" r;
      '(v, r) ← value r;
      match r with
      | ","%char :: r' =>
          '(kvs, r'') ← members n' r'; Some ((string_of_list_ascii k, v) :: kvs, r'')
      | "}"%char :: r' => Some ([(string_of_list_ascii k, v)], r')
      | _ => None
      end
  end.

End Parser.

Fixpoint value (fuel : nat) (cs : list ascii) : option (jsval * list ascii) :=
  match fuel with
  | O => None
  | S fuel' =>
      match cs with
      | "n"%char :: "u"%char :: "l"%char :: "l"%char :: r => Some (JNull, r)
      | "t"%char :: "r"%char :: "u"%char :: "e"%char :: r => Some (JBool true, r)
      | "f"%char :: "a"%char :: "l"%char :: "s"%char :: "e"%char :: r => Some (JBool false, r)
      | "["%char :: "]"%char :: r => Some (JArr [], r)
      | "["%char :: r => '(vs, r') ← elements (value fuel') (length r) r; Some (JArr vs, r')
      | "{"%char :: "}"%char :: r => Some (JObj [], r)
      | "{"%char :: r => '(kvs, r') ← members (value fuel') (length r) r; Some (JObj kvs, r')
      | c :: r =>
          if bool_decide (c = dquote)
          then '(s, r') ← stringBody false r; Some (JStr (string_of_list_ascii s), r')
          else '(sign, n, r') ← signedDigits cs;
               Some (JNum (Q2Qc (inject_Z (sign * n))), r')
      | [] => None
      end
  end.

(** [JSON.parse(s)] on compact JSON (no white space) with integer
    numbers; [None] is a SyntaxError. *)
Definition JSON_parse (s : string) : option jsval :=
  let cs := list_ascii_of_string s in
  match value (S (length cs)) cs with
  | Some (v, []) => Some v
  | _ => None
  end.

End Node.

Definition nodeRuntime : JSRuntime :=
  {| Date_parse := Node.Date_parse;
     Date_toISOString := Node.Date_toISOString;
     parseInt := Node.parseInt;
     parseFloat := Node.parseFloat;
     Number_toString := Node.Number_toString;
     JSON_stringify := Node.JSON_stringify;
     JSON_parse := Node.JSON_parse;
     sha256_hex := Sha256.digest |}.

(** ** The store the schedulers run on *)

(** Account records per platform in the order the services list them,
    group membership, the session mappings with the TTL (in seconds) of
    their last write, and the clock the account services read. *)
Record SchedulerStore : Type := {
  openaiAccounts : list Account;
  claudeAccounts : list Account;
  consoleAccounts : list Account;
  groups : gmap string (Group * list string);
  sessions : gmap string (string * Z);
  clock : Z
}.

Definition setSessions (m : gmap string (string * Z)) (s : SchedulerStore) : SchedulerStore :=
  {| openaiAccounts := openaiAccounts s;
     claudeAccounts := claudeAccounts s; consoleAccounts := consoleAccounts s;
     groups := groups s; sessions := m; clock := clock s |}.

Definition setClaudeAccounts (l : list Account) (s : SchedulerStore) : SchedulerStore :=
  {| openaiAccounts := openaiAccounts s;
     claudeAccounts := l; consoleAccounts := consoleAccounts s;
     groups := groups s; sessions := sessions s; clock := clock s |}.

Definition setConsoleAccounts (l : list Account) (s : SchedulerStore) : SchedulerStore :=
  {| openaiAccounts := openaiAccounts s;
     claudeAccounts := claudeAccounts s; consoleAccounts := l;
     groups := groups s; sessions := sessions s; clock := clock s |}.

Definition findAccount (accountId : string) (accounts : list Account) : option Account :=
  find (fun a => streq (id a) accountId) accounts.

Definition clearLimited (a : Account) : Account :=
  {| id := id a; name := name a; isActive := isActive a; status := status a;
     accountType := accountType a; schedulable := schedulable a; priority := priority a;
     lastUsedAt := lastUsedAt a; rateLimitStatus := "normal"; rateLimitedAt := "";
     supportedModels := supportedModels a; refreshToken := refreshToken a |}.

(** Modelled from the spec: [isAccountRateLimited] of claudeAccountService
    and of claudeConsoleAccountService, which are not among the sources.
    An account is limited while [now < rateLimitedAt + 1h]; after that it
    clears on the next read.  The result and the account records after the
    read. *)
Definition readRateLimit {RT : JSRuntime} (now : Z) (accountId : string)
    (accounts : list Account) : bool * list Account :=
  match findAccount accountId accounts with
  | Some a =>
      if streq (rateLimitStatus a) "limited" then
        if num_lt (Some now) (num_add (Date_parse (rateLimitedAt a)) (Some (60 * 60 * 1000)))
        then (true, accounts)
        else (false, map (fun b => if streq (id b) accountId then clearLimited b else b) accounts)
      else (false, accounts)
  | None => (false, accounts)
  end.

(** Modelled from the spec: [isModelSupported] of
    claudeConsoleAccountService.  [supportedModels] as a mapping from the
    client-facing model id to the upstream one; empty means all. *)
Definition mappingSupports (m : list (string * string)) (model : string) : bool :=
  bool_decide (m = []) || existsb (fun kv => streq (fst kv) model) m.

(** Modelled from the spec: the account services, accountGroupService and
    the store client behind the schedulers, none of which is among the
    sources.  Reads return the record kept; [setex] writes value and TTL,
    [del] removes; no operation fails.  The spec has no expiry of OpenAI
    tokens: [isTokenExpired] reports none. *)
#[global] Instance memoryServices {RT : JSRuntime} : Services SchedulerStore :=
  {| openai_getAccount := fun accountId s =>
       (Returned (findAccount accountId (openaiAccounts s)), s);
     openai_getAllAccounts := fun s => (Returned (openaiAccounts s), s);
     openai_isTokenExpired := fun _ => false;
     group_getGroup := fun groupId s => (Returned (fst <$> groups s !! groupId), s);
     group_getGroupMembers := fun groupId s =>
       (Returned (default [] (snd <$> groups s !! groupId)), s);
     redis_getClaudeAccount := fun accountId s =>
       (Returned (findAccount accountId (claudeAccounts s)), s);
     redis_getAllClaudeAccounts := fun s => (Returned (claudeAccounts s), s);
     claude_isAccountRateLimited := fun accountId s =>
       let '(limited, accounts) := readRateLimit (clock s) accountId (claudeAccounts s) in
       (Returned limited, setClaudeAccounts accounts s);
     console_getAccount := fun accountId s =>
       (Returned (findAccount accountId (consoleAccounts s)), s);
     console_getAllAccounts := fun s => (Returned (consoleAccounts s), s);
     console_isAccountRateLimited := fun accountId s =>
       let '(limited, accounts) := readRateLimit (clock s) accountId (consoleAccounts s) in
       (Returned limited, setConsoleAccounts accounts s);
     console_isModelSupported := mappingSupports;
     client_get := fun key s => (Returned (fst <$> sessions s !! key), s);
     client_setex := fun key ttl value s =>
       (Returned tt, setSessions (<[key := (value, ttl)]> (sessions s)) s);
     client_del := fun key s => (Returned tt, setSessions (delete key (sessions s)) s) |}.

(** Modelled from the spec: the expiry of session mappings, which the
    store does on its own as time passes (a mapping expires by TTL).  The
    time to live of an entry counts from the moment of the store.  After
    [ms] milliseconds an entry whose time to live has run out is gone, the
    others have that much less to live (in whole seconds, rounded up), and
    the clock that the account services read has advanced. *)
Definition elapse (ms : Z) (s : SchedulerStore) : SchedulerStore :=
  {| openaiAccounts := openaiAccounts s;
     claudeAccounts := claudeAccounts s; consoleAccounts := consoleAccounts s;
     groups := groups s;
     sessions := omap (fun entry : string * Z =>
                         if bool_decide (ms < 1000 * entry.2)
                         then Some (entry.1, entry.2 - ms / 1000) else None) (sessions s);
     clock := clock s + ms |}.

(** ** The store the key service runs on *)

(** One usage counter. *)
Record Usage : Type := {
  requests : Z;
  inputTokens : Z;
  outputTokens : Z;
  cacheCreateTokens : Z;
  cacheReadTokens : Z;
  allTokens : Z
}.

Definition noUsage : Usage :=
  {| requests := 0; inputTokens := 0; outputTokens := 0;
     cacheCreateTokens := 0; cacheReadTokens := 0; allTokens := 0 |}.

(** One more request with these token counts. *)
Definition addUsage (total input output cacheCreate cacheRead : Z) (u : Usage) : Usage :=
  {| requests := requests u + 1;
     inputTokens := inputTokens u + input;
     outputTokens := outputTokens u + output;
     cacheCreateTokens := cacheCreateTokens u + cacheCreate;
     cacheReadTokens := cacheReadTokens u + cacheRead;
     allTokens := allTokens u + total |}.

(** Key records by id, the index from hashed secret to id, the counters
    per key, per key and model, and per account (each by time bucket), the
    daily cost per key, the price per token of each known model (input,
    output, cache create, cache read), and the labels of the current day
    and month. *)
Record KeyStore : Type := {
  apikeys : gmap string KeyData;
  hash_map : gmap string string;
  keyUsage : gmap (string * string) Usage;
  keyModelUsage : gmap (string * string * string) Usage;
  accountUsage : gmap (string * string) Usage;
  dailyCost : gmap (string * string) Qc;
  prices : gmap string (Qc * Qc * Qc * Qc);
  today : string;
  thisMonth : string
}.

Definition setKeys (k : gmap string KeyData) (h : gmap string string) (s : KeyStore) : KeyStore :=
  {| apikeys := k; hash_map := h; keyUsage := keyUsage s; keyModelUsage := keyModelUsage s;
     accountUsage := accountUsage s; dailyCost := dailyCost s; prices := prices s;
     today := today s; thisMonth := thisMonth s |}.

Definition setKeyUsage (u : gmap (string * string) Usage)
    (mu : gmap (string * string * string) Usage) (s : KeyStore) : KeyStore :=
  {| apikeys := apikeys s; hash_map := hash_map s; keyUsage := u; keyModelUsage := mu;
     accountUsage := accountUsage s; dailyCost := dailyCost s; prices := prices s;
     today := today s; thisMonth := thisMonth s |}.

Definition setAccountUsage (u : gmap (string * string) Usage) (s : KeyStore) : KeyStore :=
  {| apikeys := apikeys s; hash_map := hash_map s; keyUsage := keyUsage s;
     keyModelUsage := keyModelUsage s; accountUsage := u; dailyCost := dailyCost s;
     prices := prices s; today := today s; thisMonth := thisMonth s |}.

Definition setDailyCost (c : gmap (string * string) Qc) (s : KeyStore) : KeyStore :=
  {| apikeys := apikeys s; hash_map := hash_map s; keyUsage := keyUsage s;
     keyModelUsage := keyModelUsage s; accountUsage := accountUsage s; dailyCost := c;
     prices := prices s; today := today s; thisMonth := thisMonth s |}.

(** The value of a counter; one never written is zero. *)
Definition counter `{Countable K} (m : gmap K Usage) (k : K) : Usage :=
  default noUsage (m !! k).

(** The atomic increment of one counter. *)
Definition bump `{Countable K} (total input output cacheCreate cacheRead : Z)
    (k : K) (m : gmap K Usage) : gmap K Usage :=
  <[k := addUsage total input output cacheCreate cacheRead (counter m k)]> m.

(** The time buckets of a counter: lifetime, day, month. *)
Definition daily (s : KeyStore) : string := "daily:" +:+ today s.
Definition monthly (s : KeyStore) : string := "monthly:" +:+ thisMonth s.
Definition lifetime : string := "lifetime".

Definition qz (z : Z) : Qc := Q2Qc (inject_Z z).

Definition jnum (z : Z) : jsval := JNum (qz z).

Definition usageObject (u : Usage) : jsval :=
  JObj [ ("requests", jnum (requests u)); ("inputTokens", jnum (inputTokens u));
         ("outputTokens", jnum (outputTokens u));
         ("cacheCreateTokens", jnum (cacheCreateTokens u));
         ("cacheReadTokens", jnum (cacheReadTokens u)); ("allTokens", jnum (allTokens u)) ].

(** Modelled from the spec: [models/redis] and [utils/costCalculator],
    which are not among the sources.  [setApiKey] puts the record and,
    given a hashed secret, indexes it; [findApiKeyByHash] resolves the
    index and reads the record; [incrementTokenUsage] adds to the per-key
    lifetime, daily and monthly counters and to the per-key-and-model daily
    and monthly ones; [incrementAccountUsage] to the per-account lifetime,
    daily and monthly ones; [incrementDailyCost] to the cost of the day.
    The cost is the sum of the category products, zero for a model the
    price table does not know.  No operation fails. *)
#[global] Instance memoryRedis : Redis KeyStore :=
  {| redis_setApiKey := fun keyId keyData hashedKey s =>
       (Returned tt,
        setKeys (<[keyId := keyData]> (apikeys s))
                (match hashedKey with
                 | Some h => <[h := keyId]> (hash_map s)
                 | None => hash_map s
                 end) s);
     redis_findApiKeyByHash := fun hashedKey s =>
       (Returned (keyId ← hash_map s !! hashedKey; apikeys s !! keyId), s);
     redis_getApiKey := fun keyId s => (Returned (apikeys s !! keyId), s);
     redis_getUsageStats := fun keyId s =>
       (Returned (usageObject (counter (keyUsage s) (keyId, lifetime))), s);
     redis_getDailyCost := fun keyId s =>
       (Returned (JNum (default 0%Qc (dailyCost s !! (keyId, today s)))), s);
     redis_incrementTokenUsage := fun keyId total input output cacheCreate cacheRead model s =>
       let add {K} `{Countable K} := @bump K _ _ total input output cacheCreate cacheRead in
       (Returned tt,
        setKeyUsage
          (add (keyId, lifetime) (add (keyId, daily s) (add (keyId, monthly s) (keyUsage s))))
          (add (keyId, model, daily s) (add (keyId, model, monthly s) (keyModelUsage s)))
          s);
     redis_incrementDailyCost := fun keyId amount s =>
       (Returned tt,
        setDailyCost
          (<[(keyId, today s) := (default 0%Qc (dailyCost s !! (keyId, today s)) + amount)%Qc]>
             (dailyCost s)) s);
     redis_incrementAccountUsage :=
       fun accountId total input output cacheCreate cacheRead model s =>
       let add := bump total input output cacheCreate cacheRead in
       (Returned tt,
        setAccountUsage
          (add (accountId, lifetime)
             (add (accountId, daily s) (add (accountId, monthly s) (accountUsage s)))) s);
     calculateCost := fun input output cacheCreate cacheRead model s =>
       (Returned
          (match prices s !! model with
           | Some (pInput, pOutput, pCacheCreate, pCacheRead) =>
               (qz input * pInput + qz output * pOutput
                + qz cacheCreate * pCacheCreate + qz cacheRead * pCacheRead)%Qc
           | None => 0%Qc
           end), s) |}.

(** The record of [keyId] and the index entries of its hashed secret,
    removed. *)
Definition deleteKey (keyId : string) (s : KeyStore) : KeyStore :=
  setKeys (delete keyId (apikeys s))
          (filter (fun entry => entry.2 <> keyId) (hash_map s)) s.

(** Modelled from the spec: [listApiKeys()] and [deleteApiKey(id)] of the
    store, and its concurrency counter, none of which is among the
    sources.  The listing gives the records kept; deleting removes the
    record and the index entries of its hashed secret, and reports how many
    records went; no request is in flight. *)
#[global] Instance memoryRedisAdmin : RedisAdmin KeyStore :=
  {| redis_getAllApiKeys := fun s => (Returned (map snd (map_to_list (apikeys s))), s);
     redis_deleteApiKey := fun keyId s =>
       match apikeys s !! keyId with
       | Some _ => (Returned 1, deleteKey keyId s)
       | None => (Returned 0, s)
       end;
     redis_getConcurrency := fun _ s => (Returned (JNum 0), s) |}.

(** ** The writers of the OpenAI account store *)

Definition setOpenaiAccounts (l : list Account) (s : SchedulerStore) : SchedulerStore :=
  {| openaiAccounts := l;
     claudeAccounts := claudeAccounts s; consoleAccounts := consoleAccounts s;
     groups := groups s; sessions := sessions s; clock := clock s |}.

Definition markLimited (instant : string) (a : Account) : Account :=
  {| id := id a; name := name a; isActive := isActive a; status := status a;
     accountType := accountType a; schedulable := schedulable a; priority := priority a;
     lastUsedAt := lastUsedAt a; rateLimitStatus := "limited"; rateLimitedAt := instant;
     supportedModels := supportedModels a; refreshToken := refreshToken a |}.

Definition usedAt (instant : string) (a : Account) : Account :=
  {| id := id a; name := name a; isActive := isActive a; status := status a;
     accountType := accountType a; schedulable := schedulable a; priority := priority a;
     lastUsedAt := instant; rateLimitStatus := rateLimitStatus a;
     rateLimitedAt := rateLimitedAt a;
     supportedModels := supportedModels a; refreshToken := refreshToken a |}.

(** Every record of that id, changed by [f]. *)
Definition onAccount (accountId : string) (f : Account -> Account) (accounts : list Account)
    : list Account :=
  map (fun a => if streq (id a) accountId then f a else a) accounts.

(** Modelled from the spec: the writers of openaiAccountService, which is
    not among the sources.  Marking an account limited writes
    [rateLimitStatus = 'limited'] and [rateLimitedAt = now], read from the
    store's clock; clearing writes ['normal'] and no instant; an update of
    [lastUsedAt] writes that field.  An unknown id changes nothing and no
    operation fails. *)
#[global] Instance memoryWriters {RT : JSRuntime} : AccountWriters SchedulerStore :=
  {| openai_setAccountRateLimited := fun accountId isLimited s =>
       (Returned tt,
        setOpenaiAccounts
          (onAccount accountId
             (if isLimited then markLimited (Date_toISOString (clock s)) else clearLimited)
             (openaiAccounts s)) s);
     openai_updateLastUsedAt := fun accountId instant s =>
       (Returned tt,
        setOpenaiAccounts (onAccount accountId (usedAt instant) (openaiAccounts s)) s) |}.

(** * Properties *)

(** Decide a closed equation by evaluating both sides. *)
Ltac by_vm := match goal with |- ?l = ?r => exact (@eq_refl _ r <: l = r) end.

(** ** The rate-limit window of an OpenAI account *)

Section RateLimitWindow.
Context {RT : JSRuntime} {S : Type} {SV : Services S}.

Lemma nonempty_true (s : string) : nonempty s = true <-> s <> "".
Proof. unfold nonempty. destruct (decide (s = "")); split; congruence. Qed.

Lemma streq_true (s t : string) : streq s t = true <-> s = t.
Proof. unfold streq. apply bool_decide_eq_true. Qed.

Lemma num_lt_true (a b : option Z) :
  num_lt a b = true <-> exists x y, a = Some x /\ b = Some y /\ x < y.
Proof.
  unfold num_lt. destruct a as [x|], b as [y|]; split.
  - intros H. apply bool_decide_eq_true in H. by exists x, y.
  - intros (x' & y' & [= <-] & [= <-] & H). by apply bool_decide_eq_true.
  - discriminate.
  - intros (? & ? & _ & ? & _). discriminate.
  - discriminate.
  - intros (? & ? & ? & _). discriminate.
  - discriminate.
  - intros (? & ? & ? & _). discriminate.
Qed.

(** C3.  [isAccountRateLimited] always returns, and it returns [true] if
    and only if the account service finds the account, its
    [rateLimitStatus] is ['limited'], its [rateLimitedAt] is set and reads
    as an instant, and the current time is strictly before that instant
    plus one hour.  At that instant plus one hour and after it, the
    account reads as not limited. *)
Theorem isAccountRateLimited_iff (now : Z) (accountId : string) (s : S) :
  exists limited : bool,
    fst (UnifiedOpenAIScheduler.isAccountRateLimited now accountId s) = Returned limited
    /\ (limited = true <->
        exists account limitedAt,
          fst (openai_getAccount accountId s) = Returned (Some account)
          /\ rateLimitStatus account = "limited"
          /\ rateLimitedAt account <> ""
          /\ Date_parse (rateLimitedAt account) = Some limitedAt
          /\ now < limitedAt + 60 * 60 * 1000).
Proof.
  unfold UnifiedOpenAIScheduler.isAccountRateLimited, try_catch, bind, ret.
  destruct (openai_getAccount accountId s) as [[[account|]|e] s1] eqn:E; cbn [fst].
  - destruct (streq (rateLimitStatus account) "limited") eqn:Hst; cbn [andb].
    + destruct (nonempty (rateLimitedAt account)) eqn:Hat; cbn [fst].
      * eexists; split; [reflexivity|].
        rewrite num_lt_true. apply streq_true in Hst. apply nonempty_true in Hat.
        split.
        -- intros (x & y & [= <-] & Hadd & Hlt).
           destruct (Date_parse (rateLimitedAt account)) as [limitedAt|] eqn:Hp;
             [|discriminate].
           simpl in Hadd. injection Hadd as <-.
           exists account, limitedAt. unfold UnifiedOpenAIScheduler.limitDuration in Hlt.
           repeat split; auto.
        -- intros (a & limitedAt & [= <-] & _ & _ & Hp & Hlt).
           exists now, (limitedAt + UnifiedOpenAIScheduler.limitDuration).
           rewrite Hp. unfold UnifiedOpenAIScheduler.limitDuration.
           repeat split; auto.
      * exists false; split; [reflexivity|]. split; [discriminate|].
        intros (a & ? & [= <-] & _ & Hne & _).
        unfold nonempty in Hat. destruct (decide (rateLimitedAt account = "")); congruence.
    + exists false; split; [reflexivity|]. split; [discriminate|].
      intros (a & ? & [= <-] & Hl & _).
      apply streq_true in Hl. congruence.
  - exists false; split; [reflexivity|]. split; [discriminate|].
    intros (? & ? & [=] & _).
  - exists false; split; [reflexivity|]. split; [discriminate|].
    intros (? & ? & [=] & _).
Qed.

End RateLimitWindow.

(** ** Ranking of the candidates *)

Section RankingOrder.
Context {RT : JSRuntime}.

(** The order the comparator decides: priority first, then the instant of
    last use. *)
Definition rankLe (a b : Candidate) : Prop :=
  c_priority a < c_priority b
  \/ (c_priority a = c_priority b
      /\ exists ta tb, lastUsedTime a = Some ta /\ lastUsedTime b = Some tb /\ ta <= tb).

(** Equal priority and equal instant of last use. *)
Definition sameRank (a b : Candidate) : bool :=
  bool_decide (c_priority a = c_priority b /\ lastUsedTime a = lastUsedTime b).

(** Every [lastUsedAt] reads as an instant. *)
Definition datesValid (l : list Candidate) : Prop :=
  Forall (fun a => is_Some (lastUsedTime a)) l.

Lemma precedes_rankLe (a b : Candidate) :
  is_Some (lastUsedTime a) -> is_Some (lastUsedTime b) ->
  precedes compareAccounts a b = true <-> rankLe a b.
Proof.
  intros [ta Ha] [tb Hb]. unfold precedes, compareAccounts, rankLe.
  rewrite Ha, Hb. destruct (decide (c_priority a = c_priority b)) as [Heq|Hne].
  - rewrite (bool_decide_eq_true_2 _ Heq). simpl. rewrite bool_decide_eq_true. split.
    + intros H. right. split; [done|]. exists ta, tb. repeat split; auto. lia.
    + intros [H|[_ (x & y & [= <-] & [= <-] & H)]]; lia.
  - rewrite (bool_decide_eq_false_2 _ Hne). simpl. rewrite bool_decide_eq_true. split.
    + intros H. left. lia.
    + intros [H|[H _]]; [lia|done].
Qed.

Lemma precedes_total (a b : Candidate) :
  is_Some (lastUsedTime a) -> is_Some (lastUsedTime b) ->
  precedes compareAccounts a b = false -> rankLe b a.
Proof.
  intros [ta Ha] [tb Hb]. unfold precedes, compareAccounts, rankLe.
  rewrite Ha, Hb. destruct (decide (c_priority a = c_priority b)) as [Heq|Hne].
  - rewrite (bool_decide_eq_true_2 _ Heq). simpl. rewrite bool_decide_eq_false.
    intros H. right. split; [done|]. exists tb, ta. repeat split; auto. lia.
  - rewrite (bool_decide_eq_false_2 _ Hne). simpl. rewrite bool_decide_eq_false.
    intros H. left. lia.
Qed.

Lemma rankLe_trans (a b c : Candidate) : rankLe a b -> rankLe b c -> rankLe a c.
Proof.
  unfold rankLe.
  intros [H1|[H1 (ta & tb & Ha & Hb & Hab)]] [H2|[H2 (tb' & tc & Hb' & Hc & Hbc)]].
  - left; lia.
  - left; lia.
  - left; lia.
  - right. split; [lia|]. exists ta, tc. rewrite Hb in Hb'. injection Hb' as <-.
    repeat split; auto. lia.
Qed.

Lemma sameRank_precedes (x y c : Candidate) :
  sameRank x c = true -> sameRank y c = true -> precedes compareAccounts x y = true.
Proof.
  unfold sameRank. rewrite !bool_decide_eq_true. intros [Hp Ht] [Hp' Ht'].
  unfold precedes, compareAccounts.
  rewrite bool_decide_eq_true_2 by congruence. simpl.
  rewrite Ht, Ht'. destruct (lastUsedTime c); simpl; [|done].
  apply bool_decide_eq_true. lia.
Qed.

Lemma sort_insert_Permutation {A} (cmp : A -> A -> option Z) (x : A) (l : list A) :
  Permutation (sort_insert cmp x l) (x :: l).
Proof.
  induction l as [|y l IH]; simpl; [done|].
  destruct (precedes cmp x y); [done|].
  rewrite IH. apply perm_swap.
Qed.

Lemma js_sort_Permutation {A} (cmp : A -> A -> option Z) (l : list A) :
  Permutation (js_sort cmp l) l.
Proof.
  induction l as [|x l IH]; simpl; [done|].
  rewrite sort_insert_Permutation. by constructor.
Qed.

Lemma sort_insert_sorted (x : Candidate) (l : list Candidate) :
  is_Some (lastUsedTime x) -> datesValid l ->
  StronglySorted rankLe l -> StronglySorted rankLe (sort_insert compareAccounts x l).
Proof.
  intros Hx Hl Hs. induction Hs as [|y l Hs IH Hy]; simpl.
  - repeat constructor.
  - apply Forall_cons in Hl as [Hvy Hl].
    destruct (precedes compareAccounts x y) eqn:Hp.
    + apply precedes_rankLe in Hp; [|done..].
      constructor; [by constructor|].
      constructor; [done|].
      eapply Forall_impl; [exact Hy|]. intros z Hz. by eapply rankLe_trans.
    + apply precedes_total in Hp; [|done..].
      constructor; [by apply IH|].
      rewrite sort_insert_Permutation. by constructor.
Qed.

Lemma js_sort_sorted (l : list Candidate) :
  datesValid l -> StronglySorted rankLe (_sortAccountsByPriority l).
Proof.
  unfold _sortAccountsByPriority.
  induction l as [|x l IH]; intros Hl; simpl; [constructor|].
  apply Forall_cons in Hl as [Hx Hl].
  apply sort_insert_sorted; [done| |by apply IH].
  unfold datesValid. by rewrite js_sort_Permutation.
Qed.

Lemma sort_insert_filter (c x : Candidate) (l : list Candidate) :
  filter (fun a => sameRank a c = true) (sort_insert compareAccounts x l)
  = filter (fun a => sameRank a c = true) (x :: l).
Proof.
  induction l as [|y l IH]; simpl; [done|].
  destruct (precedes compareAccounts x y) eqn:Hp; [done|].
  rewrite (filter_cons _ y (sort_insert _ _ _)), IH, !filter_cons.
  destruct (decide (sameRank y c = true)) as [Hy|Hy];
    destruct (decide (sameRank x c = true)) as [Hx|Hx]; try done.
  rewrite (sameRank_precedes x y c Hx Hy) in Hp. discriminate.
Qed.

Lemma js_sort_stable (c : Candidate) (l : list Candidate) :
  filter (fun a => sameRank a c = true) (_sortAccountsByPriority l)
  = filter (fun a => sameRank a c = true) l.
Proof.
  unfold _sortAccountsByPriority.
  induction l as [|x l IH]; simpl; [done|].
  by rewrite sort_insert_filter, !filter_cons, IH.
Qed.

Lemma js_sort_of_sorted (l : list Candidate) :
  datesValid l -> StronglySorted rankLe l -> _sortAccountsByPriority l = l.
Proof.
  unfold _sortAccountsByPriority.
  intros Hv Hs. induction Hs as [|x l Hs IH Hx]; simpl; [done|].
  apply Forall_cons in Hv as [Hvx Hv]. rewrite IH by done.
  destruct l as [|y l]; simpl; [done|].
  apply Forall_cons in Hx as [Hxy _]. apply Forall_cons in Hv as [Hvy _].
  apply precedes_rankLe in Hxy; [|done..]. by rewrite Hxy.
Qed.

(** C2, as amended.  When every [lastUsedAt] reads as an instant, the
    ranking step returns its candidates (a permutation of them) in
    ascending order of priority, candidates of equal priority in ascending
    order of [lastUsedAt], and candidates equal in both in the order they
    came in: the id is not compared.  Sorting the result again gives the
    same result. *)
Theorem sortAccountsByPriority_stable_sorted (accounts : list Candidate) :
  datesValid accounts ->
  Permutation (_sortAccountsByPriority accounts) accounts
  /\ StronglySorted rankLe (_sortAccountsByPriority accounts)
  /\ (forall c, filter (fun a => sameRank a c = true) (_sortAccountsByPriority accounts)
                = filter (fun a => sameRank a c = true) accounts)
  /\ _sortAccountsByPriority (_sortAccountsByPriority accounts)
     = _sortAccountsByPriority accounts.
Proof.
  intros Hv. split; [apply js_sort_Permutation|].
  split; [by apply js_sort_sorted|].
  split; [intros c; apply js_sort_stable|].
  apply js_sort_of_sorted; [|by apply js_sort_sorted].
  unfold datesValid, _sortAccountsByPriority. by rewrite js_sort_Permutation.
Qed.

End RankingOrder.

(** ** Examples of the ranking *)

Section RankingExamples.
#[local] Existing Instance nodeRuntime.

Definition candidate (accountId : string) (priority : Z) (lastUsedAt : string) : Candidate :=
  {| c_accountId := accountId; c_accountType := "openai"; c_name := accountId;
     c_priority := priority; c_lastUsedAt := lastUsedAt |}.

(** Scenario 4 of the spec: priority goes before recency. *)
Example priority_over_lru :
  map c_accountId
    (_sortAccountsByPriority
       [candidate "A6" 50 "0"; candidate "A5" 10 "2025-01-01T00:00:00.000Z"])
  = ["A5"; "A6"].
Proof. reflexivity. Qed.

(** Scenario 2 of the spec: at equal priority the least recently used. *)
Example lru_at_equal_priority :
  map c_accountId
    (_sortAccountsByPriority
       [candidate "A4" 50 "2025-01-01T00:00:05.000Z";
        candidate "A3" 50 "2025-01-01T00:00:00.000Z"])
  = ["A3"; "A4"].
Proof. reflexivity. Qed.

(** C2 as stated fails: two candidates of equal priority and equal
    [lastUsedAt] come out in the order they went in, here the one with the
    greater id first. *)
Lemma sortAccountsByPriority_ignores_id :
  sameRank (candidate "b" 50 "2025-01-01T00:00:00.000Z")
           (candidate "a" 50 "2025-01-01T00:00:00.000Z") = true
  /\ String.ltb "a" "b" = true
  /\ map c_accountId
       (_sortAccountsByPriority
          [candidate "b" 50 "2025-01-01T00:00:00.000Z";
           candidate "a" 50 "2025-01-01T00:00:00.000Z"])
     = ["b"; "a"].
Proof. repeat split; reflexivity. Qed.

Definition tiedCandidates : list Candidate :=
  [ candidate "b" 50 "2025-01-01T00:00:00.000Z";
    candidate "c" 10 "2025-01-02T00:00:00.000Z";
    candidate "a" 50 "2025-01-01T00:00:00.000Z" ].

Lemma sortAccountsByPriority_stable_sorted_witness :
  datesValid tiedCandidates
  /\ (Permutation (_sortAccountsByPriority tiedCandidates) tiedCandidates
      /\ StronglySorted rankLe (_sortAccountsByPriority tiedCandidates)
      /\ (forall c,
            filter (fun a => sameRank a c = true) (_sortAccountsByPriority tiedCandidates)
            = filter (fun a => sameRank a c = true) tiedCandidates)
      /\ _sortAccountsByPriority (_sortAccountsByPriority tiedCandidates)
         = _sortAccountsByPriority tiedCandidates).
Proof.
  assert (Hv : datesValid tiedCandidates).
  { repeat constructor; eexists; vm_compute; reflexivity. }
  split; [exact Hv|].
  exact (sortAccountsByPriority_stable_sorted tiedCandidates Hv).
Defined.

Example tied_candidates_sorted :
  map c_accountId (_sortAccountsByPriority tiedCandidates) = ["c"; "b"; "a"].
Proof. reflexivity. Qed.

End RankingExamples.

(** ** Dedicated bindings and sticky sessions of the Claude scheduler *)

Section ClaudeSelection.
Context {RT : JSRuntime}.

(** The key is bound to a Claude OAuth account that the binding step of
    [selectAccountForApiKey] takes: the account exists, is active and its
    status is not ['error']. *)
Definition officialBound (key : ApiKeyData) (s : SchedulerStore) : Prop :=
  claudeAccountId key <> ""
  /\ exists a, findAccount (claudeAccountId key) (claudeAccounts s) = Some a
               /\ isActive a = JStr "true" /\ status a <> "error".

(** The same for a Claude Console binding: active and of status
    ['active']. *)
Definition consoleBound (key : ApiKeyData) (s : SchedulerStore) : Prop :=
  claudeConsoleAccountId key <> ""
  /\ exists a, findAccount (claudeConsoleAccountId key) (consoleAccounts s) = Some a
               /\ isActive a = JBool true /\ status a = "active".

Definition officialSelection (key : ApiKeyData) : Selection :=
  {| sel_accountId := claudeAccountId key; sel_accountType := "claude-official" |}.

Definition consoleSelection (key : ApiKeyData) : Selection :=
  {| sel_accountId := claudeConsoleAccountId key; sel_accountType := "claude-console" |}.

Lemma js_is_str_true (v : jsval) (t : string) : js_is_str v t = true <-> v = JStr t.
Proof.
  destruct v; simpl; try (split; [discriminate|congruence]).
  rewrite streq_true. split; congruence.
Qed.

Lemma js_is_bool_true (v : jsval) (b : bool) : js_is_bool v b = true <-> v = JBool b.
Proof.
  destruct v as [| |b'| | | | |]; simpl; try (split; [discriminate|congruence]).
  destruct b', b; simpl; split; congruence.
Qed.

Lemma streq_false (s t : string) : streq s t = false <-> s <> t.
Proof. unfold streq. apply bool_decide_eq_false. Qed.

(** The first binding check, as the store decides it. *)
Definition officialCheck (key : ApiKeyData) (s : SchedulerStore) : bool :=
  nonempty (claudeAccountId key)
  && match findAccount (claudeAccountId key) (claudeAccounts s) with
     | Some a => js_is_str (isActive a) "true" && negb (streq (status a) "error")
     | None => false
     end.

Definition consoleCheck (key : ApiKeyData) (s : SchedulerStore) : bool :=
  nonempty (claudeConsoleAccountId key)
  && match findAccount (claudeConsoleAccountId key) (consoleAccounts s) with
     | Some a => js_is_bool (isActive a) true && streq (status a) "active"
     | None => false
     end.

Lemma officialCheck_spec (key : ApiKeyData) (s : SchedulerStore) :
  officialCheck key s = true <-> officialBound key s.
Proof.
  unfold officialCheck, officialBound. rewrite andb_true_iff, nonempty_true.
  split.
  - intros [Hne H]. split; [done|].
    destruct (findAccount _ _) as [a|]; [|discriminate].
    apply andb_true_iff in H as [H1 H2]. exists a.
    apply js_is_str_true in H1. apply negb_true_iff, streq_false in H2. done.
  - intros [Hne (a & -> & Ha & Hs)]. split; [done|].
    apply andb_true_iff. split; [by apply js_is_str_true|].
    by apply negb_true_iff, streq_false.
Qed.

Lemma consoleCheck_spec (key : ApiKeyData) (s : SchedulerStore) :
  consoleCheck key s = true <-> consoleBound key s.
Proof.
  unfold consoleCheck, consoleBound. rewrite andb_true_iff, nonempty_true.
  split.
  - intros [Hne H]. split; [done|].
    destruct (findAccount _ _) as [a|]; [|discriminate].
    apply andb_true_iff in H as [H1 H2]. exists a.
    apply js_is_bool_true in H1. apply streq_true in H2. done.
  - intros [Hne (a & -> & Ha & Hs)]. split; [done|].
    apply andb_true_iff. split; [by apply js_is_bool_true|by apply streq_true].
Qed.

(** [selectAccountForApiKey] by the outcome of its two binding checks. *)
Lemma select_official (key : ApiKeyData) (sessionHash model : string) (s : SchedulerStore) :
  officialCheck key s = true ->
  UnifiedClaudeScheduler.selectAccountForApiKey key sessionHash model s
  = (Returned (officialSelection key), s).
Proof.
  unfold officialCheck. intros [Hne H]%andb_true_iff.
  unfold UnifiedClaudeScheduler.selectAccountForApiKey, try_catch, bind, ret.
  rewrite Hne. cbn.
  destruct (findAccount _ _) as [a|]; [|discriminate].
  by rewrite H.
Qed.

Lemma select_console (key : ApiKeyData) (sessionHash model : string) (s : SchedulerStore) :
  officialCheck key s = false -> consoleCheck key s = true ->
  UnifiedClaudeScheduler.selectAccountForApiKey key sessionHash model s
  = (Returned (consoleSelection key), s).
Proof.
  unfold officialCheck, consoleCheck. intros H1 [Hne H2]%andb_true_iff.
  unfold UnifiedClaudeScheduler.selectAccountForApiKey, try_catch, bind, ret.
  rewrite Hne.
  destruct (nonempty (claudeAccountId key)); cbn in *.
  - destruct (findAccount (claudeAccountId key) _) as [a|]; [rewrite H1|];
      (destruct (findAccount (claudeConsoleAccountId key) _) as [b|]; [|discriminate]);
      by rewrite H2.
  - destruct (findAccount (claudeConsoleAccountId key) _) as [b|]; [|discriminate].
    by rewrite H2.
Qed.

End ClaudeSelection.

Section ClaudeFrames.
Context {RT : JSRuntime}.

(** Checking availability reads accounts and may clear an elapsed rate
    limit; it leaves the session mappings alone. *)
Lemma isAccountAvailable_sessions (accountId accountType : string) (s : SchedulerStore) :
  sessions (snd (UnifiedClaudeScheduler._isAccountAvailable accountId accountType s))
  = sessions s.
Proof.
  unfold UnifiedClaudeScheduler._isAccountAvailable, try_catch, bind, ret.
  destruct (streq accountType "claude-official").
  - cbn. destruct (findAccount accountId (claudeAccounts s)) as [a|]; [|done].
    destruct (negb _ || _); [done|]. destruct (js_is_str _ _); [done|].
    by destruct (readRateLimit (clock s) accountId (claudeAccounts s)).
  - destruct (streq accountType "claude-console"); [|done].
    cbn. destruct (findAccount accountId (consoleAccounts s)) as [a|]; [|done].
    destruct (negb _ || _); [done|]. destruct (js_is_bool _ _); [done|].
    by destruct (readRateLimit (clock s) accountId (consoleAccounts s)).
Qed.

Lemma getSessionMapping_state (prefix sessionHash : string) (s : SchedulerStore) :
  snd (_getSessionMapping prefix sessionHash s) = s.
Proof.
  unfold _getSessionMapping, bind, ret. cbn.
  destruct (sessions s !! _) as [[v ttl]|]; [|done]. cbn.
  by destruct (nonempty v).
Qed.

(** C5.  When a dedicated binding yields the account, that is when the
    key is bound to a Claude OAuth account that is active and not in
    error, or else to a Console account that is active, the bound account
    is returned (the OAuth binding first) and the call writes nothing:
    the store is as before, and so is the mapping of the session hash that
    was passed in. *)
Theorem dedicated_binding_leaves_session_mapping
    (key : ApiKeyData) (sessionHash model : string) (s : SchedulerStore) :
  officialBound key s \/ consoleBound key s ->
  let r := UnifiedClaudeScheduler.selectAccountForApiKey key sessionHash model s in
  ((officialBound key s /\ fst r = Returned (officialSelection key))
   \/ (~ officialBound key s /\ fst r = Returned (consoleSelection key)))
  /\ snd r = s
  /\ sessions (snd r) !! (UnifiedClaudeScheduler.SESSION_MAPPING_PREFIX +:+ sessionHash)
     = sessions s !! (UnifiedClaudeScheduler.SESSION_MAPPING_PREFIX +:+ sessionHash).
Proof.
  intros H r. subst r.
  destruct (officialCheck key s) eqn:Ho.
  - rewrite (select_official key sessionHash model s Ho). simpl.
    apply officialCheck_spec in Ho. auto.
  - assert (Hn : ~ officialBound key s).
    { rewrite <- officialCheck_spec. congruence. }
    destruct H as [H|H]; [done|].
    apply consoleCheck_spec in H.
    rewrite (select_console key sessionHash model s Ho H). simpl. auto.
Qed.

(** C4.  When no dedicated binding yields an account, the session hash
    has a mapping and the mapped account is available, the mapped account
    is returned and the session mappings, values and TTLs, are as before:
    the mapping is not written again. *)
Theorem sticky_reuse_keeps_mapping
    (key : ApiKeyData) (sessionHash model : string) (s : SchedulerStore)
    (mapped : Selection) :
  ~ officialBound key s -> ~ consoleBound key s ->
  sessionHash <> "" ->
  fst (_getSessionMapping UnifiedClaudeScheduler.SESSION_MAPPING_PREFIX sessionHash s)
    = Returned (Some mapped) ->
  fst (UnifiedClaudeScheduler._isAccountAvailable
         (sel_accountId mapped) (sel_accountType mapped) s) = Returned true ->
  let r := UnifiedClaudeScheduler.selectAccountForApiKey key sessionHash model s in
  fst r = Returned mapped /\ sessions (snd r) = sessions s.
Proof.
  intros Ho Hc Hh Hmap Havail r. subst r.
  rewrite <- officialCheck_spec in Ho. rewrite <- consoleCheck_spec in Hc.
  apply not_true_is_false in Ho, Hc. apply nonempty_true in Hh.
  pose proof (getSessionMapping_state
                UnifiedClaudeScheduler.SESSION_MAPPING_PREFIX sessionHash s) as Hst.
  pose proof (isAccountAvailable_sessions
                (sel_accountId mapped) (sel_accountType mapped) s) as Hfr.
  destruct (_getSessionMapping _ sessionHash s) as [om s1] eqn:Em.
  destruct (UnifiedClaudeScheduler._isAccountAvailable _ _ s) as [ob s2] eqn:Ea.
  simpl in Hmap, Havail, Hst, Hfr. subst om ob s1.
  unfold officialCheck in Ho. unfold consoleCheck in Hc.
  unfold UnifiedClaudeScheduler.selectAccountForApiKey, try_catch, bind, ret.
  rewrite Hh.
  destruct (nonempty (claudeAccountId key)); cbn [andb] in Ho;
    destruct (nonempty (claudeConsoleAccountId key)); cbn [andb] in Hc;
    cbn [redis_getClaudeAccount console_getAccount memoryServices];
    repeat match goal with
    | H : match findAccount ?i ?l with _ => _ end = false |- _ =>
        destruct (findAccount i l); [rewrite H|]
    end;
    rewrite Em, Ea; simpl; auto.
Qed.

End ClaudeFrames.

(** ** Examples of the selection *)

Section SelectionExamples.
#[local] Existing Instance nodeRuntime.

Definition sharedAccount (accountId : string) (active : jsval) (priority lastUsedAt : string)
    : Account :=
  {| id := accountId; name := accountId; isActive := active; status := "active";
     accountType := "shared"; schedulable := JUndefined; priority := priority;
     lastUsedAt := lastUsedAt; rateLimitStatus := ""; rateLimitedAt := "";
     supportedModels := SMAbsent; refreshToken := "" |}.

Definition dedicated (a : Account) : Account :=
  {| id := id a; name := name a; isActive := isActive a; status := status a;
     accountType := "dedicated"; schedulable := schedulable a; priority := priority a;
     lastUsedAt := lastUsedAt a; rateLimitStatus := rateLimitStatus a;
     rateLimitedAt := rateLimitedAt a; supportedModels := supportedModels a;
     refreshToken := refreshToken a |}.

Definition limitedSince (instant : string) (a : Account) : Account :=
  {| id := id a; name := name a; isActive := isActive a; status := status a;
     accountType := accountType a; schedulable := schedulable a; priority := priority a;
     lastUsedAt := lastUsedAt a; rateLimitStatus := "limited"; rateLimitedAt := instant;
     supportedModels := supportedModels a; refreshToken := refreshToken a |}.

Definition supporting (models : list string) (a : Account) : Account :=
  {| id := id a; name := name a; isActive := isActive a; status := status a;
     accountType := accountType a; schedulable := schedulable a; priority := priority a;
     lastUsedAt := lastUsedAt a; rateLimitStatus := rateLimitStatus a;
     rateLimitedAt := rateLimitedAt a; supportedModels := SMArray models;
     refreshToken := refreshToken a |}.

Definition emptyStore (now : Z) : SchedulerStore :=
  {| openaiAccounts := []; claudeAccounts := []; consoleAccounts := [];
     groups := ∅; sessions := ∅; clock := now |}.

(** An instant of the examples: 2025-01-01T00:00:00.000Z. *)
Definition T0 : Z := 1735689600000.

Definition unboundKey : ApiKeyData :=
  {| keyName := "K"; claudeAccountId := ""; claudeConsoleAccountId := "";
     openaiAccountId := "" |}.

(** Scenario 1 of the spec: the key is bound to A1, the session H is
    mapped to A2. *)
Definition boundKey : ApiKeyData :=
  {| keyName := "K"; claudeAccountId := "A1"; claudeConsoleAccountId := "";
     openaiAccountId := "" |}.

Definition boundStore : SchedulerStore :=
  {| openaiAccounts := [];
     claudeAccounts :=
       [ dedicated (sharedAccount "A1" (JStr "true") "50" "");
         sharedAccount "A2" (JStr "true") "50" "" ];
     consoleAccounts := [];
     groups := ∅;
     sessions :=
       {[ UnifiedClaudeScheduler.SESSION_MAPPING_PREFIX +:+ "H"
          := (stringifySelection "A2" "claude-official", 3600) ]};
     clock := T0 |}.

Example dedicated_binding_wins_over_sticky :
  UnifiedClaudeScheduler.selectAccountForApiKey
    boundKey "H" "claude-3-5-sonnet-20241022" boundStore
  = (Returned {| sel_accountId := "A1"; sel_accountType := "claude-official" |}, boundStore).
Proof. reflexivity. Qed.

Lemma dedicated_binding_leaves_session_mapping_witness :
  (officialBound boundKey boundStore \/ consoleBound boundKey boundStore)
  /\ let r := UnifiedClaudeScheduler.selectAccountForApiKey
                boundKey "H" "claude-3-5-sonnet-20241022" boundStore in
     ((officialBound boundKey boundStore /\ fst r = Returned (officialSelection boundKey))
      \/ (~ officialBound boundKey boundStore
          /\ fst r = Returned (consoleSelection boundKey)))
     /\ snd r = boundStore
     /\ sessions (snd r) !! (UnifiedClaudeScheduler.SESSION_MAPPING_PREFIX +:+ "H")
        = sessions boundStore !! (UnifiedClaudeScheduler.SESSION_MAPPING_PREFIX +:+ "H").
Proof.
  assert (H : officialBound boundKey boundStore \/ consoleBound boundKey boundStore).
  { left. split; [discriminate|]. eexists. split; [reflexivity|]. split; [reflexivity|].
    discriminate. }
  split; [exact H|].
  exact (dedicated_binding_leaves_session_mapping
           boundKey "H" "claude-3-5-sonnet-20241022" boundStore H).
Defined.

(** Scenario 2 of the spec, second call: the session h1 is mapped to A3,
    which is available. *)
Definition stickyStore : SchedulerStore :=
  {| openaiAccounts := [];
     claudeAccounts :=
       [ sharedAccount "A3" (JStr "true") "50" "2024-12-31T23:59:50.000Z";
         sharedAccount "A4" (JStr "true") "50" "2024-12-31T23:59:55.000Z" ];
     consoleAccounts := [];
     groups := ∅;
     sessions :=
       {[ UnifiedClaudeScheduler.SESSION_MAPPING_PREFIX +:+ "h1"
          := (stringifySelection "A3" "claude-official", 3600) ]};
     clock := T0 + 100000 |}.

Definition mappedA3 : Selection :=
  {| sel_accountId := "A3"; sel_accountType := "claude-official" |}.

Lemma not_officialBound_unbound (s : SchedulerStore) : ~ officialBound unboundKey s.
Proof. intros [H _]. by apply H. Qed.

Lemma not_consoleBound_unbound (s : SchedulerStore) : ~ consoleBound unboundKey s.
Proof. intros [H _]. by apply H. Qed.

Lemma sticky_reuse_keeps_mapping_witness :
  (~ officialBound unboundKey stickyStore)
  /\ (~ consoleBound unboundKey stickyStore)
  /\ "h1" <> ""
  /\ fst (_getSessionMapping
            UnifiedClaudeScheduler.SESSION_MAPPING_PREFIX "h1" stickyStore)
     = Returned (Some mappedA3)
  /\ fst (UnifiedClaudeScheduler._isAccountAvailable
            (sel_accountId mappedA3) (sel_accountType mappedA3) stickyStore)
     = Returned true
  /\ let r := UnifiedClaudeScheduler.selectAccountForApiKey
                unboundKey "h1" "claude-3-5-sonnet-20241022" stickyStore in
     fst r = Returned mappedA3 /\ sessions (snd r) = sessions stickyStore.
Proof.
  assert (Hh : "h1" <> "") by discriminate.
  assert (Hm : fst (_getSessionMapping
                      UnifiedClaudeScheduler.SESSION_MAPPING_PREFIX "h1" stickyStore)
               = Returned (Some mappedA3)) by reflexivity.
  assert (Ha : fst (UnifiedClaudeScheduler._isAccountAvailable
                      (sel_accountId mappedA3) (sel_accountType mappedA3) stickyStore)
               = Returned true) by reflexivity.
  repeat (split; [first [exact (not_officialBound_unbound stickyStore)
                        | exact (not_consoleBound_unbound stickyStore)
                        | exact Hh | exact Hm | exact Ha]|]).
  exact (sticky_reuse_keeps_mapping unboundKey "h1"
           "claude-3-5-sonnet-20241022" stickyStore mappedA3
           (not_officialBound_unbound stickyStore) (not_consoleBound_unbound stickyStore)
           Hh Hm Ha).
Defined.

(** A key bound to the OpenAI account a1, and one bound to the Claude
    OAuth account A1; each bound account was marked rate-limited one
    minute before the call and a1 serves gpt-4o only. *)
Definition openaiBoundKey : ApiKeyData :=
  {| keyName := "K"; claudeAccountId := ""; claudeConsoleAccountId := "";
     openaiAccountId := "a1" |}.

Definition limitedA1 : Account :=
  limitedSince "2025-01-01T00:00:00.000Z"
    (supporting ["gpt-4o"] (dedicated (sharedAccount "a1" (JStr "true") "50" ""))).

Definition openaiLimitedStore : SchedulerStore :=
  {| openaiAccounts := [ limitedA1; sharedAccount "a2" (JStr "true") "50" "" ];
     claudeAccounts := []; consoleAccounts := []; groups := ∅; sessions := ∅;
     clock := T0 + 60000 |}.

Definition claudeLimitedStore : SchedulerStore :=
  {| openaiAccounts := [];
     claudeAccounts :=
       [ limitedSince "2025-01-01T00:00:00.000Z"
           (dedicated (sharedAccount "A1" (JStr "true") "50" ""));
         sharedAccount "A2" (JStr "true") "50" "" ];
     consoleAccounts := []; groups := ∅; sessions := ∅;
     clock := T0 + 60000 |}.

Definition returnedIds (r : outcome (list Candidate)) : option (list string) :=
  match r with
  | Returned l => Some (map c_accountId l)
  | Thrown _ => None
  end.

(** C1 fails on the code.  The bound account is rate-limited and does not
    serve the requested model, and [selectAccountForApiKey] returns it all
    the same: its binding step looks at [isActive] and [status] only.
    [_getAllAvailableAccounts] of the same file does check the bound
    account's rate limit (and, for OpenAI, its models) and here leaves it
    out. *)
Theorem bound_account_returned_while_rate_limited :
  fst (UnifiedOpenAIScheduler.isAccountRateLimited (T0 + 60000) "a1" openaiLimitedStore)
    = Returned true
  /\ UnifiedOpenAIScheduler.modelNotSupported "gpt-4o-mini" limitedA1 = true
  /\ fst (UnifiedOpenAIScheduler.selectAccountForApiKey (T0 + 60000) openaiBoundKey
            "" "gpt-4o-mini" openaiLimitedStore)
     = Returned {| sel_accountId := "a1"; sel_accountType := "openai" |}
  /\ returnedIds (fst (UnifiedOpenAIScheduler._getAllAvailableAccounts (T0 + 60000)
                         openaiBoundKey "gpt-4o-mini" openaiLimitedStore))
     = Some ["a2"]
  /\ fst (claude_isAccountRateLimited "A1" claudeLimitedStore) = Returned true
  /\ fst (UnifiedClaudeScheduler.selectAccountForApiKey boundKey
            "" "claude-3-5-sonnet-20241022" claudeLimitedStore)
     = Returned {| sel_accountId := "A1"; sel_accountType := "claude-official" |}
  /\ returnedIds (fst (UnifiedClaudeScheduler._getAllAvailableAccounts boundKey
                         "claude-3-5-sonnet-20241022" claudeLimitedStore))
     = Some ["A2"].
Proof. repeat split; reflexivity. Qed.

(** The window of C3 at its edge: limited one millisecond before the hour
    is over, not limited when it is. *)
Example rate_limit_window_edge :
  fst (UnifiedOpenAIScheduler.isAccountRateLimited (T0 + 3600000 - 1) "a1" openaiLimitedStore)
    = Returned true
  /\ fst (UnifiedOpenAIScheduler.isAccountRateLimited (T0 + 3600000) "a1" openaiLimitedStore)
     = Returned false.
Proof. split; reflexivity. Qed.

(** Scenario 3 of the spec: the mapped account is limited, the mapping is
    deleted and the other account of the pool is taken and mapped. *)
Example rate_limit_fallover :
  let s := setClaudeAccounts
             [ limitedSince "2025-01-01T00:00:00.000Z"
                 (sharedAccount "A3" (JStr "true") "50" "2024-12-31T23:59:50.000Z");
               sharedAccount "A4" (JStr "true") "50" "2024-12-31T23:59:55.000Z" ]
             (setSessions (sessions stickyStore) (emptyStore (T0 + 60000))) in
  let r := UnifiedClaudeScheduler.selectAccountForApiKey unboundKey "h1" "m" s in
  fst r = Returned {| sel_accountId := "A4"; sel_accountType := "claude-official" |}
  /\ sessions (snd r) !! (UnifiedClaudeScheduler.SESSION_MAPPING_PREFIX +:+ "h1")
     = Some (stringifySelection "A4" "claude-official", 3600).
Proof. split; reflexivity. Qed.

(** Scenario 5 of the spec: the account that does not serve the model is
    filtered out. *)
Example model_filter :
  let s := {| openaiAccounts :=
                [ supporting ["gpt-4o"] (sharedAccount "A7" (JStr "true") "50" "");
                  supporting [] (sharedAccount "A8" (JStr "true") "50" "") ];
              claudeAccounts := []; consoleAccounts := []; groups := ∅; sessions := ∅;
              clock := T0 |} in
  fst (UnifiedOpenAIScheduler.selectAccountForApiKey T0 unboundKey "" "gpt-4o-mini" s)
  = Returned {| sel_accountId := "A8"; sel_accountType := "openai" |}.
Proof. reflexivity. Qed.

End SelectionExamples.

(** ** Validation and usage recording against any store *)

Section KeyServiceAnyStore.
Context {RT : JSRuntime} {S : Type} {RD : Redis S} (config : Config).

(** C7.  Whatever the store and the cost calculator do, fail included,
    [recordUsage] returns: no error of theirs reaches the caller. *)
Theorem recordUsage_never_throws (now : Z) (keyId : string)
    (inputTokens outputTokens cacheCreateTokens cacheReadTokens : Z)
    (model accountId : string) (s : S) :
  exists s',
    ApiKeyService.recordUsage now keyId inputTokens outputTokens cacheCreateTokens
      cacheReadTokens model accountId s = (Returned tt, s').
Proof.
  unfold ApiKeyService.recordUsage, try_catch.
  match goal with |- context [match ?body s with _ => _ end] => destruct (body s) as [[[]|e] s'] end.
  - by exists s'.
  - by exists s'.
Qed.

Lemma num_gt_true (now t : Z) : num_gt (Some now) (Some t) = true <-> t < now.
Proof. unfold num_gt, num_lt. apply bool_decide_eq_true. Qed.

(** C8, as amended.  For a secret of the right format whose hash the store
    resolves to a key record: a record whose [isActive] is not ['true'] is
    rejected as disabled, whatever its [expiresAt]; an active one whose
    non-empty [expiresAt] reads as an instant is rejected as expired
    exactly when the current time is strictly after that instant.  At
    [expiresAt = now] the key is not rejected as expired. *)
Theorem validateApiKey_disabled_then_expired (now : Z) (apiKey : string)
    (keyData : KeyData) (s s1 : S) :
  apiKey <> "" ->
  startsWith (ApiKeyService.prefix config) apiKey = true ->
  redis_findApiKeyByHash (ApiKeyService._hashApiKey config apiKey) s
    = (Returned (Some keyData), s1) ->
  let r := fst (ApiKeyService.validateApiKey config now apiKey s) in
  (fieldOf keyData "isActive" <> "true" -> r = Returned (Invalid "API key is disabled"))
  /\ (fieldOf keyData "isActive" = "true" ->
      forall expiry,
        fieldOf keyData "expiresAt" <> "" ->
        Date_parse (fieldOf keyData "expiresAt") = Some expiry ->
        (r = Returned (Invalid "API key has expired") <-> expiry < now)).
Proof.
  intros Hne Hpre Hfind r. subst r.
  unfold ApiKeyService.validateApiKey, try_catch, bind, ret.
  apply nonempty_true in Hne. rewrite Hne, Hpre. cbn [negb orb].
  rewrite Hfind. split.
  - intros Hact. apply streq_false in Hact. by rewrite Hact.
  - intros Hact expiry Hexp Hparse. apply streq_true in Hact. apply nonempty_true in Hexp.
    rewrite Hact, Hexp, Hparse. cbn [negb andb].
    destruct (num_gt (Some now) (Some expiry)) eqn:Hgt.
    + apply num_gt_true in Hgt. cbn [fst]. done.
    + assert (~ expiry < now) as Hle.
      { intros H. apply num_gt_true in H. congruence. }
      destruct (redis_getUsageStats _ s1) as [[usage|e] s2]; cbn [fst].
      * destruct (redis_getDailyCost _ s2) as [[dailyCost|e] s3]; cbn [fst];
          split; (discriminate || done).
      * split; (discriminate || done).
Qed.

End KeyServiceAnyStore.

(** ** Usage counters *)

Section UsageCounters.
Context {RT : JSRuntime}.

Lemma counter_bump `{Countable K} (total input output cacheCreate cacheRead : Z)
    (k k' : K) (m : gmap K Usage) :
  counter (bump total input output cacheCreate cacheRead k m) k'
  = if decide (k = k')
    then addUsage total input output cacheCreate cacheRead (counter m k')
    else counter m k'.
Proof.
  unfold counter at 1, bump. rewrite lookup_insert.
  destruct (decide (k = k')) as [->|]; done.
Qed.

(** The three buckets of a counter are different keys. *)
Lemma buckets_distinct (s : KeyStore) :
  lifetime <> daily s /\ lifetime <> monthly s /\ daily s <> monthly s.
Proof. unfold lifetime, daily, monthly. simpl. repeat split; discriminate. Qed.

(** The key record is in the store and has a field. *)
Definition keyRecorded (keyId : string) (s : KeyStore) : Prop :=
  exists keyData, apikeys s !! keyId = Some keyData /\ keyData <> ∅.

Lemma size_pos_nonempty (keyData : KeyData) :
  bool_decide (0 < size keyData)%nat = true <-> keyData <> ∅.
Proof.
  rewrite bool_decide_eq_true. split.
  - intros H ->. rewrite map_size_empty in H. lia.
  - intros H. destruct (decide (size keyData = 0%nat)) as [E|E]; [|lia].
    by apply map_size_empty_inv in E.
Qed.

(** The three increments of one id. *)
Definition bumpBuckets (total input output cacheCreate cacheRead : Z) (i : string)
    (s : KeyStore) (m : gmap (string * string) Usage) : gmap (string * string) Usage :=
  bump total input output cacheCreate cacheRead (i, lifetime)
    (bump total input output cacheCreate cacheRead (i, daily s)
       (bump total input output cacheCreate cacheRead (i, monthly s) m)).

Lemma bump_three (total input output cacheCreate cacheRead : Z) (i : string)
    (s : KeyStore) (m : gmap (string * string) Usage) (b : string) :
  b ∈ [lifetime; daily s; monthly s] ->
  counter (bumpBuckets total input output cacheCreate cacheRead i s m) (i, b)
  = addUsage total input output cacheCreate cacheRead (counter m (i, b)).
Proof.
  destruct (buckets_distinct s) as (H1 & H2 & H3).
  intros Hb. unfold bumpBuckets. rewrite !counter_bump.
  apply elem_of_cons in Hb as [->|Hb]; [|apply elem_of_cons in Hb as [->|Hb]];
    [| |apply list_elem_of_singleton in Hb as ->];
    repeat case_decide; simplify_eq; done.
Qed.

(** The guard around the account counters, as the store decides it. *)
Definition keyRecordedb (keyId : string) (s : KeyStore) : bool :=
  match apikeys s !! keyId with
  | Some keyData => bool_decide (0 < size keyData)%nat
  | None => false
  end.

Lemma keyRecordedb_spec (keyId : string) (s : KeyStore) :
  keyRecordedb keyId s = true <-> keyRecorded keyId s.
Proof.
  unfold keyRecordedb, keyRecorded. destruct (apikeys s !! keyId) as [keyData|].
  - rewrite size_pos_nonempty. split; [by exists keyData|].
    by intros (kd & [= <-] & H).
  - split; [discriminate|]. by intros (kd & [=] & _).
Qed.

(** The counters after [recordUsage] on the store of the spec. *)
Lemma recordUsage_store (now : Z) (keyId : string)
    (input output cacheCreate cacheRead : Z) (model accountId : string) (s : KeyStore) :
  let s' := snd (ApiKeyService.recordUsage now keyId input output cacheCreate cacheRead
                   model accountId s) in
  let total := input + output + cacheCreate + cacheRead in
  keyUsage s' = bumpBuckets total input output cacheCreate cacheRead keyId s (keyUsage s)
  /\ accountUsage s'
     = if nonempty accountId && keyRecordedb keyId s
       then bumpBuckets total input output cacheCreate cacheRead accountId s (accountUsage s)
       else accountUsage s.
Proof.
  unfold ApiKeyService.recordUsage, try_catch, bind, ret, keyRecordedb. cbn.
  destruct (bool_decide (0 < _)%Qc); cbn;
    (destruct (apikeys s !! keyId) as [keyData|]; cbn;
     [destruct (bool_decide (0 < size keyData)%nat); cbn|]);
    destruct (nonempty accountId); done.
Qed.

(** C6, as amended.  On the store of the spec, where no operation fails,
    [recordUsage] adds exactly the recorded token counts (and one request)
    to the lifetime, daily and monthly counters of the key; it adds the
    same to the three counters of the account if an [accountId] was passed
    and the key's record is in the store, and otherwise leaves every
    account counter as it was. *)
Theorem recordUsage_counters (now : Z) (keyId : string)
    (input output cacheCreate cacheRead : Z) (model accountId : string) (s : KeyStore) :
  let s' := snd (ApiKeyService.recordUsage now keyId input output cacheCreate cacheRead
                   model accountId s) in
  let total := input + output + cacheCreate + cacheRead in
  (forall b, b ∈ [lifetime; daily s; monthly s] ->
     counter (keyUsage s') (keyId, b)
     = addUsage total input output cacheCreate cacheRead (counter (keyUsage s) (keyId, b)))
  /\ (accountId <> "" /\ keyRecorded keyId s ->
      forall b, b ∈ [lifetime; daily s; monthly s] ->
        counter (accountUsage s') (accountId, b)
        = addUsage total input output cacheCreate cacheRead
            (counter (accountUsage s) (accountId, b)))
  /\ (~ (accountId <> "" /\ keyRecorded keyId s) -> accountUsage s' = accountUsage s).
Proof.
  intros s' total.
  destruct (recordUsage_store now keyId input output cacheCreate cacheRead model accountId s)
    as [Hkey Hacc].
  fold s' total in Hkey, Hacc. rewrite Hkey, Hacc.
  split; [intros b Hb; by apply bump_three|].
  destruct (nonempty accountId && keyRecordedb keyId s) eqn:Hguard.
  - split; [intros _ b Hb; by apply bump_three|].
    intros Hn. exfalso. apply Hn.
    apply andb_true_iff in Hguard as [Ha Hr].
    by rewrite <- nonempty_true, <- keyRecordedb_spec.
  - split; [|done].
    intros [Ha Hr]. apply nonempty_true in Ha. apply keyRecordedb_spec in Hr.
    rewrite Ha, Hr in Hguard. discriminate.
Qed.

End UsageCounters.


(** ** Generated keys and admin updates *)

Section KeyRecords.
Context {RT : JSRuntime} (config : Config).

Lemma prefix_append (p s : string) : String.prefix p (p +:+ s) = true.
Proof.
  induction p as [|c p IH]; simpl; [by destruct s|].
  destruct (Ascii.ascii_dec c c); [done|congruence].
Qed.

Lemma append_nonempty (p s : string) : s <> "" -> p +:+ s <> "".
Proof. intros H. destruct p; simpl; [done|discriminate]. Qed.

Ltac lookup_literal :=
  unfold ApiKeyService.newKeyData; cbv zeta;
  repeat rewrite list_to_map_cons; cbn [fst snd];
  repeat (rewrite lookup_insert_ne by discriminate);
  rewrite lookup_insert_eq.

Lemma newKeyData_id (now : Z) (keyId hashedKey : string) (options : jsval) :
  ApiKeyService.newKeyData config now keyId hashedKey options !! "id" = Some keyId.
Proof. lookup_literal. done. Qed.

(** What [generateApiKey] wrote and returned, when it returned. *)
Lemma generateApiKey_returned (now : Z) (keyId secretKey : string) (options : jsval)
    (s s' : KeyStore) (g : GeneratedKey) :
  ApiKeyService.generateApiKey config now keyId secretKey options s = (Returned g, s') ->
  let apiKey := ApiKeyService.prefix config +:+ secretKey in
  let hashedKey := ApiKeyService._hashApiKey config apiKey in
  let keyData := ApiKeyService.newKeyData config now keyId hashedKey options in
  s' = setKeys (<[keyId := keyData]> (apikeys s)) (<[hashedKey := keyId]> (hash_map s)) s
  /\ g_id g = keyId
  /\ g_apiKey g = apiKey
  /\ g_isActive g = streq (fieldOf keyData "isActive") "true"
  /\ g_expiresAt g = fieldOf keyData "expiresAt".
Proof.
  intros Hgen apiKey hashedKey keyData.
  unfold ApiKeyService.generateApiKey in Hgen. cbv zeta in Hgen.
  fold apiKey hashedKey keyData in Hgen.
  unfold bind, ret, ApiKeyService.JSON_parse_throw, throw in Hgen.
  cbn [redis_setApiKey memoryRedis] in Hgen.
  repeat match type of Hgen with
  | context [match JSON_parse ?x with _ => _ end] =>
      destruct (JSON_parse x); [|discriminate Hgen]
  end.
  injection Hgen as <- <-. done.
Qed.

Theorem generate_then_validate (now now' : Z) (keyId secretKey : string) (options : jsval)
    (s s' : KeyStore) (g : GeneratedKey) :
  ApiKeyService.generateApiKey config now keyId secretKey options s = (Returned g, s') ->
  secretKey <> "" ->
  g_isActive g = true ->
  (forall expiry, g_expiresAt g <> "" -> Date_parse (g_expiresAt g) = Some expiry ->
                  now' <= expiry) ->
  exists keyData,
    fst (ApiKeyService.validateApiKey config now' (g_apiKey g) s') = Returned (Valid keyData)
    /\ vk_id keyData = Some (g_id g).
Proof.
  intros Hgen Hsecret Hactive Hexp.
  apply generateApiKey_returned in Hgen as (-> & Hid & Hkey & Hact & Hexpires).
  rewrite Hact in Hactive. rewrite Hexpires in Hexp. rewrite Hkey, Hid.
  set (apiKey := ApiKeyService.prefix config +:+ secretKey) in *.
  set (hashedKey := ApiKeyService._hashApiKey config apiKey) in *.
  set (keyData := ApiKeyService.newKeyData config now keyId hashedKey options) in *.
  unfold ApiKeyService.validateApiKey, try_catch, bind, ret.
  assert (Hne : nonempty apiKey = true).
  { apply nonempty_true. by apply append_nonempty. }
  rewrite Hne. unfold apiKey at 1. rewrite prefix_append. cbn [negb orb].
  fold apiKey hashedKey.
  cbn [redis_findApiKeyByHash redis_getUsageStats redis_getDailyCost memoryRedis
       hash_map apikeys setKeys].
  rewrite lookup_insert_eq. cbn [mbind option_bind]. rewrite lookup_insert_eq.
  rewrite Hactive. cbn [negb].
  assert (Hnot : nonempty (fieldOf keyData "expiresAt")
                 && num_gt (Some now') (Date_parse (fieldOf keyData "expiresAt")) = false).
  { destruct (nonempty (fieldOf keyData "expiresAt")) eqn:Hn; [|done]. cbn [andb].
    apply nonempty_true in Hn.
    destruct (Date_parse (fieldOf keyData "expiresAt")) as [expiry|] eqn:Hp; [|done].
    specialize (Hexp expiry Hn eq_refl).
    apply not_true_iff_false. rewrite num_gt_true. lia. }
  rewrite Hnot. cbn [fst]. eexists. split; [reflexivity|].
  cbn [vk_id]. apply newKeyData_id.
Qed.

Lemma includes_elem_of (x : string) (l : list string) : includes x l = true <-> x ∈ l.
Proof.
  unfold includes. rewrite existsb_exists. split.
  - intros (y & Hy & Heq). apply streq_true in Heq as ->. by apply list_elem_of_In.
  - intros H. exists x. split; [by apply list_elem_of_In|by apply streq_true].
Qed.

Lemma applyUpdate_other (updatedData : KeyData) (entry : string * jsval) (f : string) :
  f ∉ ApiKeyService.allowedUpdates -> ApiKeyService.applyUpdate updatedData entry !! f = updatedData !! f.
Proof.
  intros Hf. destruct entry as [field value]. unfold ApiKeyService.applyUpdate.
  destruct (includes field ApiKeyService.allowedUpdates) eqn:Hin; [|done].
  apply includes_elem_of in Hin.
  assert (field <> f) by congruence.
  repeat case_match; by rewrite lookup_insert_ne.
Qed.

Lemma updates_other (updates : list (string * jsval)) (keyData : KeyData) (f : string) :
  f ∉ ApiKeyService.allowedUpdates ->
  fold_left ApiKeyService.applyUpdate updates keyData !! f = keyData !! f.
Proof.
  intros Hf. revert keyData.
  induction updates as [|entry updates IH]; intros keyData; simpl; [done|].
  by rewrite IH, applyUpdate_other.
Qed.

Lemma not_allowed (f : string) :
  includes f ApiKeyService.allowedUpdates = false -> f ∉ ApiKeyService.allowedUpdates.
Proof. intros H Hin. apply includes_elem_of in Hin. congruence. Qed.

End KeyRecords.


(** ** Examples of the key service *)

Section KeyServiceExamples.
#[local] Existing Instance nodeRuntime.

Definition exampleConfig : Config :=
  {| apiKeyPrefix := "cr_"; encryptionKey := "pepper"; defaultTokenLimit := jnum 1000000 |}.

Definition exampleKeyId : string := "3f2b8c1e-5d4a-4c6b-9e7f-0a1b2c3d4e5f".

Definition exampleSecretKey : string :=
  "00112233445566778899aabbccddeeff00112233445566778899aabbccddeeff".

Definition exampleApiKey : string := "cr_" +:+ exampleSecretKey.

Definition emptyKeyStore : KeyStore :=
  {| apikeys := ∅; hash_map := ∅; keyUsage := ∅; keyModelUsage := ∅; accountUsage := ∅;
     dailyCost := ∅; prices := ∅; today := "2025-01-01"; thisMonth := "2025-01" |}.

(** Generate a key at [now] on the empty store, then validate its secret
    at [now']. *)
Definition generateThenValidate (now now' : Z) (options : jsval) : outcome Validation :=
  match ApiKeyService.generateApiKey exampleConfig now exampleKeyId exampleSecretKey
          options emptyKeyStore with
  | (Returned g, s') => fst (ApiKeyService.validateApiKey exampleConfig now' (g_apiKey g) s')
  | (Thrown e, _) => Thrown e
  end.

Definition validatedId (r : outcome Validation) : option string :=
  match r with
  | Returned (Valid keyData) => vk_id keyData
  | _ => None
  end.

(** The hashed secret under which the example key is indexed. *)
Example example_hash :
  ApiKeyService._hashApiKey exampleConfig exampleApiKey
  = "b4957394bba3d5e8dd3aa39aef585fb835e8bc285c46d25cbf227f63f192ad31".
Proof. by_vm. Qed.

Example generate_validate_round_trip :
  validatedId (generateThenValidate T0 (T0 + 1000) (JObj [])) = Some exampleKeyId.
Proof. by_vm. Qed.

(** C9 as stated fails: a key generated with [isActive: false] is a
    freshly generated key, and validating its secret is refused. *)
Lemma generated_inactive_key_is_refused :
  generateThenValidate T0 (T0 + 1000) (JObj [("isActive", JBool false)])
  = Returned (Invalid "API key is disabled").
Proof. by_vm. Qed.

(** The key of the expiry examples expires at 2025-01-02T00:00:00.000Z. *)
Definition expiringOptions : jsval := JObj [("expiresAt", JStr "2025-01-02T00:00:00.000Z")].

Definition T1 : Z := T0 + 86400000.

(** C8 as stated fails at its boundary: at [now = expiresAt] the key is
    accepted; one millisecond later it is rejected as expired. *)
Lemma key_valid_at_expiry_instant :
  Date_parse "2025-01-02T00:00:00.000Z" = Some T1
  /\ validatedId (generateThenValidate T0 T1 expiringOptions) = Some exampleKeyId
  /\ generateThenValidate T0 (T1 + 1) expiringOptions
     = Returned (Invalid "API key has expired").
Proof. repeat split; by_vm. Qed.

(** The store after generating the expiring key, and the record it holds. *)
Definition expiringStore : KeyStore :=
  snd (ApiKeyService.generateApiKey exampleConfig T0 exampleKeyId exampleSecretKey
         expiringOptions emptyKeyStore).

Definition expiringKeyData : KeyData :=
  ApiKeyService.newKeyData exampleConfig T0 exampleKeyId
    (ApiKeyService._hashApiKey exampleConfig exampleApiKey) expiringOptions.

Lemma validateApiKey_disabled_then_expired_witness :
  exampleApiKey <> ""
  /\ startsWith (ApiKeyService.prefix exampleConfig) exampleApiKey = true
  /\ redis_findApiKeyByHash (ApiKeyService._hashApiKey exampleConfig exampleApiKey)
       expiringStore = (Returned (Some expiringKeyData), expiringStore)
  /\ let r := fst (ApiKeyService.validateApiKey exampleConfig (T1 + 1) exampleApiKey
                     expiringStore) in
     (fieldOf expiringKeyData "isActive" <> "true" ->
      r = Returned (Invalid "API key is disabled"))
     /\ (fieldOf expiringKeyData "isActive" = "true" ->
         forall expiry,
           fieldOf expiringKeyData "expiresAt" <> "" ->
           Date_parse (fieldOf expiringKeyData "expiresAt") = Some expiry ->
           (r = Returned (Invalid "API key has expired") <-> expiry < T1 + 1)).
Proof.
  assert (H1 : exampleApiKey <> "") by discriminate.
  assert (H2 : startsWith (ApiKeyService.prefix exampleConfig) exampleApiKey = true)
    by reflexivity.
  assert (H3 : redis_findApiKeyByHash
                 (ApiKeyService._hashApiKey exampleConfig exampleApiKey) expiringStore
               = (Returned (Some expiringKeyData), expiringStore))
    by by_vm.
  split; [exact H1|]. split; [exact H2|]. split; [exact H3|].
  exact (validateApiKey_disabled_then_expired exampleConfig (T1 + 1) exampleApiKey
           expiringKeyData expiringStore expiringStore H1 H2 H3).
Defined.

Lemma generate_then_validate_witness :
  exists g s',
    ApiKeyService.generateApiKey exampleConfig T0 exampleKeyId exampleSecretKey
      expiringOptions emptyKeyStore = (Returned g, s')
    /\ exampleSecretKey <> ""
    /\ g_isActive g = true
    /\ (forall expiry, g_expiresAt g <> "" -> Date_parse (g_expiresAt g) = Some expiry ->
                       T1 <= expiry)
    /\ exists keyData,
         fst (ApiKeyService.validateApiKey exampleConfig T1 (g_apiKey g) s')
           = Returned (Valid keyData)
         /\ vk_id keyData = Some (g_id g).
Proof.
  let v := eval vm_compute in
      (ApiKeyService.generateApiKey exampleConfig T0 exampleKeyId exampleSecretKey
         expiringOptions emptyKeyStore) in
  match v with
  | (Returned ?g, ?s') =>
      exists g, s';
      assert (Hgen : ApiKeyService.generateApiKey exampleConfig T0 exampleKeyId
                       exampleSecretKey expiringOptions emptyKeyStore
                     = (Returned g, s')) by by_vm
  end.
  assert (H1 : exampleSecretKey <> "") by discriminate.
  split; [exact Hgen|]. split; [exact H1|].
  match goal with |- ?P /\ _ => assert (H2 : P) by by_vm end.
  split; [exact H2|].
  match goal with |- ?P /\ _ => assert (H3 : P) end.
  { intros expiry _ Hp. vm_compute in Hp. injection Hp as <-. vm_compute. discriminate. }
  split; [exact H3|].
  exact (generate_then_validate exampleConfig T0 T1 exampleKeyId exampleSecretKey
           expiringOptions emptyKeyStore _ _ Hgen H1 H2 H3).
Defined.

(** C10 as stated fails on two counts.  An update with no field at all
    still writes [updatedAt], which is not on the allow-list; and after an
    admin update that disables the key, the secret, which validated
    before, no longer validates: it is refused as disabled. *)
Lemma update_stamps_updatedAt_and_can_disable :
  includes "updatedAt" ApiKeyService.allowedUpdates = false
  /\ (apikeys expiringStore !! exampleKeyId ≫= (.!! "updatedAt")) = None
  /\ (apikeys (snd (ApiKeyService.updateApiKey (T0 + 1000) exampleKeyId [] expiringStore))
        !! exampleKeyId ≫= (.!! "updatedAt"))
     = Some "2025-01-01T00:00:01.000Z"
  /\ validatedId (fst (ApiKeyService.validateApiKey exampleConfig (T0 + 2000) exampleApiKey
                         expiringStore))
     = Some exampleKeyId
  /\ fst (ApiKeyService.validateApiKey exampleConfig (T0 + 2000) exampleApiKey
            (snd (ApiKeyService.updateApiKey (T0 + 1000) exampleKeyId
                    [("isActive", JBool false)] expiringStore)))
     = Returned (Invalid "API key is disabled").
Proof. repeat split; by_vm. Qed.

(** After an update that disables the key its secret still resolves to
    the record, and validation refuses it. *)
Example disabled_by_update :
  fst (ApiKeyService.validateApiKey exampleConfig (T0 + 2000) exampleApiKey
         (snd (ApiKeyService.updateApiKey (T0 + 1000) exampleKeyId
                 [("isActive", JBool false); ("apiKey", JStr "forged")] expiringStore)))
  = Returned (Invalid "API key is disabled").
Proof. by_vm. Qed.

Lemma expiringKeyData_recorded :
  apikeys expiringStore !! exampleKeyId = Some expiringKeyData /\ expiringKeyData <> ∅.
Proof.
  split; [by_vm|].
  intros E. apply (f_equal (.!! "id")) in E. vm_compute in E. discriminate E.
Qed.

(** C6 as stated fails: usage recorded for a key whose record is gone
    from the store counts for the key and not for the account, although an
    [accountId] was passed. *)
Lemma account_not_counted_without_key_record :
  apikeys emptyKeyStore !! "deleted-key" = None
  /\ counter (keyUsage (snd (ApiKeyService.recordUsage T0 "deleted-key" 10 20 0 0
                               "claude-3-5-sonnet-20241022" "acc1" emptyKeyStore)))
       ("deleted-key", lifetime)
     = addUsage 30 10 20 0 0 noUsage
  /\ accountUsage (snd (ApiKeyService.recordUsage T0 "deleted-key" 10 20 0 0
                          "claude-3-5-sonnet-20241022" "acc1" emptyKeyStore))
     = accountUsage emptyKeyStore.
Proof. repeat split; by_vm. Qed.

(** With the key's record in the store both are counted. *)
Example account_counted_with_key_record :
  let s' := snd (ApiKeyService.recordUsage T0 exampleKeyId 10 20 0 0
                   "claude-3-5-sonnet-20241022" "acc1" expiringStore) in
  counter (keyUsage s') (exampleKeyId, lifetime) = addUsage 30 10 20 0 0 noUsage
  /\ counter (accountUsage s') ("acc1", daily s') = addUsage 30 10 20 0 0 noUsage.
Proof. split; by_vm. Qed.

End KeyServiceExamples.

(** A store that is down: every operation throws. *)
Definition unreachableRedis : Redis unit :=
  {| redis_setApiKey := fun _ _ _ => throw "ECONNREFUSED";
     redis_findApiKeyByHash := fun _ => throw "ECONNREFUSED";
     redis_getApiKey := fun _ => throw "ECONNREFUSED";
     redis_getUsageStats := fun _ => throw "ECONNREFUSED";
     redis_getDailyCost := fun _ => throw "ECONNREFUSED";
     redis_incrementTokenUsage := fun _ _ _ _ _ _ _ => throw "ECONNREFUSED";
     redis_incrementDailyCost := fun _ _ => throw "ECONNREFUSED";
     redis_incrementAccountUsage := fun _ _ _ _ _ _ _ => throw "ECONNREFUSED";
     calculateCost := fun _ _ _ _ _ => ret 0%Qc |}.

Example recordUsage_on_unreachable_store :
  ApiKeyService.recordUsage (RT := nodeRuntime) (RD := unreachableRedis)
    T0 "k" 10 20 0 0 "m" "acc1" tt = (Returned tt, tt)
  /\ ApiKeyService.validateApiKey (RT := nodeRuntime) (RD := unreachableRedis)
       {| apiKeyPrefix := "cr_"; encryptionKey := "pepper"; defaultTokenLimit := JNull |}
       T0 "cr_secret" tt = (Returned (Invalid "Internal validation error"), tt).
Proof. split; reflexivity. Qed.

(** * Further properties of the schedulers *)

(** ** What a returning call went through *)

Section Returns.
Context {S : Type}.

Lemma bind_returned {A B} (m : io S A) (k : A -> io S B) (s s' : S) (b : B) :
  bind m k s = (Returned b, s') ->
  exists a s1, m s = (Returned a, s1) /\ k a s1 = (Returned b, s').
Proof.
  unfold bind. destruct (m s) as [[a|e] s1]; [|discriminate]. intros H. by exists a, s1.
Qed.

Lemma rethrow_returned {A} (m : io S A) (s s' : S) (a : A) :
  try_catch m (fun error => throw error) s = (Returned a, s') -> m s = (Returned a, s').
Proof. unfold try_catch, throw. destruct (m s) as [[a'|e] s1]; [done|discriminate]. Qed.

Lemma ret_returned {A} (a b : A) (s s' : S) : ret a s = (Returned b, s') -> a = b /\ s = s'.
Proof. unfold ret. by intros [= -> ->]. Qed.

(** A property of the accumulator that every turn of a loop keeps holds
    when the loop is over. *)
Lemma for_of_invariant {A B} (P : B -> Prop) (body : A -> B -> io S B) (l : list A)
    (acc r : B) (s s' : S) :
  (forall x b b' s0 s1, P b -> body x b s0 = (Returned b', s1) -> P b') ->
  P acc -> for_of l body acc s = (Returned r, s') -> P r.
Proof.
  intros Hbody. revert acc s. induction l as [|x l IH]; intros acc s Hacc; simpl.
  - by intros [-> _]%ret_returned.
  - intros (b & s1 & Hb & Hrest)%bind_returned. eapply IH; [|exact Hrest]. eauto.
Qed.

End Returns.

(** ** The platform of a selected account, for every account service *)

Section SelectionTypes.
Context {RT : JSRuntime} {S : Type} {SV : Services S}.

Definition isOpenAI (c : Candidate) : Prop := c_accountType c = "openai".

Lemma considerAccount_types (now : Z) (model : string) (account : Account)
    (acc acc' : list Candidate) (s s' : S) :
  Forall isOpenAI acc ->
  UnifiedOpenAIScheduler.considerAccount now model account acc s = (Returned acc', s') ->
  Forall isOpenAI acc'.
Proof.
  intros Hacc. unfold UnifiedOpenAIScheduler.considerAccount. cbv zeta.
  destruct (_ && _); [by intros [<- _]%ret_returned|].
  destruct (UnifiedOpenAIScheduler.modelNotSupported _ _); [by intros [<- _]%ret_returned|].
  intros (limited & s1 & _ & H)%bind_returned.
  destruct limited; apply ret_returned in H as [<- _]; [done|].
  apply Forall_app. split; [done|]. by apply Forall_singleton.
Qed.

Lemma pickFirst_types (sessionHash : string) (l : list Candidate) (s s' : S)
    (sel : Selection) :
  Forall isOpenAI l ->
  UnifiedOpenAIScheduler.pickFirst sessionHash l s = (Returned sel, s') ->
  sel_accountType sel = "openai".
Proof.
  intros Hl. unfold UnifiedOpenAIScheduler.pickFirst. cbv zeta.
  destruct (_sortAccountsByPriority l) as [|c rest] eqn:Hs; [discriminate|].
  intros (u & s1 & _ & [<- _]%ret_returned)%bind_returned. cbn.
  unfold _sortAccountsByPriority in Hs.
  rewrite <- (js_sort_Permutation compareAccounts), Hs in Hl.
  by apply Forall_cons in Hl as [Hc _].
Qed.

Lemma isAccountAvailable_type (now : Z) (accountId accountType : string) (s s' : S) :
  UnifiedOpenAIScheduler._isAccountAvailable now accountId accountType s
    = (Returned true, s') ->
  accountType = "openai".
Proof.
  unfold UnifiedOpenAIScheduler._isAccountAvailable, try_catch.
  destruct (streq accountType "openai") eqn:E; [intros _; by apply streq_true|].
  unfold ret. discriminate.
Qed.

Lemma selectAccountFromGroup_type (now : Z) (groupId sessionHash model : string)
    (s s' : S) (sel : Selection) :
  UnifiedOpenAIScheduler.selectAccountFromGroup now groupId sessionHash model s
    = (Returned sel, s') ->
  sel_accountType sel = "openai".
Proof.
  intros H%rethrow_returned. apply bind_returned in H as (group & s1 & _ & H).
  destruct group as [group|]; [|discriminate].
  destruct (negb _); [discriminate|].
  apply bind_returned in H as (sticky & s2 & Hsticky & H).
  destruct sticky as [m|].
  - apply ret_returned in H as [<- _].
    destruct (nonempty sessionHash); [|by apply ret_returned in Hsticky as [[=] _]].
    apply bind_returned in Hsticky as (om & s3 & _ & Hsticky).
    destruct om as [m'|]; [|by apply ret_returned in Hsticky as [[=] _]].
    apply bind_returned in Hsticky as (inGroup & s4 & _ & Hsticky).
    apply bind_returned in Hsticky as (avail & s5 & Hav & Hsticky).
    destruct inGroup; cbn [andb] in Hsticky.
    + destruct avail.
      * apply ret_returned in Hsticky as [[= <-] _]. by eapply isAccountAvailable_type.
      * apply bind_returned in Hsticky as (? & ? & _ & [[=] _]%ret_returned).
    + apply bind_returned in Hsticky as (? & ? & _ & [[=] _]%ret_returned).
  - apply bind_returned in H as (memberIds & s3 & _ & H).
    destruct (bool_decide (length memberIds = 0%nat)); [discriminate|].
    apply bind_returned in H as (l & s4 & Hl & H).
    destruct (bool_decide (length l = 0%nat)); [discriminate|].
    eapply pickFirst_types; [|exact H].
    eapply (for_of_invariant (Forall isOpenAI)); [|constructor|exact Hl].
    intros memberId b b' s0 s0' Hb Hbody. cbv beta in Hbody.
    apply bind_returned in Hbody as (account & s6 & _ & Hbody).
    destruct account as [account|]; [|by apply ret_returned in Hbody as [<- _]].
    destruct (_ && _ && _); [|by apply ret_returned in Hbody as [<- _]].
    by eapply considerAccount_types.
Qed.

Lemma getAllAvailableAccounts_types (now : Z) (key : ApiKeyData) (model : string)
    (s s' : S) (l : list Candidate) :
  UnifiedOpenAIScheduler._getAllAvailableAccounts now key model s = (Returned l, s') ->
  Forall isOpenAI l.
Proof.
  unfold UnifiedOpenAIScheduler._getAllAvailableAccounts. cbv zeta.
  intros (early & s1 & Hearly & H)%bind_returned.
  destruct early as [result|].
  - apply ret_returned in H as [<- _].
    destruct (nonempty (openaiAccountId key));
      [|by apply ret_returned in Hearly as [[=] _]].
    apply bind_returned in Hearly as (bound & s2 & _ & Hearly).
    destruct bound as [bound|]; [|by apply ret_returned in Hearly as [[=] _]].
    destruct (_ && _); [|by apply ret_returned in Hearly as [[=] _]].
    apply bind_returned in Hearly as (limited & s3 & _ & Hearly).
    destruct limited; cbn [negb] in Hearly; [by apply ret_returned in Hearly as [[=] _]|].
    destruct (UnifiedOpenAIScheduler.modelNotSupported _ _);
      apply ret_returned in Hearly as [[= <-] _]; [constructor|by apply Forall_singleton].
  - apply bind_returned in H as (accounts & s2 & _ & H).
    eapply (for_of_invariant (Forall isOpenAI)); [|constructor|exact H].
    intros account b b' s0 s0' Hb Hbody. cbv beta in Hbody.
    destruct (_ && _ && _ && _); [|by apply ret_returned in Hbody as [<- _]].
    by eapply considerAccount_types.
Qed.

(** X1.  Whatever the account services, the group service and the store
    client answer, an account that the OpenAI scheduler returns has the
    account type ['openai']: the bound account, a member of the bound
    group, the account of a session mapping (a mapping that names another
    type is never reused) and the first of the pool alike. *)
Theorem openai_selection_is_an_openai_account
    (now : Z) (key : ApiKeyData) (sessionHash model : string) (s s' : S) (sel : Selection) :
  UnifiedOpenAIScheduler.selectAccountForApiKey now key sessionHash model s
    = (Returned sel, s') ->
  sel_accountType sel = "openai".
Proof.
  intros H%rethrow_returned. apply bind_returned in H as (bound & s1 & Hbound & H).
  destruct bound as [selection|].
  - apply ret_returned in H as [<- _].
    destruct (nonempty (openaiAccountId key));
      [|by apply ret_returned in Hbound as [[=] _]].
    destruct (startsWith _ _).
    + apply bind_returned in Hbound as (sel0 & s2 & Hg & [[= <-] _]%ret_returned).
      by eapply selectAccountFromGroup_type.
    + apply bind_returned in Hbound as (account & s2 & _ & Hbound).
      destruct account as [account|]; [|by apply ret_returned in Hbound as [[=] _]].
      destruct (_ && _); [|by apply ret_returned in Hbound as [[=] _]].
      by apply ret_returned in Hbound as [[= <-] _].
  - apply bind_returned in H as (sticky & s2 & Hsticky & H).
    destruct sticky as [m|].
    + apply ret_returned in H as [<- _].
      destruct (nonempty sessionHash); [|by apply ret_returned in Hsticky as [[=] _]].
      apply bind_returned in Hsticky as (om & s3 & _ & Hsticky).
      destruct om as [m'|]; [|by apply ret_returned in Hsticky as [[=] _]].
      apply bind_returned in Hsticky as (avail & s4 & Hav & Hsticky).
      destruct avail.
      * apply ret_returned in Hsticky as [[= <-] _]. by eapply isAccountAvailable_type.
      * apply bind_returned in Hsticky as (? & ? & _ & [[=] _]%ret_returned).
    + apply bind_returned in H as (l & s3 & Hl & H).
      destruct (bool_decide (length l = 0%nat)).
      * destruct (nonempty model); discriminate.
      * eapply pickFirst_types; [|exact H]. by eapply getAllAvailableAccounts_types.
Qed.

Definition isClaude (c : Candidate) : Prop :=
  c_accountType c = "claude-official" \/ c_accountType c = "claude-console".

Lemma claude_isAccountAvailable_type (accountId accountType : string) (s s' : S) :
  UnifiedClaudeScheduler._isAccountAvailable accountId accountType s = (Returned true, s') ->
  accountType = "claude-official" \/ accountType = "claude-console".
Proof.
  unfold UnifiedClaudeScheduler._isAccountAvailable, try_catch.
  destruct (streq accountType "claude-official") eqn:E1; [intros _; left; by apply streq_true|].
  destruct (streq accountType "claude-console") eqn:E2; [intros _; right; by apply streq_true|].
  unfold ret. discriminate.
Qed.

Lemma claude_getAllAvailableAccounts_types (key : ApiKeyData) (model : string)
    (s s' : S) (l : list Candidate) :
  UnifiedClaudeScheduler._getAllAvailableAccounts key model s = (Returned l, s') ->
  Forall isClaude l.
Proof.
  unfold UnifiedClaudeScheduler._getAllAvailableAccounts. cbv zeta.
  intros (early1 & s1 & Hearly & H)%bind_returned.
  destruct early1 as [result|].
  { apply ret_returned in H as [<- _].
    destruct (nonempty (claudeAccountId key));
      [|by apply ret_returned in Hearly as [[=] _]].
    apply bind_returned in Hearly as (bound & s2 & _ & Hearly).
    destruct bound as [bound|]; [|by apply ret_returned in Hearly as [[=] _]].
    destruct (_ && _ && _); [|by apply ret_returned in Hearly as [[=] _]].
    apply bind_returned in Hearly as (limited & s3 & _ & Hearly).
    destruct limited; cbn [negb] in Hearly; apply ret_returned in Hearly as [[= <-] _].
    apply Forall_singleton. by left. }
  apply bind_returned in H as (early2 & s2 & Hearly2 & H).
  destruct early2 as [result|].
  { apply ret_returned in H as [<- _].
    destruct (nonempty (claudeConsoleAccountId key));
      [|by apply ret_returned in Hearly2 as [[=] _]].
    apply bind_returned in Hearly2 as (bound & s3 & _ & Hearly2).
    destruct bound as [bound|]; [|by apply ret_returned in Hearly2 as [[=] _]].
    destruct (_ && _); [|by apply ret_returned in Hearly2 as [[=] _]].
    apply bind_returned in Hearly2 as (limited & s4 & _ & Hearly2).
    destruct limited; cbn [negb] in Hearly2; apply ret_returned in Hearly2 as [[= <-] _].
    apply Forall_singleton. by right. }
  apply bind_returned in H as (claudeAccounts & s3 & _ & H).
  apply bind_returned in H as (l1 & s4 & Hl1 & H).
  apply bind_returned in H as (consoleAccounts & s5 & _ & H).
  assert (H1 : Forall isClaude l1).
  { eapply (for_of_invariant (Forall isClaude)); [|constructor|exact Hl1].
    intros account b b' s0 s0' Hb Hbody. cbv beta in Hbody.
    destruct (_ && _ && _ && _ && _); [|by apply ret_returned in Hbody as [<- _]].
    apply bind_returned in Hbody as (limited & s6 & _ & Hbody).
    destruct limited; cbn [negb] in Hbody; apply ret_returned in Hbody as [<- _]; [done|].
    apply Forall_app. split; [done|]. apply Forall_singleton. by left. }
  eapply (for_of_invariant (Forall isClaude)); [|exact H1|exact H].
  intros account b b' s0 s0' Hb Hbody. cbv beta in Hbody.
  destruct (_ && _ && _ && _); [|by apply ret_returned in Hbody as [<- _]].
  destruct (UnifiedClaudeScheduler.modelNotSupported _ _);
    [by apply ret_returned in Hbody as [<- _]|].
  apply bind_returned in Hbody as (limited & s6 & _ & Hbody).
  destruct limited; cbn [negb] in Hbody; apply ret_returned in Hbody as [<- _]; [done|].
  apply Forall_app. split; [done|]. apply Forall_singleton. by right.
Qed.

(** X2.  Whatever the account services and the store client answer, an
    account that the Claude scheduler returns has the account type
    ['claude-official'] or ['claude-console']; a session mapping that
    names another type is never reused. *)
Theorem claude_selection_is_a_claude_account
    (key : ApiKeyData) (sessionHash model : string) (s s' : S) (sel : Selection) :
  UnifiedClaudeScheduler.selectAccountForApiKey key sessionHash model s
    = (Returned sel, s') ->
  sel_accountType sel = "claude-official" \/ sel_accountType sel = "claude-console".
Proof.
  intros H%rethrow_returned. apply bind_returned in H as (bound1 & s1 & Hbound & H).
  destruct bound1 as [selection|].
  { apply ret_returned in H as [<- _].
    destruct (nonempty (claudeAccountId key));
      [|by apply ret_returned in Hbound as [[=] _]].
    apply bind_returned in Hbound as (account & s2 & _ & Hbound).
    destruct account as [account|]; [|by apply ret_returned in Hbound as [[=] _]].
    destruct (_ && _); [|by apply ret_returned in Hbound as [[=] _]].
    apply ret_returned in Hbound as [[= <-] _]. by left. }
  apply bind_returned in H as (bound2 & s2 & Hbound2 & H).
  destruct bound2 as [selection|].
  { apply ret_returned in H as [<- _].
    destruct (nonempty (claudeConsoleAccountId key));
      [|by apply ret_returned in Hbound2 as [[=] _]].
    apply bind_returned in Hbound2 as (account & s3 & _ & Hbound2).
    destruct account as [account|]; [|by apply ret_returned in Hbound2 as [[=] _]].
    destruct (_ && _); [|by apply ret_returned in Hbound2 as [[=] _]].
    apply ret_returned in Hbound2 as [[= <-] _]. by right. }
  apply bind_returned in H as (sticky & s3 & Hsticky & H).
  destruct sticky as [m|].
  - apply ret_returned in H as [<- _].
    destruct (nonempty sessionHash); [|by apply ret_returned in Hsticky as [[=] _]].
    apply bind_returned in Hsticky as (om & s4 & _ & Hsticky).
    destruct om as [m'|]; [|by apply ret_returned in Hsticky as [[=] _]].
    apply bind_returned in Hsticky as (avail & s5 & Hav & Hsticky).
    destruct avail.
    + apply ret_returned in Hsticky as [[= <-] _]. by eapply claude_isAccountAvailable_type.
    + apply bind_returned in Hsticky as (? & ? & _ & [[=] _]%ret_returned).
  - apply bind_returned in H as (l & s4 & Hl & H).
    destruct (bool_decide (length l = 0%nat)).
    + destruct (nonempty model); discriminate.
    + cbv zeta in H.
      destruct (_sortAccountsByPriority l) as [|c rest] eqn:Hs; [discriminate|].
      apply bind_returned in H as (u & s5 & _ & [<- _]%ret_returned). cbn.
      apply claude_getAllAvailableAccounts_types in Hl.
      unfold _sortAccountsByPriority in Hs.
      rewrite <- (js_sort_Permutation compareAccounts), Hs in Hl.
      by apply Forall_cons in Hl as [Hc _].
Qed.

Lemma substring_all (s : string) : String.substring 0 (String.length s) s = s.
Proof. induction s as [|c s IH]; simpl; [done|]. by rewrite IH. Qed.

Lemma stripPrefix_append (p s : string) : stripPrefix p (p +:+ s) = s.
Proof.
  unfold stripPrefix. induction p as [|c p IH]; simpl.
  - rewrite Nat.sub_0_r. apply substring_all.
  - exact IH.
Qed.

(** A key bound to ['group:' + groupId] is served by
    [selectAccountFromGroup], whatever that does. *)
Lemma select_group_binding (now : Z) (key : ApiKeyData) (groupId sessionHash model : string)
    (s : S) :
  openaiAccountId key = "group:" +:+ groupId ->
  UnifiedOpenAIScheduler.selectAccountForApiKey now key sessionHash model s
  = UnifiedOpenAIScheduler.selectAccountFromGroup now groupId sessionHash model s.
Proof.
  intros Hk. unfold UnifiedOpenAIScheduler.selectAccountForApiKey, try_catch. rewrite Hk.
  rewrite stripPrefix_append.
  assert (Hne : nonempty ("group:" +:+ groupId) = true) by by apply nonempty_true.
  rewrite Hne. unfold startsWith. rewrite prefix_append.
  unfold bind at 1. unfold bind at 1.
  destruct (UnifiedOpenAIScheduler.selectAccountFromGroup now groupId sessionHash model s)
    as [[sel|e] s1]; done.
Qed.

(** X3.  A key bound to a group is never served from the shared pool when
    the group cannot be used: if the group service does not know the
    group, the selection throws ['Group <id> not found']; if the group is
    of another platform, it throws ['Group <name> is not an OpenAI
    group']; and an error of the group service is passed on.  In each case
    the store is as the group service left it. *)
Theorem openai_group_binding_errors
    (now : Z) (key : ApiKeyData) (groupId sessionHash model : string) (s s1 : S) :
  openaiAccountId key = "group:" +:+ groupId ->
  (group_getGroup groupId s = (Returned None, s1) ->
   UnifiedOpenAIScheduler.selectAccountForApiKey now key sessionHash model s
   = (Thrown ("Group " +:+ groupId +:+ " not found"), s1))
  /\ (forall group,
        group_getGroup groupId s = (Returned (Some group), s1) ->
        platform group <> "openai" ->
        UnifiedOpenAIScheduler.selectAccountForApiKey now key sessionHash model s
        = (Thrown ("Group " +:+ groupName group +:+ " is not an OpenAI group"), s1))
  /\ (forall e,
        group_getGroup groupId s = (Thrown e, s1) ->
        UnifiedOpenAIScheduler.selectAccountForApiKey now key sessionHash model s
        = (Thrown e, s1)).
Proof.
  intros Hk. rewrite (select_group_binding _ _ groupId) by done.
  unfold UnifiedOpenAIScheduler.selectAccountFromGroup, try_catch.
  repeat split.
  - intros H. unfold bind at 1. by rewrite H.
  - intros group H Hp. unfold bind at 1. rewrite H.
    apply streq_false in Hp. by rewrite Hp.
  - intros e H. unfold bind at 1. by rewrite H.
Qed.

End SelectionTypes.

(** ** The OpenAI scheduler on the store of the spec *)

Section OpenAIOnStore.
Context {RT : JSRuntime}.

(** The test of [isAccountRateLimited] on the record that the store holds
    for the id. *)
Definition limitedAt (now : Z) (accounts : list Account) (accountId : string) : bool :=
  match findAccount accountId accounts with
  | Some account =>
      streq (rateLimitStatus account) "limited" && nonempty (rateLimitedAt account)
      && num_lt (Some now)
           (num_add (Date_parse (rateLimitedAt account))
                    (Some UnifiedOpenAIScheduler.limitDuration))
  | None => false
  end.

(** On the store of the spec the reads of the OpenAI scheduler leave the
    store as it is. *)
Lemma isAccountRateLimited_memory (now : Z) (accountId : string) (s : SchedulerStore) :
  UnifiedOpenAIScheduler.isAccountRateLimited now accountId s
  = (Returned (limitedAt now (openaiAccounts s) accountId), s).
Proof.
  unfold UnifiedOpenAIScheduler.isAccountRateLimited, try_catch, bind, ret, limitedAt. cbn.
  destruct (findAccount accountId (openaiAccounts s)) as [a|]; [|done].
  by destruct (streq _ _), (nonempty _).
Qed.

(** The tests of [_isAccountAvailable]. *)
Definition availableAt (now : Z) (accounts : list Account) (accountId accountType : string)
    : bool :=
  streq accountType "openai"
  && match findAccount accountId accounts with
     | Some account =>
         js_is_str (isActive account) "true" && negb (streq (status account) "error")
         && UnifiedOpenAIScheduler._isSchedulable (schedulable account)
         && negb (limitedAt now accounts accountId)
     | None => false
     end.

Lemma isAccountAvailable_memory (now : Z) (accountId accountType : string)
    (s : SchedulerStore) :
  UnifiedOpenAIScheduler._isAccountAvailable now accountId accountType s
  = (Returned (availableAt now (openaiAccounts s) accountId accountType), s).
Proof.
  unfold UnifiedOpenAIScheduler._isAccountAvailable, try_catch, availableAt.
  destruct (streq accountType "openai"); [|done].
  unfold bind at 1. cbn [openai_getAccount memoryServices].
  destruct (findAccount accountId (openaiAccounts s)) as [a|]; [|done].
  destruct (js_is_str _ _); [|done]. destruct (streq (status a) _); [done|].
  destruct (UnifiedOpenAIScheduler._isSchedulable _); [|done].
  cbn [negb orb andb]. unfold bind. by rewrite isAccountRateLimited_memory.
Qed.

(** What [_getSessionMapping] reads. *)
Definition mappingOf (prefix sessionHash : string) (s : SchedulerStore) : option Selection :=
  match sessions s !! (prefix +:+ sessionHash) with
  | Some (mappingData, _) =>
      if nonempty mappingData then parseSelection mappingData else None
  | None => None
  end.

Lemma getSessionMapping_memory (prefix sessionHash : string) (s : SchedulerStore) :
  _getSessionMapping prefix sessionHash s = (Returned (mappingOf prefix sessionHash s), s).
Proof.
  unfold _getSessionMapping, bind, ret, mappingOf. cbn.
  destruct (sessions s !! _) as [[v ttl]|]; [|done]. cbn. by destruct (nonempty v).
Qed.

(** The tests an account of the listing passes to enter the pool: the
    filter of the loop, the model filter and the rate limit.  (The store
    of the spec has no expired token, so the token test passes.) *)
Definition poolEligible (now : Z) (requestedModel : string) (accounts : list Account)
    (account : Account) : bool :=
  js_is_str (isActive account) "true"
  && negb (streq (status account) "error")
  && (streq (accountType account) "shared" || negb (nonempty (accountType account)))
  && UnifiedOpenAIScheduler._isSchedulable (schedulable account)
  && negb (UnifiedOpenAIScheduler.modelNotSupported requestedModel account)
  && negb (limitedAt now accounts (id account)).

(** The pool: the eligible accounts, in the order of the listing. *)
Definition poolOf (now : Z) (requestedModel : string) (accounts : list Account)
    : list Candidate :=
  map (fun account => candidateOf account "openai")
      (List.filter (poolEligible now requestedModel accounts) accounts).

Lemma considerAccount_memory (now : Z) (model : string) (a : Account) (acc : list Candidate)
    (s : SchedulerStore) :
  UnifiedOpenAIScheduler.considerAccount now model a acc s
  = (Returned (if negb (UnifiedOpenAIScheduler.modelNotSupported model a)
                  && negb (limitedAt now (openaiAccounts s) (id a))
               then (acc ++ [candidateOf a "openai"])%list else acc), s).
Proof.
  unfold UnifiedOpenAIScheduler.considerAccount. cbn [openai_isTokenExpired memoryServices andb].
  destruct (UnifiedOpenAIScheduler.modelNotSupported model a); [done|].
  unfold bind. rewrite isAccountRateLimited_memory.
  by destruct (limitedAt _ _ _).
Qed.

Lemma pool_loop (now : Z) (model : string) (s : SchedulerStore) (l : list Account)
    (acc : list Candidate) :
  for_of l
    (fun account availableAccounts =>
       if js_is_str (isActive account) "true"
          && negb (streq (status account) "error")
          && (streq (accountType account) "shared" || negb (nonempty (accountType account)))
          && UnifiedOpenAIScheduler._isSchedulable (schedulable account)
       then UnifiedOpenAIScheduler.considerAccount now model account availableAccounts
       else ret availableAccounts)
    acc s
  = (Returned (acc ++ map (fun account => candidateOf account "openai")
                        (List.filter (poolEligible now model (openaiAccounts s)) l))%list, s).
Proof.
  revert acc. induction l as [|a l IH]; intros acc; cbn [for_of List.filter map].
  - unfold ret. by rewrite app_nil_r.
  - unfold bind. unfold poolEligible at 1.
    destruct (js_is_str _ _ && _ && _ && _); cbn [andb].
    + rewrite considerAccount_memory.
      destruct (UnifiedOpenAIScheduler.modelNotSupported model a); cbn [negb andb];
        [by rewrite IH|].
      destruct (limitedAt now (openaiAccounts s) (id a)); cbn [negb andb map];
        rewrite IH; [done|].
      by rewrite <- app_assoc.
    + unfold ret at 1. by rewrite IH.
Qed.

(** The binding step of [selectAccountForApiKey] on a key bound to one
    account: the account is there, active and not in error. *)
Definition bindingTaken (key : ApiKeyData) (accounts : list Account) : bool :=
  nonempty (openaiAccountId key)
  && match findAccount (openaiAccountId key) accounts with
     | Some boundAccount =>
         js_is_str (isActive boundAccount) "true"
         && negb (streq (status boundAccount) "error")
     | None => false
     end.

Lemma getAllAvailableAccounts_memory (now : Z) (key : ApiKeyData) (model : string)
    (s : SchedulerStore) :
  bindingTaken key (openaiAccounts s) = false ->
  UnifiedOpenAIScheduler._getAllAvailableAccounts now key model s
  = (Returned (poolOf now model (openaiAccounts s)), s).
Proof.
  intros Hk. unfold UnifiedOpenAIScheduler._getAllAvailableAccounts. cbv zeta.
  assert (Hearly :
    (if nonempty (openaiAccountId key) then
       boundAccount <- openai_getAccount (openaiAccountId key) ;;
       match boundAccount with
       | Some boundAccount =>
           if js_is_str (isActive boundAccount) "true"
              && negb (streq (status boundAccount) "error")
           then
             isRateLimited <-
               UnifiedOpenAIScheduler.isAccountRateLimited now (id boundAccount) ;;
             if negb isRateLimited then
               if UnifiedOpenAIScheduler.modelNotSupported model boundAccount
               then ret (Some [])
               else ret (Some [candidateOf boundAccount "openai"])
             else ret None
           else ret None
       | None => ret None
       end
     else ret None) s = (Returned (@None (list Candidate)), s)).
  { unfold bindingTaken in Hk. destruct (nonempty (openaiAccountId key)); [|done].
    cbn [andb] in Hk. unfold bind at 1. cbn [openai_getAccount memoryServices].
    destruct (findAccount _ _) as [a|]; [|done]. by rewrite Hk. }
  unfold bind at 1. rewrite Hearly.
  unfold bind at 1. cbn [openai_getAllAccounts memoryServices].
  exact (pool_loop now model s (openaiAccounts s) []).
Qed.

(** [{ accountId, accountType }] of a candidate. *)
Definition selectionOf (c : Candidate) : Selection :=
  {| sel_accountId := c_accountId c; sel_accountType := c_accountType c |}.

(** The store after [_setSessionMapping] and after
    [_deleteSessionMapping]. *)
Definition withMapping (prefix sessionHash : string) (sel : Selection) (s : SchedulerStore)
    : SchedulerStore :=
  setSessions
    (<[prefix +:+ sessionHash
       := (stringifySelection (sel_accountId sel) (sel_accountType sel), 3600)]> (sessions s)) s.

Definition withoutMapping (prefix sessionHash : string) (s : SchedulerStore) : SchedulerStore :=
  setSessions (delete (prefix +:+ sessionHash) (sessions s)) s.

Lemma sorted_nonempty (l : list Candidate) :
  bool_decide (length l = 0%nat) = false ->
  exists c rest, _sortAccountsByPriority l = c :: rest.
Proof.
  intros H. apply bool_decide_eq_false in H.
  pose proof (Permutation_length (js_sort_Permutation compareAccounts l)) as Hl.
  unfold _sortAccountsByPriority. destruct (js_sort compareAccounts l) as [|c rest]; [done|].
  by exists c, rest.
Qed.

Lemma pickFirst_memory (sessionHash : string) (l : list Candidate) (c : Candidate)
    (rest : list Candidate) (s : SchedulerStore) :
  _sortAccountsByPriority l = c :: rest ->
  UnifiedOpenAIScheduler.pickFirst sessionHash l s
  = (Returned (selectionOf c),
     if nonempty sessionHash
     then withMapping UnifiedOpenAIScheduler.SESSION_MAPPING_PREFIX sessionHash (selectionOf c) s
     else s).
Proof.
  intros Hs. unfold UnifiedOpenAIScheduler.pickFirst. cbv zeta. rewrite Hs.
  unfold bind, ret. by destruct (nonempty sessionHash).
Qed.

(** The message of the error thrown when the pool is empty. *)
Definition noAccounts (requestedModel : string) : string :=
  if nonempty requestedModel
  then "No available OpenAI accounts support the requested model: " +:+ requestedModel
  else "No available OpenAI accounts".

(** The selection from the pool: the first of the ranking, and its
    mapping written when there is a session hash. *)
Definition fromPool (now : Z) (sessionHash requestedModel : string) (s : SchedulerStore)
    : outcome Selection * SchedulerStore :=
  match _sortAccountsByPriority (poolOf now requestedModel (openaiAccounts s)) with
  | [] => (Thrown (noAccounts requestedModel), s)
  | c :: _ =>
      (Returned (selectionOf c),
       if nonempty sessionHash
       then withMapping UnifiedOpenAIScheduler.SESSION_MAPPING_PREFIX sessionHash
              (selectionOf c) s
       else s)
  end.

(** The mapping that the sticky step finds. *)
Definition stickyOf (sessionHash : string) (s : SchedulerStore) : option Selection :=
  if nonempty sessionHash
  then mappingOf UnifiedOpenAIScheduler.SESSION_MAPPING_PREFIX sessionHash s
  else None.

(** [selectAccountForApiKey] on a key whose binding step yields
    nothing. *)
Lemma select_pool_path (now : Z) (key : ApiKeyData) (sessionHash model : string)
    (s : SchedulerStore) :
  startsWith "group:" (openaiAccountId key) = false ->
  bindingTaken key (openaiAccounts s) = false ->
  UnifiedOpenAIScheduler.selectAccountForApiKey now key sessionHash model s
  = match stickyOf sessionHash s with
    | Some mappedAccount =>
        if availableAt now (openaiAccounts s)
             (sel_accountId mappedAccount) (sel_accountType mappedAccount)
        then (Returned mappedAccount, s)
        else fromPool now sessionHash model
               (withoutMapping UnifiedOpenAIScheduler.SESSION_MAPPING_PREFIX sessionHash s)
    | None => fromPool now sessionHash model s
    end.
Proof.
  intros Hg Hk.
  assert (Htail : forall s0, openaiAccounts s0 = openaiAccounts s ->
    (availableAccounts <-
       UnifiedOpenAIScheduler._getAllAvailableAccounts now key model ;;
     if bool_decide (length availableAccounts = 0%nat) then
       if nonempty model
       then throw ("No available OpenAI accounts support the requested model: " +:+ model)
       else throw "No available OpenAI accounts"
     else UnifiedOpenAIScheduler.pickFirst sessionHash availableAccounts) s0
    = fromPool now sessionHash model s0).
  { intros s0 Hs0. unfold bind. rewrite getAllAvailableAccounts_memory by by rewrite Hs0.
    unfold fromPool.
    destruct (bool_decide (length (poolOf now model (openaiAccounts s0)) = 0%nat)) eqn:E.
    - apply bool_decide_eq_true in E. apply nil_length_inv in E. rewrite E.
      unfold noAccounts, throw. by destruct (nonempty model).
    - destruct (sorted_nonempty _ E) as (c & rest & Hs).
      rewrite (pickFirst_memory _ _ _ _ _ Hs). by rewrite Hs. }
  assert (Hbound :
    (if nonempty (openaiAccountId key) then
       if startsWith "group:" (openaiAccountId key) then
         sel <- UnifiedOpenAIScheduler.selectAccountFromGroup now
                  (stripPrefix "group:" (openaiAccountId key)) sessionHash model ;;
         ret (Some sel)
       else
         boundAccount <- openai_getAccount (openaiAccountId key) ;;
         match boundAccount with
         | Some boundAccount =>
             if js_is_str (isActive boundAccount) "true"
                && negb (streq (status boundAccount) "error")
             then ret (Some {| sel_accountId := openaiAccountId key;
                               sel_accountType := "openai" |})
             else ret None
         | None => ret None
         end
     else ret None) s = (Returned (@None Selection), s)).
  { unfold bindingTaken in Hk. rewrite Hg. destruct (nonempty (openaiAccountId key)); [|done].
    cbn [andb] in Hk. unfold bind at 1. cbn [openai_getAccount memoryServices].
    destruct (findAccount _ _) as [a|]; [|done]. by rewrite Hk. }
  unfold UnifiedOpenAIScheduler.selectAccountForApiKey, try_catch. cbv zeta.
  unfold bind at 1. rewrite Hbound.
  unfold stickyOf. unfold bind at 1.
  destruct (nonempty sessionHash).
  - unfold bind at 1. rewrite getSessionMapping_memory.
    destruct (mappingOf _ sessionHash s) as [m|].
    + unfold bind at 1. rewrite isAccountAvailable_memory.
      destruct (availableAt _ _ _ _).
      * done.
      * unfold bind at 1, _deleteSessionMapping. cbn [client_del memoryServices].
        unfold ret at 1.
        fold (withoutMapping UnifiedOpenAIScheduler.SESSION_MAPPING_PREFIX sessionHash s).
        rewrite Htail by done. by destruct (fromPool _ _ _ _) as [[?|?] ?].
    + unfold ret at 1. rewrite Htail by done. by destruct (fromPool _ _ _ _) as [[?|?] ?].
  - unfold ret at 1. rewrite Htail by done. by destruct (fromPool _ _ _ _) as [[?|?] ?].
Qed.

End OpenAIOnStore.

(** ** The pool of the OpenAI scheduler *)

Section OpenAIPoolProperties.
Context {RT : JSRuntime}.

Lemma poolEligible_spec (now : Z) (model : string) (s : SchedulerStore) (account : Account) :
  poolEligible now model (openaiAccounts s) account = true
  <-> isActive account = JStr "true"
      /\ status account <> "error"
      /\ (accountType account = "shared" \/ accountType account = "")
      /\ UnifiedOpenAIScheduler._isSchedulable (schedulable account) = true
      /\ UnifiedOpenAIScheduler.modelNotSupported model account = false
      /\ fst (UnifiedOpenAIScheduler.isAccountRateLimited now (id account) s) = Returned false.
Proof.
  unfold poolEligible. rewrite isAccountRateLimited_memory. cbn [fst].
  rewrite !andb_true_iff, !negb_true_iff, orb_true_iff, js_is_str_true, streq_false,
    streq_true.
  assert (Ht : negb (nonempty (accountType account)) = true <-> accountType account = "").
  { unfold nonempty. destruct (decide (accountType account = "")); simpl; split; congruence. }
  rewrite Ht. split.
  - intros (((((H1 & H2) & H3) & H4) & H5) & H6). rewrite H6. done.
  - intros (H1 & H2 & H3 & H4 & H5 & [= H6]). done.
Qed.

Lemma elem_of_poolOf (now : Z) (model : string) (accounts : list Account) (c : Candidate) :
  c ∈ poolOf now model accounts
  <-> exists account, account ∈ accounts
        /\ poolEligible now model accounts account = true
        /\ c = candidateOf account "openai".
Proof.
  unfold poolOf. rewrite list_elem_of_fmap. split.
  - intros (a & -> & Ha). apply list_elem_of_In, filter_In in Ha as [Ha He].
    exists a. by rewrite list_elem_of_In.
  - intros (a & Ha & He & ->). exists a. split; [done|].
    apply list_elem_of_In, filter_In. by rewrite <- list_elem_of_In.
Qed.

(** X4.  For a key without an OpenAI binding, on the store of the spec
    (where no token is expired), the candidates that
    [_getAllAvailableAccounts] returns are exactly the accounts of the
    listing that are active, not in error, shared (or of no account
    type), schedulable, not excluded by their supported models and not
    rate-limited at the time of the call; the call writes nothing. *)
Theorem openai_pool_is_the_eligible_accounts (now : Z) (key : ApiKeyData) (model : string)
    (s : SchedulerStore) :
  openaiAccountId key = "" ->
  exists pool,
    UnifiedOpenAIScheduler._getAllAvailableAccounts now key model s = (Returned pool, s)
    /\ forall c,
         c ∈ pool
         <-> exists account,
               account ∈ openaiAccounts s
               /\ c = candidateOf account "openai"
               /\ isActive account = JStr "true"
               /\ status account <> "error"
               /\ (accountType account = "shared" \/ accountType account = "")
               /\ UnifiedOpenAIScheduler._isSchedulable (schedulable account) = true
               /\ UnifiedOpenAIScheduler.modelNotSupported model account = false
               /\ fst (UnifiedOpenAIScheduler.isAccountRateLimited now (id account) s)
                  = Returned false.
Proof.
  intros Hk. exists (poolOf now model (openaiAccounts s)). split.
  - apply getAllAvailableAccounts_memory. unfold bindingTaken. by rewrite Hk.
  - intros c. rewrite elem_of_poolOf. split.
    + intros (a & Ha & He & ->). exists a. apply poolEligible_spec in He. tauto.
    + intros (a & Ha & -> & He). exists a. rewrite poolEligible_spec. tauto.
Qed.

(** The key has no dedicated OpenAI account that the binding step takes:
    it is not bound, or bound to one account that is missing, inactive or
    in error. *)
Definition servedFromPool (key : ApiKeyData) (s : SchedulerStore) : Prop :=
  startsWith "group:" (openaiAccountId key) = false
  /\ bindingTaken key (openaiAccounts s) = false.

Lemma fromPool_returned (now : Z) (sessionHash model : string) (s s1 : SchedulerStore)
    (sel : Selection) :
  fromPool now sessionHash model s = (Returned sel, s1) ->
  exists c rest,
    _sortAccountsByPriority (poolOf now model (openaiAccounts s)) = c :: rest
    /\ sel = selectionOf c
    /\ s1 = if nonempty sessionHash
            then withMapping UnifiedOpenAIScheduler.SESSION_MAPPING_PREFIX sessionHash sel s
            else s.
Proof.
  unfold fromPool. destruct (_sortAccountsByPriority _) as [|c rest]; [discriminate|].
  intros [= <- <-]. by exists c, rest.
Qed.

Lemma head_in_pool (now : Z) (model : string) (accounts : list Account) (c : Candidate)
    (rest : list Candidate) :
  _sortAccountsByPriority (poolOf now model accounts) = c :: rest ->
  exists account, account ∈ accounts
    /\ poolEligible now model accounts account = true
    /\ c = candidateOf account "openai".
Proof.
  intros Hs. apply elem_of_poolOf.
  rewrite <- (js_sort_Permutation compareAccounts). unfold _sortAccountsByPriority in Hs.
  rewrite Hs. apply list_elem_of_here.
Qed.

(** X5.  A key that the binding step does not serve is served whenever
    the pool has an eligible account: the selection returns an account
    and does not throw, whatever the session hash and its mapping. *)
Theorem openai_selection_succeeds_when_an_account_is_eligible
    (now : Z) (key : ApiKeyData) (sessionHash model : string) (s : SchedulerStore)
    (account : Account) :
  servedFromPool key s ->
  account ∈ openaiAccounts s ->
  poolEligible now model (openaiAccounts s) account = true ->
  exists sel s',
    UnifiedOpenAIScheduler.selectAccountForApiKey now key sessionHash model s
    = (Returned sel, s').
Proof.
  intros [Hg Hb] Ha He. rewrite select_pool_path by done.
  assert (Hpool : forall s0, openaiAccounts s0 = openaiAccounts s ->
            exists sel s', fromPool now sessionHash model s0 = (Returned sel, s')).
  { intros s0 Hs0. unfold fromPool. rewrite Hs0.
    destruct (_sortAccountsByPriority _) as [|c rest] eqn:Hs; [|by eexists _, _].
    assert (Hin : candidateOf account "openai" ∈ poolOf now model (openaiAccounts s)).
    { apply elem_of_poolOf. by exists account. }
    unfold _sortAccountsByPriority in Hs.
    rewrite <- (js_sort_Permutation compareAccounts), Hs in Hin.
    by apply elem_of_nil in Hin. }
  destruct (stickyOf sessionHash s) as [m|]; [|by apply Hpool].
  destruct (availableAt _ _ _ _); [by eexists _, _|by apply Hpool].
Qed.

(** X6.  When the binding step does not serve the key, the session has
    no mapping and no account of the listing is eligible, the selection
    throws ['No available OpenAI accounts support the requested model:
    <model>'], or ['No available OpenAI accounts'] when no model was
    requested, and writes nothing. *)
Theorem openai_no_eligible_account_error
    (now : Z) (key : ApiKeyData) (sessionHash model : string) (s : SchedulerStore) :
  servedFromPool key s ->
  sessionHash = "" \/
    sessions s !! (UnifiedOpenAIScheduler.SESSION_MAPPING_PREFIX +:+ sessionHash) = None ->
  (forall account, account ∈ openaiAccounts s ->
     poolEligible now model (openaiAccounts s) account = false) ->
  UnifiedOpenAIScheduler.selectAccountForApiKey now key sessionHash model s
  = (Thrown (if nonempty model
             then "No available OpenAI accounts support the requested model: " +:+ model
             else "No available OpenAI accounts"), s).
Proof.
  intros [Hg Hb] Hh Hnone. rewrite select_pool_path by done.
  assert (Hst : stickyOf sessionHash s = None).
  { unfold stickyOf, mappingOf. destruct Hh as [->|Hh]; [done|]. rewrite Hh.
    by destruct (nonempty sessionHash). }
  rewrite Hst. unfold fromPool.
  destruct (_sortAccountsByPriority _) as [|c rest] eqn:Hs; [done|].
  apply head_in_pool in Hs as (a & Ha & He & _). rewrite Hnone in He by done. discriminate.
Qed.

Lemma rankLe_refl (c : Candidate) : is_Some (lastUsedTime c) -> rankLe c c.
Proof. intros [t Ht]. right. split; [done|]. exists t, t. repeat split; auto. lia. Qed.

(** X7.  An account selected from the pool is an eligible account of the
    listing, and when every [lastUsedAt] of the pool reads as an instant
    no eligible account ranks before it: none has a lower priority, and
    none of the same priority was used earlier. *)
Theorem openai_pool_selection_is_eligible_and_best_ranked
    (now : Z) (key : ApiKeyData) (sessionHash model : string) (s s' : SchedulerStore)
    (sel : Selection) :
  servedFromPool key s ->
  sessionHash = "" \/
    sessions s !! (UnifiedOpenAIScheduler.SESSION_MAPPING_PREFIX +:+ sessionHash) = None ->
  UnifiedOpenAIScheduler.selectAccountForApiKey now key sessionHash model s
    = (Returned sel, s') ->
  exists account,
    account ∈ openaiAccounts s
    /\ poolEligible now model (openaiAccounts s) account = true
    /\ sel = {| sel_accountId := id account; sel_accountType := "openai" |}
    /\ (datesValid (poolOf now model (openaiAccounts s)) ->
        forall other, other ∈ openaiAccounts s ->
          poolEligible now model (openaiAccounts s) other = true ->
          rankLe (candidateOf account "openai") (candidateOf other "openai")).
Proof.
  intros [Hg Hb] Hh Hsel. rewrite select_pool_path in Hsel by done.
  assert (Hst : stickyOf sessionHash s = None).
  { unfold stickyOf, mappingOf. destruct Hh as [->|Hh]; [done|]. rewrite Hh.
    by destruct (nonempty sessionHash). }
  rewrite Hst in Hsel. apply fromPool_returned in Hsel as (c & rest & Hs & -> & _).
  destruct (head_in_pool _ _ _ _ _ Hs) as (a & Ha & He & ->).
  exists a. split; [done|]. split; [done|]. split; [done|].
  intros Hv b Hb' Heb.
  pose proof (js_sort_sorted _ Hv) as Hsorted. rewrite Hs in Hsorted.
  assert (Hin : candidateOf b "openai" ∈ candidateOf a "openai" :: rest).
  { unfold _sortAccountsByPriority in Hs. rewrite <- Hs, js_sort_Permutation.
    apply elem_of_poolOf. by exists b. }
  apply StronglySorted_inv in Hsorted as [_ Hall].
  apply elem_of_cons in Hin as [->|Hin].
  - apply rankLe_refl. unfold datesValid in Hv. rewrite Forall_forall in Hv. apply Hv.
    apply elem_of_poolOf. by exists a.
  - rewrite Forall_forall in Hall. by apply Hall.
Qed.

End OpenAIPoolProperties.

(** ** Sticky sessions of the OpenAI scheduler *)

Section OpenAISticky.
Context {RT : JSRuntime}.






(** The two schedulers keep their session mappings under different
    keys. *)
Lemma session_prefixes_apart (h h' : string) :
  UnifiedOpenAIScheduler.SESSION_MAPPING_PREFIX +:+ h
  <> UnifiedClaudeScheduler.SESSION_MAPPING_PREFIX +:+ h'.
Proof.
  unfold UnifiedOpenAIScheduler.SESSION_MAPPING_PREFIX,
    UnifiedClaudeScheduler.SESSION_MAPPING_PREFIX.
  simpl. discriminate.
Qed.

(** X9.  A selection that the binding step does not serve writes nothing
    but the mapping of its own session hash: the accounts and groups are
    as before, every other session mapping is as before, those of the
    Claude scheduler included, and without a session hash the store is
    untouched.  With a session hash the session is mapped to the returned
    account afterwards: either the mapping was just written, with a TTL
    of 3600 seconds, or it was there and was reused as it is. *)
Theorem openai_selection_writes_only_its_session_mapping
    (now : Z) (key : ApiKeyData) (sessionHash model : string)
    (s s1 : SchedulerStore) (sel : Selection) :
  servedFromPool key s ->
  UnifiedOpenAIScheduler.selectAccountForApiKey now key sessionHash model s
    = (Returned sel, s1) ->
  openaiAccounts s1 = openaiAccounts s
  /\ claudeAccounts s1 = claudeAccounts s
  /\ consoleAccounts s1 = consoleAccounts s
  /\ groups s1 = groups s
  /\ (forall k, k <> UnifiedOpenAIScheduler.SESSION_MAPPING_PREFIX +:+ sessionHash ->
        sessions s1 !! k = sessions s !! k)
  /\ (sessionHash = "" -> s1 = s)
  /\ (sessionHash <> "" ->
      let mapping := sessions s1
                       !! (UnifiedOpenAIScheduler.SESSION_MAPPING_PREFIX +:+ sessionHash) in
      mapping = Some (stringifySelection (sel_accountId sel) (sel_accountType sel), 3600)
      \/ (s1 = s /\ exists mappingData ttl,
            mapping = Some (mappingData, ttl) /\ parseSelection mappingData = Some sel))
  /\ (forall h, sessions s1 !! (UnifiedClaudeScheduler.SESSION_MAPPING_PREFIX +:+ h)
                = sessions s !! (UnifiedClaudeScheduler.SESSION_MAPPING_PREFIX +:+ h)).
Proof.
  intros [Hg Hb] Hsel. rewrite select_pool_path in Hsel by done.
  assert (Hpool : forall s0,
            fromPool now sessionHash model s0 = (Returned sel, s1) ->
            s1 = (if nonempty sessionHash
                  then withMapping UnifiedOpenAIScheduler.SESSION_MAPPING_PREFIX
                         sessionHash sel s0
                  else s0)).
  { intros s0 Hp. by apply fromPool_returned in Hp as (c & rest & _ & _ & ->). }
  unfold stickyOf in Hsel. destruct (nonempty sessionHash) eqn:Hh.
  - apply nonempty_true in Hh.
    assert (Hcase :
      s1 = withMapping UnifiedOpenAIScheduler.SESSION_MAPPING_PREFIX sessionHash sel s
      \/ s1 = withMapping UnifiedOpenAIScheduler.SESSION_MAPPING_PREFIX sessionHash sel
                (withoutMapping UnifiedOpenAIScheduler.SESSION_MAPPING_PREFIX sessionHash s)
      \/ (s1 = s /\ mappingOf UnifiedOpenAIScheduler.SESSION_MAPPING_PREFIX sessionHash s
                    = Some sel)).
    { destruct (mappingOf _ sessionHash s) as [m|] eqn:Hm.
      - destruct (availableAt _ _ _ _).
        + injection Hsel as <- <-. auto.
        + apply Hpool in Hsel. auto.
      - apply Hpool in Hsel. auto. }
    destruct Hcase as [->|[->|[-> Hm]]]; cbn [openaiAccounts claudeAccounts consoleAccounts
      groups sessions withMapping withoutMapping setSessions].
    + repeat split; try done.
      * intros k Hk. by rewrite lookup_insert_ne.
      * intros _. left. by rewrite lookup_insert_eq.
      * intros h. by rewrite lookup_insert_ne by apply session_prefixes_apart.
    + repeat split; try done.
      * intros k Hk. by rewrite lookup_insert_ne, lookup_delete_ne.
      * intros _. left. by rewrite lookup_insert_eq.
      * intros h. rewrite lookup_insert_ne by apply session_prefixes_apart.
        by rewrite lookup_delete_ne by apply session_prefixes_apart.
    + repeat split; try done.
      intros _. right. split; [done|]. unfold mappingOf in Hm.
      destruct (sessions s !! _) as [[v ttl]|]; [|done].
      exists v, ttl. split; [done|]. by destruct (nonempty v).
  - apply Hpool in Hsel as ->.
    repeat split; try done. intros Hne. apply nonempty_true in Hne. congruence.
Qed.

(** The same key with its OpenAI binding taken away. *)
Definition withoutOpenAIBinding (key : ApiKeyData) : ApiKeyData :=
  {| keyName := keyName key; claudeAccountId := claudeAccountId key;
     claudeConsoleAccountId := claudeConsoleAccountId key; openaiAccountId := "" |}.

(** X10.  A key bound to one account that is missing, inactive or in
    error is served exactly as the same key without the binding: the same
    account or error, and the same store. *)
Theorem openai_unusable_binding_degrades_to_pool
    (now : Z) (key : ApiKeyData) (sessionHash model : string) (s : SchedulerStore) :
  startsWith "group:" (openaiAccountId key) = false ->
  (forall boundAccount,
     findAccount (openaiAccountId key) (openaiAccounts s) = Some boundAccount ->
     isActive boundAccount <> JStr "true" \/ status boundAccount = "error") ->
  UnifiedOpenAIScheduler.selectAccountForApiKey now key sessionHash model s
  = UnifiedOpenAIScheduler.selectAccountForApiKey now (withoutOpenAIBinding key)
      sessionHash model s.
Proof.
  intros Hg Hb.
  assert (Hb' : bindingTaken key (openaiAccounts s) = false).
  { unfold bindingTaken. destruct (findAccount _ _) as [a|]; [|by rewrite andb_false_r].
    apply andb_false_iff. right. apply andb_false_iff.
    destruct (Hb a eq_refl) as [H|H].
    - left. apply not_true_iff_false. by rewrite js_is_str_true.
    - right. apply negb_false_iff. by apply streq_true. }
  rewrite !select_pool_path; done.
Qed.

End OpenAISticky.

(** ** Account groups of the OpenAI scheduler *)

Section OpenAIGroups.
Context {RT : JSRuntime}.

(** The tests a member of the group passes to become a candidate: the
    pool's, but for the account type. *)
Definition memberEligible (now : Z) (requestedModel : string) (accounts : list Account)
    (account : Account) : bool :=
  js_is_str (isActive account) "true"
  && negb (streq (status account) "error")
  && UnifiedOpenAIScheduler._isSchedulable (schedulable account)
  && negb (UnifiedOpenAIScheduler.modelNotSupported requestedModel account)
  && negb (limitedAt now accounts (id account)).

(** The candidates of a group: its eligible members, in the order of the
    member list. *)
Definition groupPoolOf (now : Z) (requestedModel : string) (accounts : list Account)
    (memberIds : list string) : list Candidate :=
  flat_map
    (fun memberId =>
       match findAccount memberId accounts with
       | Some account =>
           if memberEligible now requestedModel accounts account
           then [candidateOf account "openai"] else []
       | None => []
       end)
    memberIds.

Lemma group_loop (now : Z) (model : string) (s : SchedulerStore) (memberIds : list string)
    (acc : list Candidate) :
  for_of memberIds
    (fun memberId availableAccounts =>
       account <- openai_getAccount memberId ;;
       match account with
       | Some account =>
           if js_is_str (isActive account) "true"
              && negb (streq (status account) "error")
              && UnifiedOpenAIScheduler._isSchedulable (schedulable account)
           then UnifiedOpenAIScheduler.considerAccount now model account availableAccounts
           else ret availableAccounts
       | None => ret availableAccounts
       end)
    acc s
  = (Returned (acc ++ groupPoolOf now model (openaiAccounts s) memberIds)%list, s).
Proof.
  revert acc. induction memberIds as [|m l IH]; intros acc;
    cbn [for_of groupPoolOf flat_map].
  - unfold ret. by rewrite app_nil_r.
  - fold (groupPoolOf now model (openaiAccounts s) l).
    unfold bind at 1. unfold bind at 1. cbn [openai_getAccount memoryServices].
    destruct (findAccount m (openaiAccounts s)) as [a|].
    + unfold memberEligible.
      destruct (js_is_str _ _ && _ && _); cbn [andb].
      * rewrite considerAccount_memory.
        destruct (UnifiedOpenAIScheduler.modelNotSupported model a); cbn [negb andb];
          [by rewrite IH|].
        destruct (limitedAt now (openaiAccounts s) (id a)); cbn [negb andb];
          rewrite IH; [done|].
        by rewrite <- app_assoc.
      * unfold ret at 1. by rewrite IH.
    + unfold ret at 1. by rewrite IH.
Qed.

(** The selection among the members. *)
Definition fromGroup (now : Z) (sessionHash requestedModel : string) (group : Group)
    (memberIds : list string) (s : SchedulerStore) : outcome Selection * SchedulerStore :=
  if bool_decide (length memberIds = 0%nat)
  then (Thrown ("Group " +:+ groupName group +:+ " has no members"), s)
  else
    match _sortAccountsByPriority
            (groupPoolOf now requestedModel (openaiAccounts s) memberIds) with
    | [] => (Thrown ("No available accounts in group " +:+ groupName group), s)
    | c :: _ =>
        (Returned (selectionOf c),
         if nonempty sessionHash
         then withMapping UnifiedOpenAIScheduler.SESSION_MAPPING_PREFIX sessionHash
                (selectionOf c) s
         else s)
    end.

(** [selectAccountFromGroup] on the store of the spec. *)
Lemma selectAccountFromGroup_memory (now : Z) (groupId sessionHash model : string)
    (s : SchedulerStore) :
  UnifiedOpenAIScheduler.selectAccountFromGroup now groupId sessionHash model s
  = match groups s !! groupId with
    | None => (Thrown ("Group " +:+ groupId +:+ " not found"), s)
    | Some (group, memberIds) =>
        if negb (streq (platform group) "openai")
        then (Thrown ("Group " +:+ groupName group +:+ " is not an OpenAI group"), s)
        else
          match stickyOf sessionHash s with
          | Some mappedAccount =>
              if includes (sel_accountId mappedAccount) memberIds
                 && availableAt now (openaiAccounts s)
                      (sel_accountId mappedAccount) (sel_accountType mappedAccount)
              then (Returned mappedAccount, s)
              else fromGroup now sessionHash model group memberIds
                     (withoutMapping UnifiedOpenAIScheduler.SESSION_MAPPING_PREFIX
                        sessionHash s)
          | None => fromGroup now sessionHash model group memberIds s
          end
    end.
Proof.
  unfold UnifiedOpenAIScheduler.selectAccountFromGroup, try_catch.
  unfold bind at 1. cbn [group_getGroup memoryServices].
  destruct (groups s !! groupId) as [[group memberIds]|] eqn:Hgrp; cbn [fmap option_fmap
    option_map fst]; [|done].
  destruct (negb (streq (platform group) "openai")); [done|].
  assert (Htail : forall s0, openaiAccounts s0 = openaiAccounts s -> groups s0 = groups s ->
    (memberIds <- group_getGroupMembers groupId ;;
     if bool_decide (length memberIds = 0%nat)
     then throw ("Group " +:+ groupName group +:+ " has no members")
     else
       availableAccounts <-
         for_of memberIds
           (fun memberId availableAccounts =>
              account <- openai_getAccount memberId ;;
              match account with
              | Some account =>
                  if js_is_str (isActive account) "true"
                     && negb (streq (status account) "error")
                     && UnifiedOpenAIScheduler._isSchedulable (schedulable account)
                  then UnifiedOpenAIScheduler.considerAccount now model account
                         availableAccounts
                  else ret availableAccounts
              | None => ret availableAccounts
              end)
           [] ;;
       if bool_decide (length availableAccounts = 0%nat)
       then throw ("No available accounts in group " +:+ groupName group)
       else UnifiedOpenAIScheduler.pickFirst sessionHash availableAccounts) s0
    = fromGroup now sessionHash model group memberIds s0).
  { intros s0 Hs0 Hg0. unfold bind at 1. cbn [group_getGroupMembers memoryServices].
    rewrite Hg0, Hgrp. cbn [fmap option_fmap option_map snd from_option Datatypes.id].
    unfold fromGroup. destruct (bool_decide (length memberIds = 0%nat)); [done|].
    unfold bind at 1. rewrite group_loop. cbn [app].
    destruct (bool_decide (length (groupPoolOf now model (openaiAccounts s0) memberIds)
                           = 0%nat)) eqn:E.
    - apply bool_decide_eq_true in E. apply nil_length_inv in E. by rewrite E.
    - destruct (sorted_nonempty _ E) as (c & rest & Hs).
      rewrite (pickFirst_memory _ _ _ _ _ Hs). by rewrite Hs. }
  unfold stickyOf. unfold bind at 1.
  destruct (nonempty sessionHash).
  - unfold bind at 1. rewrite getSessionMapping_memory.
    destruct (mappingOf _ sessionHash s) as [m|].
    + unfold bind at 1. unfold UnifiedOpenAIScheduler._isAccountInGroup at 1.
      unfold bind at 1. cbn [group_getGroupMembers memoryServices].
      rewrite Hgrp. cbn [fmap option_fmap option_map snd from_option Datatypes.id]. unfold ret at 1.
      unfold bind at 1.
      destruct (includes (sel_accountId m) memberIds); cbn [andb].
      * rewrite isAccountAvailable_memory.
        destruct (availableAt _ _ _ _).
        -- done.
        -- unfold bind at 1, _deleteSessionMapping. cbn [client_del memoryServices].
           unfold ret at 1.
           fold (withoutMapping UnifiedOpenAIScheduler.SESSION_MAPPING_PREFIX sessionHash s).
           rewrite Htail by done. by destruct (fromGroup _ _ _ _ _ _) as [[?|?] ?].
      * unfold ret at 1.
        unfold bind at 1, _deleteSessionMapping. cbn [client_del memoryServices].
        unfold ret at 1.
        fold (withoutMapping UnifiedOpenAIScheduler.SESSION_MAPPING_PREFIX sessionHash s).
        rewrite Htail by done. by destruct (fromGroup _ _ _ _ _ _) as [[?|?] ?].
    + unfold ret at 1. rewrite Htail by done. by destruct (fromGroup _ _ _ _ _ _) as [[?|?] ?].
  - unfold ret at 1. rewrite Htail by done. by destruct (fromGroup _ _ _ _ _ _) as [[?|?] ?].
Qed.

Lemma groupPool_members (now : Z) (model : string) (accounts : list Account)
    (memberIds : list string) (c : Candidate) :
  c ∈ groupPoolOf now model accounts memberIds ->
  c_accountId c ∈ memberIds /\ c_accountType c = "openai"
  /\ exists account, findAccount (c_accountId c) accounts = Some account
       /\ memberEligible now model accounts account = true.
Proof.
  unfold groupPoolOf. rewrite list_elem_of_In, in_flat_map.
  intros (m & Hm & Hc). apply list_elem_of_In in Hm.
  destruct (findAccount m accounts) as [a|] eqn:Hf; [|done].
  destruct (memberEligible now model accounts a) eqn:He; [|done].
  destruct Hc as [<-|[]]. cbn [candidateOf c_accountId c_accountType].
  assert (Hid : id a = m).
  { unfold findAccount in Hf. apply find_some in Hf as [_ Hf]. by apply streq_true in Hf. }
  rewrite Hid. repeat split; [done|]. by exists a.
Qed.

(** X11.  A key bound to a group is served by a member of that group
    only: an account that the selection returns for it is in the member
    list of the group, which is an OpenAI group, has the account type
    ['openai'], and is available at the time of the call (found, active,
    not in error, schedulable and not rate-limited), whether it comes from
    the session mapping or from the ranking of the members. *)
Theorem openai_group_binding_returns_a_member
    (now : Z) (key : ApiKeyData) (groupId sessionHash model : string)
    (s s1 : SchedulerStore) (sel : Selection) :
  openaiAccountId key = "group:" +:+ groupId ->
  UnifiedOpenAIScheduler.selectAccountForApiKey now key sessionHash model s
    = (Returned sel, s1) ->
  exists group memberIds,
    groups s !! groupId = Some (group, memberIds)
    /\ platform group = "openai"
    /\ sel_accountId sel ∈ memberIds
    /\ sel_accountType sel = "openai"
    /\ availableAt now (openaiAccounts s) (sel_accountId sel) "openai" = true.
Proof.
  intros Hk Hsel. rewrite (select_group_binding _ _ groupId) in Hsel by done.
  rewrite selectAccountFromGroup_memory in Hsel.
  destruct (groups s !! groupId) as [[group memberIds]|]; [|discriminate].
  destruct (negb (streq (platform group) "openai")) eqn:Hp; [discriminate|].
  apply negb_false_iff, streq_true in Hp.
  exists group, memberIds. split; [done|]. split; [done|].
  assert (Hpool : forall s0, openaiAccounts s0 = openaiAccounts s ->
            fromGroup now sessionHash model group memberIds s0 = (Returned sel, s1) ->
            sel_accountId sel ∈ memberIds /\ sel_accountType sel = "openai"
            /\ availableAt now (openaiAccounts s) (sel_accountId sel) "openai" = true).
  { intros s0 Hs0. unfold fromGroup. destruct (bool_decide _); [discriminate|].
    rewrite Hs0.
    destruct (_sortAccountsByPriority _) as [|c rest] eqn:Hs; [discriminate|].
    intros [= <- _].
    assert (Hin : c ∈ groupPoolOf now model (openaiAccounts s) memberIds).
    { rewrite <- (js_sort_Permutation compareAccounts). unfold _sortAccountsByPriority in Hs.
      rewrite Hs. apply list_elem_of_here. }
    apply groupPool_members in Hin as (H1 & H2 & a & Hf & He).
    cbn [selectionOf sel_accountId sel_accountType]. repeat split; [done..|].
    unfold availableAt. rewrite Hf. unfold memberEligible in He.
    rewrite !andb_true_iff in He. destruct He as ((((E1 & E2) & E3) & E4) & E5).
    assert (Hid : id a = c_accountId c).
    { unfold findAccount in Hf. apply find_some in Hf as [_ Hf]. by apply streq_true in Hf. }
    rewrite Hid in E5. by rewrite E1, E2, E3, E5. }
  destruct (stickyOf sessionHash s) as [m|]; [|by apply (Hpool s)].
  destruct (includes (sel_accountId m) memberIds && _) eqn:E.
  - injection Hsel as <- <-. apply andb_true_iff in E as [E1 E2].
    apply includes_elem_of in E1.
    assert (Ht : sel_accountType m = "openai").
    { unfold availableAt in E2. apply andb_true_iff in E2 as [E2 _]. by apply streq_true. }
    rewrite Ht in E2. done.
  - by apply (Hpool (withoutMapping UnifiedOpenAIScheduler.SESSION_MAPPING_PREFIX
                       sessionHash s)).
Qed.

End OpenAIGroups.


(** ** Rate-limit marks of the OpenAI scheduler *)

Section OpenAIMarks.
Context {RT : JSRuntime}.

Lemma findAccount_onAccount (accountId : string) (f : Account -> Account)
    (accounts : list Account) :
  (forall a, id (f a) = id a) ->
  findAccount accountId (onAccount accountId f accounts)
  = f <$> findAccount accountId accounts.
Proof.
  intros Hf. unfold findAccount, onAccount.
  induction accounts as [|a l IH]; simpl; [done|].
  destruct (streq (id a) accountId) eqn:E.
  - rewrite Hf, E. done.
  - rewrite E. exact IH.
Qed.

Lemma findAccount_is_Some (accounts : list Account) (account : Account) :
  account ∈ accounts -> is_Some (findAccount (id account) accounts).
Proof.
  intros Hin. destruct (findAccount (id account) accounts) as [b|] eqn:E; [by exists b|].
  unfold findAccount in E. apply list_elem_of_In in Hin.
  pose proof (find_none _ _ E _ Hin) as H. simpl in H.
  by rewrite (proj2 (streq_true _ _) eq_refl) in H.
Qed.

(** [markAccountRateLimited] on the store of the spec. *)
Lemma markAccountRateLimited_memory (accountId sessionHash : string) (s : SchedulerStore) :
  UnifiedOpenAISchedulerWriters.markAccountRateLimited accountId "openai" sessionHash s
  = (Returned tt,
     let s1 := setOpenaiAccounts
                 (onAccount accountId (markLimited (Date_toISOString (clock s)))
                    (openaiAccounts s)) s in
     if nonempty sessionHash
     then withoutMapping UnifiedOpenAIScheduler.SESSION_MAPPING_PREFIX sessionHash s1
     else s1).
Proof.
  unfold UnifiedOpenAISchedulerWriters.markAccountRateLimited, try_catch, bind, ret.
  cbn. by destruct (nonempty sessionHash).
Qed.

Lemma marked_limited (now : Z) (accountId : string) (accounts : list Account) (t : Z) :
  Date_toISOString t <> "" ->
  Date_parse (Date_toISOString t) = Some t ->
  now < t + 60 * 60 * 1000 ->
  is_Some (findAccount accountId
             (onAccount accountId (markLimited (Date_toISOString t)) accounts)) ->
  limitedAt now (onAccount accountId (markLimited (Date_toISOString t)) accounts) accountId
  = true.
Proof.
  intros Hne Hp Hlt. unfold limitedAt. rewrite findAccount_onAccount by done.
  destruct (findAccount accountId accounts) as [a|]; cbn [fmap option_fmap option_map];
    [|by intros [? ?]].
  intros _. cbn [markLimited rateLimitStatus rateLimitedAt].
  apply nonempty_true in Hne. rewrite Hne, Hp. cbn.
  apply bool_decide_eq_true. unfold UnifiedOpenAIScheduler.limitDuration. lia.
Qed.

(** X12.  An account marked rate-limited is not handed out within the
    hour.  On the store of the spec, [markAccountRateLimited] of an OpenAI
    account returns and removes the mapping of the session hash it is
    given; and for a key without an OpenAI binding no selection made
    before the hour is over returns the marked account, whatever session
    hash and model it is made for.  The runtime reads back the instant it
    printed. *)
Theorem openai_marked_account_is_not_selected
    (now : Z) (key : ApiKeyData) (accountId sessionHash sessionHash' model : string)
    (s : SchedulerStore) :
  openaiAccountId key = "" ->
  Date_toISOString (clock s) <> "" ->
  Date_parse (Date_toISOString (clock s)) = Some (clock s) ->
  now < clock s + 60 * 60 * 1000 ->
  exists s1,
    UnifiedOpenAISchedulerWriters.markAccountRateLimited accountId "openai" sessionHash s
      = (Returned tt, s1)
    /\ (sessionHash <> "" ->
        fst (_getSessionMapping UnifiedOpenAIScheduler.SESSION_MAPPING_PREFIX sessionHash s1)
        = Returned None)
    /\ forall sel s2,
         UnifiedOpenAIScheduler.selectAccountForApiKey now key sessionHash' model s1
           = (Returned sel, s2) ->
         sel_accountId sel <> accountId.
Proof.
  intros Hk Hne Hp Hlt. rewrite markAccountRateLimited_memory. eexists. split; [reflexivity|].
  cbv zeta.
  set (accounts1 := onAccount accountId (markLimited (Date_toISOString (clock s)))
                      (openaiAccounts s)).
  set (s1 := if nonempty sessionHash then _ else _).
  assert (Hacc : openaiAccounts s1 = accounts1).
  { unfold s1. by destruct (nonempty sessionHash). }
  split.
  - intros Hh. apply nonempty_true in Hh. rewrite getSessionMapping_memory. cbn [fst].
    unfold s1, mappingOf. rewrite Hh. cbn [sessions withoutMapping setSessions].
    by rewrite lookup_delete_eq.
  - intros sel s2 Hsel Hid.
    assert (Hlim : is_Some (findAccount accountId accounts1) ->
                   limitedAt now accounts1 accountId = true).
    { by apply marked_limited. }
    rewrite select_pool_path in Hsel.
    2: { by rewrite Hk. }
    2: { unfold bindingTaken. by rewrite Hk. }
    rewrite Hacc in Hsel.
    assert (Hpool : forall s0, openaiAccounts s0 = accounts1 ->
              fromPool now sessionHash' model s0 = (Returned sel, s2) -> False).
    { intros s0 Hs0 Hp0. apply fromPool_returned in Hp0 as (c & rest & Hs & Hc & _).
      rewrite Hs0 in Hs. apply head_in_pool in Hs as (a & Ha & He & ->).
      rewrite Hc in Hid. cbn in Hid.
      unfold poolEligible in He. rewrite !andb_true_iff in He.
      destruct He as (_ & He). rewrite Hid, Hlim in He; [done|].
      rewrite <- Hid. by apply findAccount_is_Some. }
    destruct (stickyOf sessionHash' s1) as [m|]; [|by apply (Hpool s1)].
    destruct (availableAt now accounts1 _ _) eqn:Hav.
    + injection Hsel as <- <-. unfold availableAt in Hav. rewrite Hid in Hav.
      apply andb_true_iff in Hav as [_ Hav].
      destruct (findAccount accountId accounts1) as [b|] eqn:Hf; [|done].
      rewrite !andb_true_iff in Hav. destruct Hav as (_ & Hav).
      rewrite Hlim in Hav; [done|]. by eexists.
    + eapply Hpool; [|exact Hsel]. by rewrite <- Hacc.
Qed.

End OpenAIMarks.

Section WriterErrors.
Context {RT : JSRuntime} {S : Type} {SV : Services S} {AW : AccountWriters S}.

(** X13.  The writers and failures of the account service.
    [updateAccountLastUsed] always returns: an error of the account service
    does not reach the caller.  [markAccountRateLimited] passes such an
    error on, and then has not removed the session mapping: the store is
    as the failed write left it.  [removeAccountRateLimit] of an account
    type other than ['openai'] returns and writes nothing. *)
Theorem openai_writer_errors (now : Z) (accountId accountType sessionHash : string) (s : S) :
  (exists s', UnifiedOpenAISchedulerWriters.updateAccountLastUsed now accountId accountType s
              = (Returned tt, s'))
  /\ (forall e s1,
        openai_setAccountRateLimited accountId true s = (Thrown e, s1) ->
        UnifiedOpenAISchedulerWriters.markAccountRateLimited accountId "openai" sessionHash s
        = (Thrown e, s1))
  /\ (accountType <> "openai" ->
      UnifiedOpenAISchedulerWriters.removeAccountRateLimit accountId accountType s
      = (Returned tt, s)).
Proof.
  repeat split.
  - unfold UnifiedOpenAISchedulerWriters.updateAccountLastUsed, try_catch.
    destruct (streq accountType "openai").
    + destruct (openai_updateLastUsedAt _ _ s) as [[[]|e] s']; by eexists.
    + by eexists.
  - intros e s1 H.
    unfold UnifiedOpenAISchedulerWriters.markAccountRateLimited, try_catch, bind.
    change (streq "openai" "openai") with true. cbv iota. by rewrite H.
  - intros Ht. apply streq_false in Ht.
    unfold UnifiedOpenAISchedulerWriters.removeAccountRateLimit, try_catch, bind.
    by rewrite Ht.
Qed.

End WriterErrors.

(** ** Rate limits and the Claude scheduler *)

Section ClaudeLimits.
Context {RT : JSRuntime}.

(** The Claude OAuth account of that id is marked limited and its hour is
    not over on the clock of the account service. *)
Definition claudeLimited (accountId : string) (s : SchedulerStore) : Prop :=
  exists account,
    findAccount accountId (claudeAccounts s) = Some account
    /\ rateLimitStatus account = "limited"
    /\ num_lt (Some (clock s))
         (num_add (Date_parse (rateLimitedAt account)) (Some (60 * 60 * 1000))) = true.

Lemma findAccount_other (accountId other : string) (f : Account -> Account)
    (accounts : list Account) :
  (forall a, id (f a) = id a) -> other <> accountId ->
  findAccount accountId (map (fun b => if streq (id b) other then f b else b) accounts)
  = findAccount accountId accounts.
Proof.
  intros Hf Hne. unfold findAccount. induction accounts as [|a l IH]; simpl; [done|].
  destruct (streq (id a) other) eqn:Ho.
  - rewrite Hf. apply streq_true in Ho.
    rewrite (proj2 (streq_false (id a) accountId)) by congruence. exact IH.
  - destruct (streq (id a) accountId); [done|exact IH].
Qed.

(** A rate-limit read of any Claude OAuth account leaves the limited one
    limited, and of the limited one it answers [true]. *)
Lemma claude_read_keeps_limited (accountId i : string) (s s1 : SchedulerStore) (r : bool) :
  claudeLimited accountId s ->
  claude_isAccountRateLimited i s = (Returned r, s1) ->
  claudeLimited accountId s1 /\ (i = accountId -> r = true).
Proof.
  intros (a & Hf & Hst & Hlt). cbn [claude_isAccountRateLimited memoryServices].
  assert (Hsame : claudeLimited accountId (setClaudeAccounts (claudeAccounts s) s)).
  { by exists a. }
  unfold readRateLimit. destruct (decide (i = accountId)) as [->|Hne].
  - rewrite Hf, (proj2 (streq_true _ _) Hst), Hlt. cbv iota beta. by intros [= <- <-].
  - destruct (findAccount i (claudeAccounts s)) as [b|]; cbv iota beta.
    + destruct (streq (rateLimitStatus b) "limited"); cbv iota beta.
      * destruct (num_lt _ (num_add (Date_parse (rateLimitedAt b)) _)); cbv iota beta.
        -- by intros [= <- <-].
        -- intros [= <- <-]. split; [|done]. exists a.
           cbn [claudeAccounts setClaudeAccounts clock]. by rewrite findAccount_other.
      * by intros [= <- <-].
    + by intros [= <- <-].
Qed.

Lemma console_read_keeps_limited (accountId i : string) (s s1 : SchedulerStore) (r : bool) :
  claudeLimited accountId s ->
  console_isAccountRateLimited i s = (Returned r, s1) ->
  claudeLimited accountId s1.
Proof.
  intros HJ. cbn [console_isAccountRateLimited memoryServices].
  destruct (readRateLimit _ _ _) as [r' l]. by intros [= <- <-].
Qed.

(** A loop keeps what each of its turns keeps, of the store and of the
    accumulator. *)
Lemma for_of_invariant_state {A B} (J : SchedulerStore -> Prop) (P : B -> Prop)
    (body : A -> B -> io SchedulerStore B) (l : list A) (acc r : B)
    (s s' : SchedulerStore) :
  (forall x b b' s0 s1, J s0 -> P b -> body x b s0 = (Returned b', s1) -> J s1 /\ P b') ->
  J s -> P acc -> for_of l body acc s = (Returned r, s') -> J s' /\ P r.
Proof.
  intros Hbody. revert acc s. induction l as [|x l IH]; intros acc s HJ Hacc; simpl.
  - by intros [-> <-]%ret_returned.
  - intros (b & s1 & Hb & Hrest)%bind_returned.
    destruct (Hbody _ _ _ _ _ HJ Hacc Hb) as [HJ1 Hb1]. by eapply IH.
Qed.

(** The candidate is not the limited account. *)
Definition notThe (accountId : string) (c : Candidate) : Prop :=
  c_accountType c = "claude-official" -> c_accountId c <> accountId.

(** The pool of an unbound key. *)
Lemma claude_pool_skips_limited (accountId : string) (key : ApiKeyData) (model : string)
    (s s' : SchedulerStore) (l : list Candidate) :
  claudeAccountId key = "" -> claudeConsoleAccountId key = "" ->
  claudeLimited accountId s ->
  UnifiedClaudeScheduler._getAllAvailableAccounts key model s = (Returned l, s') ->
  Forall (notThe accountId) l.
Proof.
  intros Hk1 Hk2 HJ. unfold UnifiedClaudeScheduler._getAllAvailableAccounts. cbv zeta.
  rewrite Hk1, Hk2. change (nonempty "") with false. cbv iota.
  intros (early1 & s1 & [<- <-]%ret_returned & H)%bind_returned.
  apply bind_returned in H as (early2 & s2 & [<- <-]%ret_returned & H).
  apply bind_returned in H as (accounts & s3 & Hlist & H).
  cbn [redis_getAllClaudeAccounts memoryServices] in Hlist. injection Hlist as <- <-.
  apply bind_returned in H as (l1 & s4 & Hl1 & H).
  apply bind_returned in H as (consoleList & s5 & Hlist & H).
  cbn [console_getAllAccounts memoryServices] in Hlist. injection Hlist as <- <-.
  assert (H1 : claudeLimited accountId s4 /\ Forall (notThe accountId) l1).
  { eapply (for_of_invariant_state (claudeLimited accountId) (Forall (notThe accountId)));
      [|exact HJ|constructor|exact Hl1].
    intros account b b' s0 s0' HJ0 Hb Hbody. cbv beta in Hbody.
    destruct (_ && _ && _ && _ && _); [|by apply ret_returned in Hbody as [<- <-]].
    apply bind_returned in Hbody as (limited & s6 & Hread & Hbody).
    destruct (claude_read_keeps_limited _ _ _ _ _ HJ0 Hread) as [HJ6 Htrue].
    destruct limited; cbn [negb] in Hbody; apply ret_returned in Hbody as [<- <-];
      [done|].
    split; [done|]. apply Forall_app. split; [done|]. apply Forall_singleton.
    intros _ Hid. cbn in Hid. by specialize (Htrue Hid). }
  destruct H1 as [HJ4 H1].
  eapply (for_of_invariant_state (fun _ => True) (Forall (notThe accountId)));
    [|done|exact H1|exact H].
  intros account b b' s0 s0' _ Hb Hbody. cbv beta in Hbody. split; [done|].
  destruct (_ && _ && _ && _); [|by apply ret_returned in Hbody as [<- _]].
  destruct (UnifiedClaudeScheduler.modelNotSupported _ _);
    [by apply ret_returned in Hbody as [<- _]|].
  apply bind_returned in Hbody as (limited & s6 & _ & Hbody).
  destruct limited; cbn [negb] in Hbody; apply ret_returned in Hbody as [<- _]; [done|].
  apply Forall_app. split; [done|]. apply Forall_singleton. intros Ht. discriminate Ht.
Qed.

(** X14.  The Claude scheduler hands a rate-limited account to no
    unbound key.  On the store of the spec, while a Claude OAuth account
    is marked limited and its hour is not over, a selection for a key
    without a Claude binding does not return that account, neither from
    the session mapping nor from the pool, whatever session hash and
    model it is made for.  (A key bound to the account does get it, as
    the first claim shows.) *)
Theorem claude_limited_account_is_not_selected
    (accountId : string) (key : ApiKeyData) (sessionHash model : string)
    (s s' : SchedulerStore) (sel : Selection) :
  claudeAccountId key = "" -> claudeConsoleAccountId key = "" ->
  claudeLimited accountId s ->
  UnifiedClaudeScheduler.selectAccountForApiKey key sessionHash model s
    = (Returned sel, s') ->
  sel <> {| sel_accountId := accountId; sel_accountType := "claude-official" |}.
Proof.
  intros Hk1 Hk2 HJ H%rethrow_returned. rewrite Hk1, Hk2 in H.
  change (nonempty "") with false in H. cbv iota in H.
  apply bind_returned in H as (bound1 & s1 & [<- <-]%ret_returned & H).
  apply bind_returned in H as (bound2 & s2 & [<- <-]%ret_returned & H).
  apply bind_returned in H as (sticky & s3 & Hsticky & H).
  assert (Hpool : forall s0, claudeLimited accountId s0 ->
    (availableAccounts <- UnifiedClaudeScheduler._getAllAvailableAccounts key model ;;
     if bool_decide (length availableAccounts = 0%nat) then
       if nonempty model
       then throw ("No available Claude accounts support the requested model: " +:+ model)
       else throw "No available Claude accounts (neither official nor console)"
     else
       let sortedAccounts := _sortAccountsByPriority availableAccounts in
       match sortedAccounts with
       | [] => throw "TypeError: Cannot read properties of undefined"
       | selectedAccount :: _ =>
           (if nonempty sessionHash
            then _setSessionMapping UnifiedClaudeScheduler.SESSION_MAPPING_PREFIX sessionHash
                   (c_accountId selectedAccount) (c_accountType selectedAccount)
            else ret tt) ;;;
           ret {| sel_accountId := c_accountId selectedAccount;
                  sel_accountType := c_accountType selectedAccount |}
       end) s0 = (Returned sel, s') ->
    sel <> {| sel_accountId := accountId; sel_accountType := "claude-official" |}).
  { intros s0 HJ0 Hp. apply bind_returned in Hp as (l & s4 & Hl & Hp).
    destruct (bool_decide (length l = 0%nat)).
    { destruct (nonempty model); discriminate. }
    cbv zeta in Hp.
    destruct (_sortAccountsByPriority l) as [|c rest] eqn:Hs; [discriminate|].
    apply bind_returned in Hp as (u & s5 & _ & [<- _]%ret_returned).
    apply (claude_pool_skips_limited accountId) in Hl; [|done..].
    unfold _sortAccountsByPriority in Hs.
    rewrite <- (js_sort_Permutation compareAccounts), Hs in Hl.
    apply Forall_cons in Hl as [Hc _]. intros [= Hid Ht]. by apply Hc. }
  destruct (nonempty sessionHash).
  - apply bind_returned in Hsticky as (om & s4 & Hget & Hsticky).
    pose proof (getSessionMapping_state
                  UnifiedClaudeScheduler.SESSION_MAPPING_PREFIX sessionHash s) as Hst.
    rewrite Hget in Hst. cbn [snd] in Hst. subst s4.
    destruct om as [m|].
    + apply bind_returned in Hsticky as (avail & s5 & Hav & Hsticky).
      assert (Hav' : claudeLimited accountId s5
                     /\ (avail = true ->
                         m <> {| sel_accountId := accountId;
                                 sel_accountType := "claude-official" |})).
      { revert Hav. unfold UnifiedClaudeScheduler._isAccountAvailable, try_catch.
        destruct (streq (sel_accountType m) "claude-official") eqn:Ht.
        - unfold bind at 1. cbn [redis_getClaudeAccount memoryServices].
          destruct (findAccount _ _) as [a|]; [|intros [= <- <-]; by split].
          destruct (negb _ || _); [intros [= <- <-]; by split|].
          destruct (js_is_str _ _); [intros [= <- <-]; by split|].
          unfold bind.
          destruct (claude_isAccountRateLimited (sel_accountId m) s) as [[r|e] s6] eqn:Hread.
          2: { cbn [claude_isAccountRateLimited memoryServices] in Hread.
               destruct (readRateLimit _ _ _). discriminate. }
          destruct (claude_read_keeps_limited _ _ _ _ _ HJ Hread) as [HJ6 Htrue].
          intros [= <- <-]. split; [done|]. intros Hr Hm. rewrite Hm in Htrue.
          cbn in Htrue. rewrite Htrue in Hr by done. discriminate.
        - intros Hav. split.
          + destruct (streq (sel_accountType m) "claude-console").
            * revert Hav. unfold bind at 1. cbn [console_getAccount memoryServices].
              destruct (findAccount _ _) as [a|]; [|intros [= <- <-]; done].
              destruct (negb _ || _); [intros [= <- <-]; done|].
              destruct (js_is_bool _ _); [intros [= <- <-]; done|].
              unfold bind.
              destruct (console_isAccountRateLimited (sel_accountId m) s)
                as [[r|e] s6] eqn:Hread.
              -- intros [= <- <-]. by eapply console_read_keeps_limited.
              -- cbn [console_isAccountRateLimited memoryServices] in Hread.
                 destruct (readRateLimit _ _ _). discriminate.
            * by injection Hav as <- <-.
          + intros _ Hm. rewrite Hm in Ht. cbn in Ht.
            by rewrite (proj2 (streq_true _ _) eq_refl) in Ht. }
      destruct Hav' as [HJ5 Hne]. destruct avail.
      * apply ret_returned in Hsticky as [<- <-]. apply ret_returned in H as [<- _].
        by apply Hne.
      * apply bind_returned in Hsticky as (u & s6 & Hdel & [<- <-]%ret_returned).
        apply (Hpool s6); [|done].
        unfold _deleteSessionMapping in Hdel. cbn [client_del memoryServices] in Hdel.
        apply (f_equal snd) in Hdel. cbn [snd] in Hdel. subst s6.
        destruct HJ5 as (a & ? & ? & ?). by exists a.
    + apply ret_returned in Hsticky as [<- <-]. by apply (Hpool s).
  - apply ret_returned in Hsticky as [<- <-]. by apply (Hpool s).
Qed.

End ClaudeLimits.

(** * Further properties of the key service *)

(** ** Validation and updates against any store *)

Section ValidationAnyStore.
Context {RT : JSRuntime} {S : Type} {RD : Redis S} (config : Config).

(** X15.  A secret that is empty or does not start with the configured
    prefix is refused with ['Invalid API key format'] before the store is
    asked: whatever the store would do, it is as before. *)
Theorem validateApiKey_refuses_malformed_key_before_the_store
    (now : Z) (apiKey : string) (s : S) :
  apiKey = "" \/ startsWith (ApiKeyService.prefix config) apiKey = false ->
  ApiKeyService.validateApiKey config now apiKey s
  = (Returned (Invalid "Invalid API key format"), s).
Proof.
  intros H. unfold ApiKeyService.validateApiKey, try_catch.
  destruct H as [->|H]; [done|]. rewrite H. by rewrite orb_true_r.
Qed.

(** The handler of [validateApiKey] returns. *)
Lemma validateApiKey_returns (now : Z) (apiKey : string) (s : S) :
  exists validation s',
    ApiKeyService.validateApiKey config now apiKey s = (Returned validation, s').
Proof.
  unfold ApiKeyService.validateApiKey, try_catch.
  match goal with
  | |- context [match ?body s with _ => _ end] => destruct (body s) as [[v|e] s']
  end; by eexists _, _.
Qed.

(** X16.  [validateApiKey] never throws.  Whatever the store does, it
    returns a verdict; and when the lookup of the hashed secret fails the
    verdict is ['Internal validation error'], with the store as the failed
    lookup left it. *)
Theorem validateApiKey_never_throws (now : Z) (apiKey : string) (s : S) :
  (exists validation s',
     ApiKeyService.validateApiKey config now apiKey s = (Returned validation, s'))
  /\ (apiKey <> "" ->
      startsWith (ApiKeyService.prefix config) apiKey = true ->
      forall e s1,
        redis_findApiKeyByHash (ApiKeyService._hashApiKey config apiKey) s = (Thrown e, s1) ->
        ApiKeyService.validateApiKey config now apiKey s
        = (Returned (Invalid "Internal validation error"), s1)).
Proof.
  split.
  - apply validateApiKey_returns.
  - intros Hne Hpre e s1 Hfind. apply nonempty_true in Hne.
    unfold ApiKeyService.validateApiKey, try_catch, bind. rewrite Hne, Hpre. cbn [negb orb].
    by rewrite Hfind.
Qed.

(** X17.  [validateApiKey] accepts active, unexpired keys only.  When it
    returns a valid verdict, the secret has the configured prefix, the
    store resolved its hash to a record whose [isActive] is ['true'] and
    whose [expiresAt], if set and an instant, is not before the time of
    the call; and the id of the verdict is the id of that record. *)
Theorem validateApiKey_accepts_only_active_unexpired_keys
    (now : Z) (apiKey : string) (s s' : S) (vk : ValidatedKey) :
  ApiKeyService.validateApiKey config now apiKey s = (Returned (Valid vk), s') ->
  exists keyData s1,
    apiKey <> ""
    /\ startsWith (ApiKeyService.prefix config) apiKey = true
    /\ redis_findApiKeyByHash (ApiKeyService._hashApiKey config apiKey) s
       = (Returned (Some keyData), s1)
    /\ fieldOf keyData "isActive" = "true"
    /\ (forall expiry,
          fieldOf keyData "expiresAt" <> "" ->
          Date_parse (fieldOf keyData "expiresAt") = Some expiry ->
          now <= expiry)
    /\ vk_id vk = keyData !! "id".
Proof.
  unfold ApiKeyService.validateApiKey, try_catch.
  match goal with
  | |- context [match ?body s with _ => _ end] => destruct (body s) as [[v|e] s0] eqn:Hbody
  end; [|discriminate].
  intros [= -> ->].
  destruct (nonempty apiKey) eqn:Hne; [|discriminate].
  destruct (startsWith _ apiKey) eqn:Hpre; [|discriminate].
  cbn [negb orb] in Hbody. cbv zeta in Hbody.
  apply bind_returned in Hbody as (keyData & s1 & Hfind & Hbody).
  destruct keyData as [keyData|]; [|discriminate].
  destruct (streq (fieldOf keyData "isActive") "true") eqn:Hact; [|discriminate].
  cbn [negb] in Hbody.
  destruct (nonempty (fieldOf keyData "expiresAt") && _) eqn:Hexp; [discriminate|].
  apply bind_returned in Hbody as (usage & s2 & _ & Hbody).
  apply bind_returned in Hbody as (dailyCost & s3 & _ & Hbody).
  apply ret_returned in Hbody as [[= <-] _].
  exists keyData, s1. apply nonempty_true in Hne. apply streq_true in Hact.
  repeat split; try done.
  intros expiry Hset Hp. apply nonempty_true in Hset. rewrite Hset, Hp in Hexp.
  cbn [andb] in Hexp. apply not_true_iff_false in Hexp. rewrite num_gt_true in Hexp. lia.
Qed.

(** X18.  An update of a key that the store does not know, or of which
    it holds an empty record, throws ['API key not found'] and writes
    nothing: the store is as the read left it. *)
Theorem updateApiKey_unknown_key_throws (now : Z) (keyId : string)
    (updates : list (string * jsval)) (s s1 : S) :
  redis_getApiKey keyId s = (Returned None, s1)
  \/ redis_getApiKey keyId s = (Returned (Some ∅), s1) ->
  ApiKeyService.updateApiKey now keyId updates s = (Thrown "API key not found", s1).
Proof.
  unfold ApiKeyService.updateApiKey, try_catch, bind. intros [-> | ->]; done.
Qed.

End ValidationAnyStore.

(** ** Listing and the key-id route against any store *)

Section AdminAnyStore.
Context {RT : JSRuntime} {S : Type} {RD : Redis S} {RA : RedisAdmin S} (config : Config).

(** X19.  The listing of the keys never shows a hashed secret.  Whatever
    the store answers, every entry that [getAllApiKeys] returns has no
    [apiKey] property, and the entries are those of the store's listing,
    in its order, each with the [id] of its record. *)
Theorem getAllApiKeys_never_lists_the_hashed_secret
    (s s' : S) (listed : list (gmap string jsval)) :
  ApiKeyServiceAdmin.getAllApiKeys s = (Returned listed, s') ->
  Forall (fun key => key !! "apiKey" = None) listed
  /\ exists apiKeys s1,
       redis_getAllApiKeys s = (Returned apiKeys, s1)
       /\ map (.!! "id") listed = map (fun key => JStr <$> key !! "id") apiKeys.
Proof.
  intros H%rethrow_returned. apply bind_returned in H as (apiKeys & s1 & Hall & H).
  split.
  - eapply (for_of_invariant (Forall (fun key => key !! "apiKey" = None)));
      [|constructor|exact H].
    intros key b b' s0 s2 Hb Hbody. cbv beta in Hbody.
    apply bind_returned in Hbody as (usage & s3 & _ & Hbody).
    apply bind_returned in Hbody as (conc & s4 & _ & Hbody).
    apply bind_returned in Hbody as (cost & s5 & _ & [<- _]%ret_returned).
    apply Forall_app. split; [done|]. apply Forall_singleton.
    unfold ApiKeyServiceAdmin.listedKey. cbv zeta. apply lookup_delete_eq.
  - exists apiKeys, s1. split; [done|].
    assert (Hgen : forall (l : list KeyData) acc r s0 s2,
      for_of l
        (fun key listed =>
           usage <- redis_getUsageStats (fieldOf key "id") ;;
           currentConcurrency <- redis_getConcurrency (fieldOf key "id") ;;
           dailyCost <- redis_getDailyCost (fieldOf key "id") ;;
           ret (listed ++ [ApiKeyServiceAdmin.listedKey key usage currentConcurrency
                             dailyCost])%list)
        acc s0 = (Returned r, s2) ->
      map (.!! "id") r
      = (map (.!! "id") acc ++ map (fun key : KeyData => JStr <$> key !! "id") l)%list).
    { induction l as [|key l IH]; intros acc r s0 s2; cbn [for_of].
      - intros [<- _]%ret_returned. by rewrite app_nil_r.
      - intros (b & s3 & Hbody & Hrest)%bind_returned.
        apply bind_returned in Hbody as (usage & s4 & _ & Hbody).
        apply bind_returned in Hbody as (conc & s5 & _ & Hbody).
        apply bind_returned in Hbody as (cost & s6 & _ & [<- _]%ret_returned).
        rewrite (IH _ _ _ _ Hrest), map_app, <- app_assoc. f_equal. cbn [map app]. f_equal.
        unfold ApiKeyServiceAdmin.listedKey. cbv zeta.
        rewrite lookup_delete_ne by done.
        repeat (rewrite lookup_insert_ne by done). by rewrite lookup_fmap. }
    exact (Hgen _ _ _ _ _ H).
Qed.

(** The handler on a request that has a body. *)
Lemma getKeyId_with_body (now : Z) (body : jsval) (s : S) :
  body <> JUndefined -> body <> JNull ->
  ApiStats.getKeyId config now body s
  = match js_get body "apiKey" with
    | JStr apiKey =>
        if bool_decide (10 <= js_length apiKey <= 512) then
          match ApiKeyService.validateApiKey config now apiKey s with
          | (Returned (Invalid error), s1) =>
              (Returned (401, ApiStats.errorBody "Invalid API key" error), s1)
          | (Returned (Valid keyData), s1) =>
              (Returned (200, JObj [("success", JBool true);
                                    ("data", JObj [("id", ApiStats.js_optional (vk_id keyData))])]),
               s1)
          | (Thrown _, s1) =>
              (Returned (500, ApiStats.errorBody "Internal server error"
                                "Failed to retrieve API key ID"), s1)
          end
        else
          (Returned (400, if truthy (JStr apiKey)
                          then ApiStats.errorBody "Invalid API key format"
                                 "API key format is invalid"
                          else ApiStats.errorBody "API Key is required"
                                 "Please provide your API Key"), s)
    | v =>
        (Returned (400, if truthy v
                        then ApiStats.errorBody "Invalid API key format"
                               "API key format is invalid"
                        else ApiStats.errorBody "API Key is required"
                               "Please provide your API Key"), s)
    end.
Proof.
  intros Hu Hn. unfold ApiStats.getKeyId, try_catch. unfold bind at 1.
  assert (Hd : @js_destructure S body "apiKey" s = (Returned (js_get body "apiKey"), s))
    by (destruct body; done).
  rewrite Hd.
  destruct (js_get body "apiKey") as [| |b|q| |apiKey|l|o]; try done.
  - by destruct b.
  - unfold truthy. by destruct (decide (q = 0%Qc)).
  - destruct (truthy (JStr apiKey)) eqn:Ht; cbn [negb].
    2: { unfold truthy in Ht. destruct (decide (apiKey = "")) as [->|]; [|done].
         by rewrite bool_decide_eq_false_2 by (cbn; lia). }
    destruct (bool_decide (js_length apiKey < 10)) eqn:Hlo; cbn [orb].
    { apply bool_decide_eq_true in Hlo. by rewrite bool_decide_eq_false_2 by lia. }
    apply bool_decide_eq_false in Hlo.
    destruct (bool_decide (512 < js_length apiKey)) eqn:Hhi.
    { apply bool_decide_eq_true in Hhi. by rewrite bool_decide_eq_false_2 by lia. }
    apply bool_decide_eq_false in Hhi. rewrite bool_decide_eq_true_2 by lia.
    unfold bind. by destruct (ApiKeyService.validateApiKey config now apiKey s) as [[[?|?]|?] ?].
Qed.

(** X20.  The answers of [POST /api/get-key-id], whatever the store
    does.  The handler always answers, and each status in exactly one
    case: 500 when the request has no body ([undefined] or [null], on
    which the destructuring throws) and in no other case, since validation
    does not throw; 400 when the body holds no [apiKey] that is a string
    of 10 to 512 code units; 401 when [validateApiKey] refuses such a
    string; 200 when it accepts it.  A 500 and a 400 are answered before
    the store is asked, the 400 with ['API Key is required'] for a falsy
    [apiKey] and ['Invalid API key format'] otherwise; a 401 carries the
    error of the verdict and a 200 the id of the validated key. *)
Theorem getKeyId_answers (now : Z) (body : jsval) (s : S) :
  exists status payload s',
    ApiStats.getKeyId config now body s = (Returned (status, payload), s')
    /\ (status = 500 <-> body = JUndefined \/ body = JNull)
    /\ (status = 400 <->
        body <> JUndefined /\ body <> JNull
        /\ forall apiKey, js_get body "apiKey" = JStr apiKey ->
                          ~ (10 <= js_length apiKey <= 512))
    /\ (status = 401 <->
        exists apiKey error,
          js_get body "apiKey" = JStr apiKey /\ 10 <= js_length apiKey <= 512
          /\ fst (ApiKeyService.validateApiKey config now apiKey s) = Returned (Invalid error))
    /\ (status = 200 <->
        exists apiKey keyData,
          js_get body "apiKey" = JStr apiKey /\ 10 <= js_length apiKey <= 512
          /\ fst (ApiKeyService.validateApiKey config now apiKey s) = Returned (Valid keyData))
    /\ (status = 500 ->
        s' = s
        /\ payload = ApiStats.errorBody "Internal server error" "Failed to retrieve API key ID")
    /\ (status = 400 ->
        s' = s
        /\ payload = if truthy (js_get body "apiKey")
                     then ApiStats.errorBody "Invalid API key format" "API key format is invalid"
                     else ApiStats.errorBody "API Key is required"
                            "Please provide your API Key")
    /\ (forall apiKey validation s1,
          js_get body "apiKey" = JStr apiKey -> 10 <= js_length apiKey <= 512 ->
          ApiKeyService.validateApiKey config now apiKey s = (Returned validation, s1) ->
          s' = s1
          /\ payload = match validation with
                       | Invalid error => ApiStats.errorBody "Invalid API key" error
                       | Valid keyData =>
                           JObj [("success", JBool true);
                                 ("data", JObj [("id", ApiStats.js_optional (vk_id keyData))])]
                       end).
Proof.
  assert (Hnull : body = JUndefined \/ body = JNull ->
            ApiStats.getKeyId config now body s
            = (Returned (500, ApiStats.errorBody "Internal server error"
                                "Failed to retrieve API key ID"), s)).
  { by intros [->| ->]. }
  assert (Hcases : (body = JUndefined \/ body = JNull)
                   \/ (body <> JUndefined /\ body <> JNull)).
  { destruct body; auto; right; split; discriminate. }
  destruct Hcases as [Hb|[Hu Hn]].
  { rewrite (Hnull Hb). eexists _, _, _. split; [reflexivity|].
    assert (Hget : js_get body "apiKey" = JUndefined) by (by destruct Hb as [->| ->]).
    rewrite Hget.
    split; [done|]. split; [split; [discriminate|]; intros (H1 & H2 & _); by destruct Hb|].
    split; [split; [discriminate|]; by intros (? & ? & [=] & _)|].
    split; [split; [discriminate|]; by intros (? & ? & [=] & _)|].
    split; [done|]. split; [discriminate|]. by intros ? ? ? [=]. }
  rewrite (getKeyId_with_body now body s Hu Hn).
  destruct (js_get body "apiKey") as [| |b|q| |apiKey|l|o] eqn:Hget;
    try (eexists _, _, _; split; [reflexivity|];
         split; [split; [discriminate|]; by intros [?|?]|];
         split; [split; [intros _; repeat split; try done; by intros ? [=]|done]|];
         split; [split; [discriminate|]; by intros (? & ? & [=] & _)|];
         split; [split; [discriminate|]; by intros (? & ? & [=] & _)|];
         split; [discriminate|]; split; [done|]; by intros ? ? ? [=]).
  destruct (bool_decide (10 <= js_length apiKey <= 512)) eqn:Hr.
  2: { apply bool_decide_eq_false in Hr.
       eexists _, _, _. split; [reflexivity|].
       split; [split; [discriminate|]; by intros [?|?]|].
       split; [split; [intros _; repeat split; try done; by intros ? [= <-]|done]|].
       split; [split; [discriminate|]; by intros (? & ? & [= <-] & ? & _)|].
       split; [split; [discriminate|]; by intros (? & ? & [= <-] & ? & _)|].
       split; [discriminate|]. split; [done|]. by intros ? ? ? [= <-]. }
  apply bool_decide_eq_true in Hr.
  destruct (validateApiKey_returns config now apiKey s) as (v & s1 & Hv).
  rewrite Hv. destruct v as [keyData|error].
  - eexists _, _, _. split; [reflexivity|].
    split; [split; [discriminate|]; by intros [?|?]|].
    split; [split; [discriminate|]; intros (_ & _ & H); by destruct (H apiKey eq_refl)|].
    split; [split; [discriminate|]; intros (? & ? & [= <-] & _ & H'); by rewrite Hv in H'|].
    split; [split; [|done]; intros _; exists apiKey, keyData; by rewrite Hv|].
    split; [discriminate|]. split; [discriminate|].
    intros ? ? ? [= <-] _ H'. rewrite Hv in H'. by injection H' as <- <-.
  - eexists _, _, _. split; [reflexivity|].
    split; [split; [discriminate|]; by intros [?|?]|].
    split; [split; [discriminate|]; intros (_ & _ & H); by destruct (H apiKey eq_refl)|].
    split; [split; [|done]; intros _; exists apiKey, error; by rewrite Hv|].
    split; [split; [discriminate|]; intros (? & ? & [= <-] & _ & H'); by rewrite Hv in H'|].
    split; [discriminate|]. split; [discriminate|].
    intros ? ? ? [= <-] _ H'. rewrite Hv in H'. by injection H' as <- <-.
Qed.
End AdminAnyStore.

(** ** The key service on the store of the spec *)

Section KeysOnStore.
Context {RT : JSRuntime} (config : Config).

(** The record that the hashed secret resolves to. *)
Definition recordOf (apiKey : string) (s : KeyStore) : option KeyData :=
  keyId ← hash_map s !! ApiKeyService._hashApiKey config apiKey; apikeys s !! keyId.

(** The two tests of [validateApiKey] on a record. *)
Definition accepted (now : Z) (keyData : KeyData) : bool :=
  streq (fieldOf keyData "isActive") "true"
  && negb (nonempty (fieldOf keyData "expiresAt")
           && num_gt (Some now) (Date_parse (fieldOf keyData "expiresAt"))).

(** [validateApiKey] on the store of the spec. *)
Lemma validateApiKey_memory (now : Z) (apiKey : string) (s : KeyStore) :
  snd (ApiKeyService.validateApiKey config now apiKey s) = s
  /\ ((exists vk, fst (ApiKeyService.validateApiKey config now apiKey s) = Returned (Valid vk))
      <-> apiKey <> "" /\ startsWith (ApiKeyService.prefix config) apiKey = true
          /\ exists keyData, recordOf apiKey s = Some keyData /\ accepted now keyData = true)
  /\ (forall vk, fst (ApiKeyService.validateApiKey config now apiKey s) = Returned (Valid vk) ->
        exists keyData, recordOf apiKey s = Some keyData /\ vk_id vk = keyData !! "id").
Proof.
  unfold ApiKeyService.validateApiKey, try_catch, bind, ret, recordOf, accepted.
  cbn [redis_findApiKeyByHash redis_getUsageStats redis_getDailyCost memoryRedis].
  destruct (nonempty apiKey) eqn:Hne; cbn [negb orb].
  2: { split; [done|]. split; [|by intros vk [=]]. split; [by intros [vk [=]]|].
       intros [H _]. apply nonempty_true in H. congruence. }
  apply nonempty_true in Hne.
  destruct (startsWith _ apiKey) eqn:Hpre; cbn [negb orb].
  2: { split; [done|]. split; [|by intros vk [=]]. split; [by intros [vk [=]]|].
       by intros (_ & [=] & _). }
  destruct (hash_map s !! _ ≫= _) as [keyData|]; cbn [fst snd].
  2: { split; [done|]. split; [|by intros vk [=]]. split; [by intros [vk [=]]|].
       by intros (_ & _ & kd & [=] & _). }
  destruct (streq (fieldOf keyData "isActive") "true") eqn:Hact; cbn [negb andb fst snd].
  2: { split; [done|]. split; [|by intros vk [=]]. split; [by intros [vk [=]]|].
       intros (_ & _ & kd & [= <-] & H). by rewrite Hact in H. }
  destruct (nonempty (fieldOf keyData "expiresAt") && _) eqn:Hexp; cbn [negb fst snd].
  { split; [done|]. split; [|by intros vk [=]]. split; [by intros [vk [=]]|].
    intros (_ & _ & kd & [= <-] & H). by rewrite Hact, Hexp in H. }
  split; [done|]. split.
  - split; [|by eexists]. intros _. repeat split; [done|]. exists keyData.
    by rewrite Hact, Hexp.
  - intros vk [= <-]. by exists keyData.
Qed.

(** X21.  On the store of the spec, validation only reads: whatever the
    verdict, the key records, the index and the counters are as before
    ([lastUsedAt] is stamped by [recordUsage], not here). *)
Theorem validateApiKey_reads_only (now : Z) (apiKey : string) (s : KeyStore) :
  snd (ApiKeyService.validateApiKey config now apiKey s) = s.
Proof. apply validateApiKey_memory. Qed.

End KeysOnStore.

Section KeyRecordsOnStore.
Context {RT : JSRuntime} (config : Config).

(** What [recordUsage] leaves of the key records. *)
Lemma recordUsage_records (now : Z) (keyId : string)
    (input output cacheCreate cacheRead : Z) (model accountId : string) (s : KeyStore) :
  let s' := snd (ApiKeyService.recordUsage now keyId input output cacheCreate cacheRead
                   model accountId s) in
  hash_map s' = hash_map s
  /\ apikeys s'
     = match apikeys s !! keyId with
       | Some keyData =>
           if bool_decide (0 < size keyData)%nat
           then <[keyId := <["lastUsedAt" := Date_toISOString now]> keyData]> (apikeys s)
           else apikeys s
       | None => apikeys s
       end.
Proof.
  unfold ApiKeyService.recordUsage, try_catch, bind, ret. cbn.
  destruct (bool_decide (0 < _)%Qc); cbn;
    (destruct (apikeys s !! keyId) as [keyData|]; cbn;
     [destruct (bool_decide (0 < size keyData)%nat); cbn|]);
    destruct (nonempty accountId); done.
Qed.

(** X22.  Of the key records, [recordUsage] touches one field of one
    record.  On the store of the spec it stamps [lastUsedAt] on the record
    of the key (the record is put back with that one field set) and
    changes no other record and no entry of the index of hashed secrets;
    for a key that the store does not know, or holds an empty record of,
    it creates no record. *)
Theorem recordUsage_stamps_lastUsedAt_only (now : Z) (keyId : string)
    (input output cacheCreate cacheRead : Z) (model accountId : string) (s : KeyStore) :
  let s' := snd (ApiKeyService.recordUsage now keyId input output cacheCreate cacheRead
                   model accountId s) in
  hash_map s' = hash_map s
  /\ (forall k, k <> keyId -> apikeys s' !! k = apikeys s !! k)
  /\ (forall keyData,
        apikeys s !! keyId = Some keyData -> keyData <> ∅ ->
        apikeys s' !! keyId = Some (<["lastUsedAt" := Date_toISOString now]> keyData))
  /\ (apikeys s !! keyId = None \/ apikeys s !! keyId = Some ∅ ->
      apikeys s' !! keyId = apikeys s !! keyId).
Proof.
  intros s'.
  destruct (recordUsage_records now keyId input output cacheCreate cacheRead model
              accountId s) as [Hh Hrec].
  fold s' in Hh, Hrec. split; [done|]. rewrite Hrec. split; [|split].
  - intros k Hk. destruct (apikeys s !! keyId) as [keyData|]; [|done].
    destruct (bool_decide _); [|done]. by rewrite lookup_insert_ne.
  - intros keyData Hk Hne. rewrite Hk. rewrite (proj2 (size_pos_nonempty keyData)) by done.
    by rewrite lookup_insert_eq.
  - intros [Hk|Hk]; rewrite Hk; [done|].
    rewrite bool_decide_eq_false_2; [done|]. rewrite map_size_empty. lia.
Qed.

Lemma applyUpdate_untouched (updatedData : KeyData) (entry : string * jsval) (f : string) :
  entry.1 <> f -> ApiKeyService.applyUpdate updatedData entry !! f = updatedData !! f.
Proof.
  destruct entry as [field value]. cbn [fst]. intros Hf. unfold ApiKeyService.applyUpdate.
  repeat case_match; try done; by rewrite lookup_insert_ne.
Qed.

Lemma updates_untouched (updates : list (string * jsval)) (keyData : KeyData) (f : string) :
  (forall entry, entry ∈ updates -> entry.1 <> f) ->
  fold_left ApiKeyService.applyUpdate updates keyData !! f = keyData !! f.
Proof.
  revert keyData. induction updates as [|entry updates IH]; intros keyData Hf; simpl; [done|].
  rewrite IH, applyUpdate_untouched; [done| |].
  - apply Hf. apply list_elem_of_here.
  - intros e He. apply Hf. by apply list_elem_of_further.
Qed.

(** The store after [updateApiKey]. *)
Lemma updateApiKey_memory (now : Z) (keyId : string) (updates : list (string * jsval))
    (s : KeyStore) :
  snd (ApiKeyService.updateApiKey now keyId updates s)
  = match apikeys s !! keyId with
    | Some keyData =>
        if bool_decide (size keyData = 0%nat) then s
        else setKeys
               (<[keyId := <["updatedAt" := Date_toISOString now]>
                             (fold_left ApiKeyService.applyUpdate updates keyData)]>
                  (apikeys s))
               (hash_map s) s
    | None => s
    end.
Proof.
  unfold ApiKeyService.updateApiKey, try_catch, bind, ret, throw.
  cbn [redis_getApiKey redis_setApiKey memoryRedis].
  destruct (apikeys s !! keyId) as [keyData|]; [|done].
  by destruct (bool_decide (size keyData = 0%nat)).
Qed.

(** X23.  An admin update that sets neither [isActive] nor [expiresAt]
    does not lock a key out.  On the store of the spec, a secret that
    validates still validates, to the same id, after any such update of
    any key, the key of the secret included. *)
Theorem updating_other_fields_keeps_a_key_valid
    (now now' : Z) (apiKey keyId : string) (updates : list (string * jsval))
    (s : KeyStore) (vk : ValidatedKey) :
  fst (ApiKeyService.validateApiKey config now apiKey s) = Returned (Valid vk) ->
  (forall entry, entry ∈ updates -> entry.1 <> "isActive" /\ entry.1 <> "expiresAt") ->
  exists vk',
    fst (ApiKeyService.validateApiKey config now apiKey
           (snd (ApiKeyService.updateApiKey now' keyId updates s)))
    = Returned (Valid vk')
    /\ vk_id vk' = vk_id vk.
Proof.
  intros Hv Hup.
  destruct (validateApiKey_memory config now apiKey s) as (_ & Hiff & Hid).
  destruct (proj1 Hiff (ex_intro _ vk Hv)) as (Hne & Hpre & keyData & Hrec & Hadm).
  destruct (Hid vk Hv) as (keyData' & Hrec' & Hvk). rewrite Hrec in Hrec'.
  injection Hrec' as <-.
  set (s' := snd (ApiKeyService.updateApiKey now' keyId updates s)).
  assert (Hrec1 : exists keyData1,
            recordOf config apiKey s' = Some keyData1
            /\ keyData1 !! "id" = keyData !! "id"
            /\ accepted now keyData1 = true).
  { unfold s'. rewrite updateApiKey_memory.
    destruct (apikeys s !! keyId) as [kd0|] eqn:Hk; [|by exists keyData].
    destruct (bool_decide (size kd0 = 0%nat)); [by exists keyData|].
    unfold recordOf in *. cbn [hash_map apikeys setKeys].
    destruct (hash_map s !! _) as [k|]; [|done]. cbn [mbind option_bind] in *.
    destruct (decide (k = keyId)) as [->|Hk'].
    - rewrite lookup_insert_eq. rewrite Hk in Hrec. injection Hrec as ->.
      eexists. split; [reflexivity|].
      assert (Hsame : forall f, f <> "updatedAt" ->
                (forall entry, entry ∈ updates -> entry.1 <> f) ->
                fieldOf (<["updatedAt" := Date_toISOString now']>
                           (fold_left ApiKeyService.applyUpdate updates keyData)) f
                = fieldOf keyData f).
      { intros f Hf Hentries. unfold fieldOf.
        by rewrite lookup_insert_ne, updates_untouched. }
      split.
      + rewrite lookup_insert_ne by done. apply updates_other. by apply not_allowed.
      + unfold accepted in *.
        rewrite !Hsame; [done|done|..]; try done; intros e He; by apply Hup.
    - rewrite lookup_insert_ne by done. by exists keyData. }
  destruct Hrec1 as (keyData1 & Hrec1 & Hid1 & Hadm1).
  destruct (validateApiKey_memory config now apiKey s') as (_ & Hiff' & Hid').
  destruct (proj2 Hiff') as [vk' Hv'].
  { repeat split; [done..|]. by exists keyData1. }
  exists vk'. split; [done|].
  destruct (Hid' vk' Hv') as (kd & Hkd & ->). rewrite Hrec1 in Hkd. injection Hkd as <-.
  by rewrite Hid1.
Qed.

(** X24.  A deleted key is refused.  On the store of the spec, deleting
    a recorded key returns, after which the secret that resolved to it is
    refused with ['API key not found'], and deleting it once more throws
    ['API key not found']. *)
Theorem deleted_key_is_refused (now : Z) (apiKey keyId : string) (s : KeyStore) :
  apiKey <> "" ->
  startsWith (ApiKeyService.prefix config) apiKey = true ->
  hash_map s !! ApiKeyService._hashApiKey config apiKey = Some keyId ->
  is_Some (apikeys s !! keyId) ->
  exists s',
    ApiKeyServiceAdmin.deleteApiKey keyId s = (Returned tt, s')
    /\ fst (ApiKeyService.validateApiKey config now apiKey s')
       = Returned (Invalid "API key not found")
    /\ ApiKeyServiceAdmin.deleteApiKey keyId s' = (Thrown "API key not found", s').
Proof.
  intros Hne Hpre Hh [keyData Hk]. apply nonempty_true in Hne.
  unfold ApiKeyServiceAdmin.deleteApiKey, try_catch, bind, ret, throw.
  cbn [redis_deleteApiKey memoryRedisAdmin]. rewrite Hk. cbn.
  eexists. split; [reflexivity|].
  cbn [apikeys deleteKey setKeys]. rewrite lookup_delete_eq. split; [|done].
  unfold ApiKeyService.validateApiKey, try_catch, bind, ret. rewrite Hne, Hpre.
  cbn [negb orb redis_findApiKeyByHash memoryRedis hash_map apikeys deleteKey setKeys].
  assert (Hgone : filter (fun entry : string * string => entry.2 <> keyId) (hash_map s)
                    !! ApiKeyService._hashApiKey config apiKey = None).
  { apply map_lookup_filter_None. right. intros k Hk' Hp. rewrite Hh in Hk'.
    injection Hk' as <-. by apply Hp. }
  by rewrite Hgone.
Qed.

End KeyRecordsOnStore.

(** ** Sequences of admin updates *)

Section AdminUpdates.
Context {RT : JSRuntime} (config : Config).

(** An admin update: the time of the call, the key and the updates
    object. *)
Definition AdminUpdate : Type := Z * string * list (string * jsval).

(** A sequence of admin updates, one call of [updateApiKey] after the
    other on the store of the spec.  A call that throws leaves the store
    as it is, and the next one goes on from there. *)
Fixpoint adminUpdates (calls : list AdminUpdate) (s : KeyStore) : KeyStore :=
  match calls with
  | [] => s
  | (now, keyId, updates) :: calls' =>
      adminUpdates calls' (snd (ApiKeyService.updateApiKey now keyId updates s))
  end.

(** The time of the last update of [keyId] in the sequence. *)
Fixpoint lastUpdateOf (keyId : string) (calls : list AdminUpdate) : option Z :=
  match calls with
  | [] => None
  | (now, k, _) :: calls' =>
      match lastUpdateOf keyId calls' with
      | Some t => Some t
      | None => if streq k keyId then Some now else None
      end
  end.

(** One update, of the key or of another, seen from a recorded key. *)
Lemma updateApiKey_seen_from (now : Z) (k : string) (updates : list (string * jsval))
    (keyId : string) (s : KeyStore) (keyData : KeyData) :
  apikeys s !! keyId = Some keyData ->
  keyData <> ∅ ->
  let s' := snd (ApiKeyService.updateApiKey now k updates s) in
  hash_map s' = hash_map s
  /\ exists updatedData,
       apikeys s' !! keyId = Some updatedData
       /\ updatedData <> ∅
       /\ (forall f, f ∉ ApiKeyService.allowedUpdates -> f <> "updatedAt" ->
                     updatedData !! f = keyData !! f)
       /\ (k = keyId -> updatedData !! "updatedAt" = Some (Date_toISOString now))
       /\ (k <> keyId -> updatedData = keyData).
Proof.
  intros Hk Hne s'. unfold s'. rewrite updateApiKey_memory.
  destruct (decide (k = keyId)) as [->|Hother].
  - rewrite Hk. rewrite bool_decide_eq_false_2
      by (intros E; by apply map_size_empty_inv in E).
    cbn [hash_map apikeys setKeys]. split; [done|]. eexists. rewrite lookup_insert_eq.
    split; [reflexivity|]. split; [apply insert_non_empty|].
    split; [|split; [intros _; apply lookup_insert_eq|done]].
    intros f Hf Hu. rewrite lookup_insert_ne by done. by apply updates_other.
  - assert (Hsame : forall s0 : KeyStore,
              hash_map s0 = hash_map s -> apikeys s0 !! keyId = Some keyData ->
              hash_map s0 = hash_map s
              /\ exists updatedData,
                   apikeys s0 !! keyId = Some updatedData
                   /\ updatedData <> ∅
                   /\ (forall f, f ∉ ApiKeyService.allowedUpdates -> f <> "updatedAt" ->
                                 updatedData !! f = keyData !! f)
                   /\ (k = keyId -> updatedData !! "updatedAt" = Some (Date_toISOString now))
                   /\ (k <> keyId -> updatedData = keyData)).
    { intros s0 Hh H0. split; [done|]. exists keyData. repeat split; try done. }
    destruct (apikeys s !! k) as [kd|]; [|by apply Hsame].
    destruct (bool_decide (size kd = 0%nat)); [by apply Hsame|].
    apply Hsame; cbn [hash_map apikeys setKeys]; [done|]. by rewrite lookup_insert_ne.
Qed.

(** An update of a recorded key returns. *)
Lemma updateApiKey_recorded_returns (now : Z) (keyId : string)
    (updates : list (string * jsval)) (s : KeyStore) (keyData : KeyData) :
  apikeys s !! keyId = Some keyData -> keyData <> ∅ ->
  fst (ApiKeyService.updateApiKey now keyId updates s) = Returned tt.
Proof.
  intros Hk Hne. unfold ApiKeyService.updateApiKey, try_catch, bind, ret, throw.
  cbn [redis_getApiKey redis_setApiKey memoryRedis]. rewrite Hk.
  by rewrite bool_decide_eq_false_2 by (intros E; by apply map_size_empty_inv in E).
Qed.

(** The record of a key after a sequence of updates. *)
Lemma adminUpdates_record (keyId : string) (calls : list AdminUpdate) (s : KeyStore)
    (keyData : KeyData) :
  apikeys s !! keyId = Some keyData ->
  keyData <> ∅ ->
  hash_map (adminUpdates calls s) = hash_map s
  /\ exists updatedData,
       apikeys (adminUpdates calls s) !! keyId = Some updatedData
       /\ updatedData <> ∅
       /\ (forall f, f ∉ ApiKeyService.allowedUpdates -> f <> "updatedAt" ->
                     updatedData !! f = keyData !! f)
       /\ match lastUpdateOf keyId calls with
          | Some now => updatedData !! "updatedAt" = Some (Date_toISOString now)
          | None => updatedData = keyData
          end.
Proof.
  revert s keyData. induction calls as [|[[now k] updates] calls IH]; intros s keyData Hk Hne.
  - split; [done|]. exists keyData. by repeat split.
  - cbn [adminUpdates lastUpdateOf].
    destruct (updateApiKey_seen_from now k updates keyId s keyData Hk Hne)
      as (Hh & kd1 & Hk1 & Hne1 & Hframe1 & Hstamp & Hother).
    destruct (IH _ kd1 Hk1 Hne1) as (Hh' & kd2 & Hk2 & Hne2 & Hframe2 & Hlast).
    split; [by rewrite Hh'|]. exists kd2. split; [done|]. split; [done|]. split.
    + intros f Hf Hu. by rewrite Hframe2, Hframe1.
    + destruct (lastUpdateOf keyId calls) as [t|]; [done|]. subst kd2.
      destruct (streq k keyId) eqn:E.
      * apply streq_true in E. by apply Hstamp.
      * apply streq_false in E. by apply Hother.
Qed.

(** The verdict on a secret whose hash resolves to a record. *)
Lemma validateApiKey_recorded (now : Z) (apiKey : string) (s : KeyStore) (keyData : KeyData) :
  apiKey <> "" ->
  startsWith (ApiKeyService.prefix config) apiKey = true ->
  recordOf config apiKey s = Some keyData ->
  let verdict := fst (ApiKeyService.validateApiKey config now apiKey s) in
  (verdict = Returned (Invalid "API key is disabled")
   <-> fieldOf keyData "isActive" <> "true")
  /\ (verdict = Returned (Invalid "API key has expired")
      <-> fieldOf keyData "isActive" = "true"
          /\ fieldOf keyData "expiresAt" <> ""
          /\ exists expiry,
               Date_parse (fieldOf keyData "expiresAt") = Some expiry /\ expiry < now)
  /\ ((exists vk, verdict = Returned (Valid vk))
      <-> fieldOf keyData "isActive" = "true"
          /\ forall expiry,
               fieldOf keyData "expiresAt" <> "" ->
               Date_parse (fieldOf keyData "expiresAt") = Some expiry -> now <= expiry)
  /\ (forall vk, verdict = Returned (Valid vk) -> vk_id vk = keyData !! "id").
Proof.
  intros Hne Hpre Hrec verdict. unfold verdict.
  apply nonempty_true in Hne. unfold recordOf in Hrec.
  unfold ApiKeyService.validateApiKey, try_catch, bind, ret.
  cbn [redis_findApiKeyByHash redis_getUsageStats redis_getDailyCost memoryRedis].
  rewrite Hne, Hpre. cbn [negb orb]. rewrite Hrec. cbn [fst snd].
  destruct (streq (fieldOf keyData "isActive") "true") eqn:Hact; cbn [negb fst].
  2: { apply streq_false in Hact. split; [done|]. split; [split; [done|by intros [? _]]|].
       split; [split; [by intros [? [=]]|by intros [? _]]|]. by intros ? [=]. }
  apply streq_true in Hact.
  destruct (nonempty (fieldOf keyData "expiresAt")) eqn:Hset; cbn [andb].
  2: { assert (Hempty : fieldOf keyData "expiresAt" = "").
       { unfold nonempty in Hset. by destruct (decide (fieldOf keyData "expiresAt" = "")). }
       cbn [fst]. split; [split; [done|by intros ?]|].
       split; [split; [done|by intros (_ & ? & _)]|].
       split; [|by intros ? [= <-]]. split; [|by eexists]. intros _. split; [done|].
       by intros ? ?. }
  apply nonempty_true in Hset.
  destruct (Date_parse (fieldOf keyData "expiresAt")) as [expiry|] eqn:Hp.
  2: { cbn [num_gt num_lt fst]. split; [split; [done|by intros ?]|].
       split; [split; [done|by intros (_ & _ & ? & [=] & _)]|].
       split; [|by intros ? [= <-]]. split; [|by eexists]. intros _. split; [done|].
       by intros ? _ [=]. }
  destruct (num_gt (Some now) (Some expiry)) eqn:Hgt; cbn [fst].
  - apply num_gt_true in Hgt. split; [split; [done|by intros ?]|].
    split; [split; [|done]; intros _; split; [done|]; split; [done|]; by exists expiry|].
    split; [|by intros ? [=]]. split; [by intros [? [=]]|].
    intros [_ H]. specialize (H expiry Hset eq_refl). lia.
  - apply not_true_iff_false in Hgt. rewrite num_gt_true in Hgt.
    split; [split; [done|by intros ?]|].
    split; [split; [done|]; intros (_ & _ & e & [= <-] & ?); lia|].
    split; [|by intros ? [= <-]]. split; [|by eexists]. intros _. split; [done|].
    intros e _ [= <-]. lia.
Qed.

(** C10, as amended.  On the store of the spec, after any sequence of
    admin updates, of the key or of other keys, the record of a key is
    there with no field changed other than those of the allow-list and
    [updatedAt]; in particular [apiKey] (the hashed secret), [id] and
    [createdAt] are as before.  [updatedAt] is the stamp of the last
    update of the key, every update of which returned; a key that the
    sequence does not update keeps its record as it is.  The index of
    hashed secrets is not written, so a hash that resolved to the key
    resolves to the updated record, and the secret validates, to the same
    id, exactly when the updated record is active and not expired; it is
    refused as disabled or as expired otherwise. *)
Theorem admin_updates_change_allowed_fields_only
    (now' : Z) (keyId : string) (calls : list AdminUpdate) (s : KeyStore)
    (keyData : KeyData) :
  apikeys s !! keyId = Some keyData ->
  keyData <> ∅ ->
  let s' := adminUpdates calls s in
  exists updatedData,
    apikeys s' !! keyId = Some updatedData
    /\ (forall f, f ∉ ApiKeyService.allowedUpdates -> f <> "updatedAt" ->
                  updatedData !! f = keyData !! f)
    /\ updatedData !! "apiKey" = keyData !! "apiKey"
    /\ updatedData !! "id" = keyData !! "id"
    /\ updatedData !! "createdAt" = keyData !! "createdAt"
    /\ match lastUpdateOf keyId calls with
       | Some now => updatedData !! "updatedAt" = Some (Date_toISOString now)
       | None => updatedData = keyData
       end
    /\ (forall now updates,
          fst (ApiKeyService.updateApiKey now keyId updates s') = Returned tt)
    /\ hash_map s' = hash_map s
    /\ (forall hashedKey, hash_map s !! hashedKey = Some keyId ->
          fst (redis_findApiKeyByHash hashedKey s') = Returned (Some updatedData))
    /\ (forall apiKey,
          apiKey <> "" ->
          startsWith (ApiKeyService.prefix config) apiKey = true ->
          hash_map s !! ApiKeyService._hashApiKey config apiKey = Some keyId ->
          let verdict := fst (ApiKeyService.validateApiKey config now' apiKey s') in
          (verdict = Returned (Invalid "API key is disabled")
           <-> fieldOf updatedData "isActive" <> "true")
          /\ (verdict = Returned (Invalid "API key has expired")
              <-> fieldOf updatedData "isActive" = "true"
                  /\ fieldOf updatedData "expiresAt" <> ""
                  /\ exists expiry,
                       Date_parse (fieldOf updatedData "expiresAt") = Some expiry
                       /\ expiry < now')
          /\ ((exists vk, verdict = Returned (Valid vk))
              <-> fieldOf updatedData "isActive" = "true"
                  /\ forall expiry,
                       fieldOf updatedData "expiresAt" <> "" ->
                       Date_parse (fieldOf updatedData "expiresAt") = Some expiry ->
                       now' <= expiry)
          /\ (forall vk, verdict = Returned (Valid vk) -> vk_id vk = keyData !! "id")).
Proof.
  intros Hk Hne s'.
  destruct (adminUpdates_record keyId calls s keyData Hk Hne)
    as (Hh & updatedData & Hk' & Hne' & Hframe & Hlast).
  fold s' in Hh, Hk'.
  assert (Hid : updatedData !! "id" = keyData !! "id").
  { apply Hframe; [by apply not_allowed|discriminate]. }
  exists updatedData. split; [done|]. split; [done|].
  split; [apply Hframe; [by apply not_allowed|discriminate]|].
  split; [done|].
  split; [apply Hframe; [by apply not_allowed|discriminate]|].
  split; [done|].
  split; [intros now updates; by apply (updateApiKey_recorded_returns _ _ _ _ updatedData)|].
  split; [done|]. split.
  - intros hashedKey Hhash.
    cbn [redis_findApiKeyByHash memoryRedis fst]. rewrite Hh, Hhash. cbn [mbind option_bind].
    by rewrite Hk'.
  - intros apiKey Hkey Hpre Hhash verdict.
    assert (Hrec : recordOf config apiKey s' = Some updatedData).
    { unfold recordOf. rewrite Hh, Hhash. cbn [mbind option_bind]. done. }
    destruct (validateApiKey_recorded now' apiKey s' updatedData Hkey Hpre Hrec)
      as (H1 & H2 & H3 & H4).
    fold verdict in H1, H2, H3, H4. split; [done|]. split; [done|]. split; [done|].
    intros vk Hv. by rewrite (H4 vk Hv).
Qed.

End AdminUpdates.

(** ** Expired keys *)

Section Cleanup.
Context {RT : JSRuntime} (config : Config).

(** The test of [cleanupExpiredKeys] on a record: it has expired and is
    still active. *)
Definition expiredActive (now : Z) (key : KeyData) : bool :=
  nonempty (fieldOf key "expiresAt")
  && num_lt (Date_parse (fieldOf key "expiresAt")) (Some now)
  && streq (fieldOf key "isActive") "true".

(** The record as [updateApiKey(key.id, { isActive: false })] leaves it. *)
Definition disabledAt (now : Z) (key : KeyData) : KeyData :=
  <["updatedAt" := Date_toISOString now]> (<["isActive" := "false"]> key).

(** The record after the sweep. *)
Definition swept (now : Z) (key : KeyData) : KeyData :=
  if expiredActive now key then disabledAt now key else key.

(** Every record carries the id it is stored under. *)
Definition idsRecorded (s : KeyStore) : Prop :=
  forall keyId keyData, apikeys s !! keyId = Some keyData -> keyData !! "id" = Some keyId.

Lemma disable_update (keyData : KeyData) :
  fold_left ApiKeyService.applyUpdate [("isActive", JBool false)] keyData
  = <["isActive" := "false"]> keyData.
Proof. reflexivity. Qed.

(** The loop of [cleanupExpiredKeys] over records that are in the store
    under distinct ids. *)
Lemma cleanup_loop (now : Z) (l : list KeyData) (count : Z) (s : KeyStore) :
  NoDup (map (fun key => fieldOf key "id") l) ->
  (forall key, key ∈ l -> apikeys s !! fieldOf key "id" = Some key /\ key <> ∅) ->
  exists s',
    for_of l
      (fun key cleanedCount =>
         if nonempty (fieldOf key "expiresAt")
            && num_lt (Date_parse (fieldOf key "expiresAt")) (Some now)
            && streq (fieldOf key "isActive") "true"
         then
           ApiKeyService.updateApiKey now (fieldOf key "id") [("isActive", JBool false)] ;;;
           ret (cleanedCount + 1)
         else ret cleanedCount)
      count s
    = (Returned (count + Z.of_nat (length (List.filter (expiredActive now) l))), s')
    /\ hash_map s' = hash_map s
    /\ (forall key, key ∈ l -> apikeys s' !! fieldOf key "id" = Some (swept now key))
    /\ (forall keyId, (forall key, key ∈ l -> fieldOf key "id" <> keyId) ->
          apikeys s' !! keyId = apikeys s !! keyId).
Proof.
  revert count s. induction l as [|key l IH]; intros count s Hnd Hl.
  - exists s. cbn. rewrite Z.add_0_r. repeat split; try done.
    intros key Hk. by apply elem_of_nil in Hk.
  - cbn [map] in Hnd. apply NoDup_cons in Hnd as [Hfresh Hnd].
    destruct (Hl key (list_elem_of_here _ _)) as [Hkey Hne].
    assert (Hrest : forall s1,
              (forall k, k <> fieldOf key "id" -> apikeys s1 !! k = apikeys s !! k) ->
              forall key', key' ∈ l ->
                apikeys s1 !! fieldOf key' "id" = Some key' /\ key' <> ∅).
    { intros s1 Hs1 key' Hin. destruct (Hl key' (list_elem_of_further _ _ _ Hin)) as [H1 H2].
      split; [|done]. rewrite Hs1; [done|]. intros E. apply Hfresh.
      rewrite <- E. apply list_elem_of_fmap. by exists key'. }
    cbn [for_of List.filter]. unfold bind at 1. fold (expiredActive now key).
    destruct (expiredActive now key) eqn:Hexp.
    + unfold bind at 1.
      pose proof (updateApiKey_memory now (fieldOf key "id") [("isActive", JBool false)] s)
        as Hupd.
      assert (Hret : fst (ApiKeyService.updateApiKey now (fieldOf key "id")
                            [("isActive", JBool false)] s) = Returned tt).
      { unfold ApiKeyService.updateApiKey, try_catch, bind, ret, throw.
        cbn [redis_getApiKey redis_setApiKey memoryRedis]. rewrite Hkey.
        rewrite bool_decide_eq_false_2; [done|].
        intros E. by apply map_size_empty_inv in E. }
      rewrite Hkey in Hupd.
      rewrite bool_decide_eq_false_2 in Hupd
        by (intros E; by apply map_size_empty_inv in E).
      rewrite disable_update in Hupd. fold (disabledAt now key) in Hupd.
      destruct (ApiKeyService.updateApiKey now _ _ s) as [r s1].
      cbn [fst snd] in Hret, Hupd. subst r s1. unfold ret at 1.
      set (s1 := setKeys _ _ s).
      destruct (IH (count + 1) s1 Hnd) as (s' & Hloop & Hh & Hin & Hout).
      { apply Hrest. intros k Hk. unfold s1. cbn [apikeys setKeys].
        by rewrite lookup_insert_ne. }
      exists s'. rewrite Hloop. cbn [length]. split; [f_equal; f_equal; lia|].
      split; [by rewrite Hh|]. split.
      * intros key' [->|Hin']%elem_of_cons; [|by apply Hin].
        rewrite Hout.
        -- unfold s1. cbn [apikeys setKeys]. rewrite lookup_insert_eq. unfold swept.
           by rewrite Hexp.
        -- intros key' Hin' E. apply Hfresh. rewrite <- E. apply list_elem_of_fmap.
           by exists key'.
      * intros keyId Hno. rewrite Hout.
        -- unfold s1. cbn [apikeys setKeys]. rewrite lookup_insert_ne; [done|].
           apply Hno, list_elem_of_here.
        -- intros key' Hin'. by apply Hno, list_elem_of_further.
    + unfold ret at 1.
      destruct (IH count s Hnd) as (s' & Hloop & Hh & Hin & Hout).
      { by apply Hrest. }
      exists s'. rewrite Hloop. split; [done|]. split; [done|]. split.
      * intros key' [->|Hin']%elem_of_cons; [|by apply Hin].
        rewrite Hout.
        -- unfold swept. by rewrite Hexp.
        -- intros key' Hin' E. apply Hfresh. rewrite <- E. apply list_elem_of_fmap.
           by exists key'.
      * intros keyId Hno. apply Hout. intros key' Hin'. by apply Hno, list_elem_of_further.
Qed.

Lemma swept_not_expiredActive (now : Z) (key : KeyData) :
  expiredActive now (swept now key) = false.
Proof.
  unfold swept. destruct (expiredActive now key) eqn:E; [|done].
  unfold expiredActive, disabledAt, fieldOf.
  rewrite (lookup_insert_ne _ "updatedAt" "isActive") by done.
  rewrite lookup_insert_eq. cbn [default from_option Datatypes.id].
  by rewrite andb_false_r.
Qed.

(** [cleanupExpiredKeys] on the store of the spec. *)
Lemma cleanupExpiredKeys_memory (now : Z) (s : KeyStore) :
  idsRecorded s ->
  exists s',
    ApiKeyServiceAdmin.cleanupExpiredKeys now s
    = (Returned (Z.of_nat (length (List.filter (expiredActive now)
                                     (map snd (map_to_list (apikeys s)))))), s')
    /\ hash_map s' = hash_map s
    /\ (forall keyId, apikeys s' !! keyId = swept now <$> apikeys s !! keyId)
    /\ (forall keyId keyData,
          apikeys s' !! keyId = Some keyData -> expiredActive now keyData = false).
Proof.
  intros Hids.
  set (l := map snd (map_to_list (apikeys s))).
  assert (Hmem : forall key, key ∈ l <-> exists keyId, apikeys s !! keyId = Some key).
  { intros key. unfold l. rewrite list_elem_of_fmap. split.
    - intros ([k kd] & -> & Hin). exists k. by apply elem_of_map_to_list.
    - intros (k & Hk). exists (k, key). split; [done|]. by apply elem_of_map_to_list. }
  assert (Hidof : forall keyId key, apikeys s !! keyId = Some key -> fieldOf key "id" = keyId).
  { intros keyId key Hk. unfold fieldOf. by rewrite (Hids _ _ Hk). }
  assert (Hnd : NoDup (map (fun key => fieldOf key "id") l)).
  { unfold l. rewrite map_map.
    assert (Heq : map (fun x : string * KeyData => fieldOf x.2 "id") (map_to_list (apikeys s))
                  = map fst (map_to_list (apikeys s))).
    { apply map_ext_in. intros [k kd] Hin. cbn.
      apply Hidof. by apply elem_of_map_to_list, list_elem_of_In. }
    rewrite Heq. apply NoDup_fst_map_to_list. }
  destruct (cleanup_loop now l 0 s Hnd) as (s' & Hloop & Hh & Hin & Hout).
  { intros key (keyId & Hk)%Hmem. rewrite (Hidof _ _ Hk). split; [done|].
    intros ->. by specialize (Hids _ _ Hk). }
  assert (Hall : forall keyId, apikeys s' !! keyId = swept now <$> apikeys s !! keyId).
  { intros keyId. destruct (apikeys s !! keyId) as [key|] eqn:Hk; cbn.
    - rewrite <- (Hidof _ _ Hk). apply Hin, Hmem. by exists keyId.
    - rewrite Hout; [done|]. intros key (k & Hk')%Hmem E.
      rewrite (Hidof _ _ Hk') in E. congruence. }
  exists s'. split.
  - unfold ApiKeyServiceAdmin.cleanupExpiredKeys, try_catch. unfold bind at 1.
    cbn [redis_getAllApiKeys memoryRedisAdmin]. cbv zeta. fold l. by rewrite Hloop.
  - split; [done|]. split; [done|].
    intros keyId keyData Hk. rewrite Hall in Hk.
    destruct (apikeys s !! keyId) as [key|]; [|done]. injection Hk as <-.
    apply swept_not_expiredActive.
Qed.

Lemma validateApiKey_expired_inv (now : Z) (apiKey : string) (s : KeyStore) :
  fst (ApiKeyService.validateApiKey config now apiKey s)
    = Returned (Invalid "API key has expired") ->
  exists keyId keyData,
    apikeys s !! keyId = Some keyData /\ expiredActive now keyData = true.
Proof.
  unfold ApiKeyService.validateApiKey, try_catch, bind, ret, expiredActive.
  cbn [redis_findApiKeyByHash redis_getUsageStats redis_getDailyCost memoryRedis].
  destruct (negb (nonempty apiKey) || _); [discriminate|].
  destruct (hash_map s !! _) as [keyId|]; cbn [mbind option_bind]; [|discriminate].
  destruct (apikeys s !! keyId) as [keyData|] eqn:Hk; [|discriminate].
  destruct (streq (fieldOf keyData "isActive") "true") eqn:Hact; [|discriminate].
  cbn [negb].
  destruct (nonempty (fieldOf keyData "expiresAt") && _) eqn:Hexp; [|discriminate].
  intros _. exists keyId, keyData. split; [done|].
  unfold num_gt in Hexp. by rewrite Hexp.
Qed.

(** X25.  The sweep of expired keys.  On the store of the spec, where
    every record carries the id it is stored under, [cleanupExpiredKeys]
    returns the number of records that had expired (strictly before the
    time of the call) and were still active; it puts each of them back
    with [isActive] ['false'] and [updatedAt] stamped, and leaves every
    other record, and the index of hashed secrets, as they were.  After
    the sweep, validation at that time refuses no secret as expired: an
    expired key is refused as disabled. *)
Theorem cleanupExpiredKeys_disables_the_expired_keys (now : Z) (s : KeyStore) :
  idsRecorded s ->
  exists s',
    ApiKeyServiceAdmin.cleanupExpiredKeys now s
    = (Returned (Z.of_nat (length (List.filter (expiredActive now)
                                     (map snd (map_to_list (apikeys s)))))), s')
    /\ hash_map s' = hash_map s
    /\ (forall keyId keyData,
          apikeys s !! keyId = Some keyData ->
          apikeys s' !! keyId
          = Some (if expiredActive now keyData
                  then <["updatedAt" := Date_toISOString now]>
                         (<["isActive" := "false"]> keyData)
                  else keyData))
    /\ (forall keyId, apikeys s !! keyId = None -> apikeys s' !! keyId = None)
    /\ (forall apiKey,
          fst (ApiKeyService.validateApiKey config now apiKey s')
          <> Returned (Invalid "API key has expired")).
Proof.
  intros Hids. destruct (cleanupExpiredKeys_memory now s Hids) as (s' & H1 & H2 & H3 & H4).
  exists s'. split; [done|]. split; [done|]. split; [|split].
  - intros keyId keyData Hk. by rewrite H3, Hk.
  - intros keyId Hk. by rewrite H3, Hk.
  - intros apiKey (keyId & keyData & Hk & Hexp)%validateApiKey_expired_inv.
    rewrite (H4 _ _ Hk) in Hexp. discriminate.
Qed.

Lemma idsRecorded_insert (s : KeyStore) (keyId : string) (keyData : KeyData)
    (h : gmap string string) :
  idsRecorded s -> keyData !! "id" = Some keyId ->
  idsRecorded (setKeys (<[keyId := keyData]> (apikeys s)) h s).
Proof.
  intros Hids Hid k kd. cbn [apikeys setKeys].
  intros [[<- <-]|[_ Hk]]%lookup_insert_Some; [done|by apply Hids].
Qed.

(** X26.  Every operation of the key service keeps the records under
    their ids.  On the store of the spec, if every record carries the id
    it is stored under, so it does after [generateApiKey], [updateApiKey],
    [recordUsage], [deleteApiKey] and [cleanupExpiredKeys], whether they
    return or throw. *)
Theorem stored_records_carry_their_id (s : KeyStore) :
  idsRecorded s ->
  (forall now keyId secretKey options,
     idsRecorded (snd (ApiKeyService.generateApiKey config now keyId secretKey options s)))
  /\ (forall now keyId updates,
        idsRecorded (snd (ApiKeyService.updateApiKey now keyId updates s)))
  /\ (forall now keyId input output cacheCreate cacheRead model accountId,
        idsRecorded (snd (ApiKeyService.recordUsage now keyId input output cacheCreate
                            cacheRead model accountId s)))
  /\ (forall keyId, idsRecorded (snd (ApiKeyServiceAdmin.deleteApiKey keyId s)))
  /\ (forall now, idsRecorded (snd (ApiKeyServiceAdmin.cleanupExpiredKeys now s))).
Proof.
  intros Hids. repeat split.
  - intros now keyId secretKey options.
    assert (Hs : snd (ApiKeyService.generateApiKey config now keyId secretKey options s)
                 = setKeys
                     (<[keyId := ApiKeyService.newKeyData config now keyId
                                   (ApiKeyService._hashApiKey config
                                      (ApiKeyService.prefix config +:+ secretKey)) options]>
                        (apikeys s))
                     (<[ApiKeyService._hashApiKey config
                          (ApiKeyService.prefix config +:+ secretKey) := keyId]> (hash_map s))
                     s).
    { unfold ApiKeyService.generateApiKey. cbv zeta.
      unfold bind, ret, ApiKeyService.JSON_parse_throw, throw.
      cbn [redis_setApiKey memoryRedis].
      repeat match goal with
      | |- context [match JSON_parse ?x with _ => _ end] => destruct (JSON_parse x)
      end; done. }
    rewrite Hs. apply idsRecorded_insert; [done|]. apply newKeyData_id.
  - intros now keyId updates. rewrite updateApiKey_memory.
    destruct (apikeys s !! keyId) as [keyData|] eqn:Hk; [|done].
    destruct (bool_decide (size keyData = 0%nat)); [done|].
    apply idsRecorded_insert; [done|].
    rewrite lookup_insert_ne by done. rewrite updates_other by by apply not_allowed.
    by apply Hids.
  - intros now keyId input output cacheCreate cacheRead model accountId.
    destruct (recordUsage_records now keyId input output cacheCreate cacheRead model
                accountId s) as [_ Hrec].
    intros k kd. rewrite Hrec.
    destruct (apikeys s !! keyId) as [keyData|] eqn:Hk; [|by apply Hids].
    destruct (bool_decide (0 < size keyData)%nat); [|by apply Hids].
    intros [[<- <-]|[_ Hk']]%lookup_insert_Some; [|by apply Hids].
    rewrite lookup_insert_ne by done. by apply Hids.
  - intros keyId. unfold ApiKeyServiceAdmin.deleteApiKey, try_catch, bind, ret, throw.
    cbn [redis_deleteApiKey memoryRedisAdmin].
    destruct (apikeys s !! keyId) as [keyData|] eqn:Hk; [|done].
    rewrite (bool_decide_eq_false_2 (1 = 0)) by done.
    intros k kd. cbn [snd apikeys deleteKey setKeys].
    intros [_ Hk']%lookup_delete_Some. by apply Hids.
  - intros now. destruct (cleanupExpiredKeys_memory now s Hids) as (s' & -> & _ & H3 & _).
    cbn [snd]. intros k kd. rewrite H3.
    destruct (apikeys s !! k) as [keyData|] eqn:Hk; [|done]. cbn. intros [= <-].
    unfold swept, disabledAt. destruct (expiredActive now keyData); [|by apply Hids].
    rewrite !lookup_insert_ne by done. by apply Hids.
Qed.

End Cleanup.

(** * Examples of the further properties *)

Section FurtherSelectionExamples.
#[local] Existing Instance nodeRuntime.

Definition openaiGroup : Group := {| groupName := "team"; platform := "openai" |}.

(** Three OpenAI accounts: a1 and a2 are shared and active, a2 has the
    better priority, a3 is inactive; a1 and a2 form the group g1. *)
Definition openaiPoolStore : SchedulerStore :=
  {| openaiAccounts :=
       [ sharedAccount "a1" (JStr "true") "50" "2025-01-01T00:00:05.000Z";
         sharedAccount "a2" (JStr "true") "10" "";
         sharedAccount "a3" (JStr "false") "1" "" ];
     claudeAccounts := []; consoleAccounts := [];
     groups := {[ "g1" := (openaiGroup, ["a1"; "a2"]) ]};
     sessions := ∅; clock := T0 |}.

Definition selectedA2 : Selection := {| sel_accountId := "a2"; sel_accountType := "openai" |}.

(** The store after the first call of the session h1. *)
Definition openaiMappedStore : SchedulerStore :=
  withMapping UnifiedOpenAIScheduler.SESSION_MAPPING_PREFIX "h1" selectedA2 openaiPoolStore.

Lemma first_call_h1 :
  UnifiedOpenAIScheduler.selectAccountForApiKey T0 unboundKey "h1" "gpt-4o" openaiPoolStore
  = (Returned selectedA2, openaiMappedStore).
Proof. by_vm. Qed.

Lemma servedFromPool_unbound (s : SchedulerStore) : servedFromPool unboundKey s.
Proof. split; reflexivity. Qed.

Lemma openai_selection_is_an_openai_account_witness :
  UnifiedOpenAIScheduler.selectAccountForApiKey T0 unboundKey "h1" "gpt-4o" openaiPoolStore
    = (Returned selectedA2, openaiMappedStore)
  /\ sel_accountType selectedA2 = "openai".
Proof.
  split; [exact first_call_h1|].
  exact (openai_selection_is_an_openai_account T0 unboundKey "h1" "gpt-4o" openaiPoolStore
           openaiMappedStore selectedA2 first_call_h1).
Defined.

Lemma sticky_call_h1 :
  UnifiedClaudeScheduler.selectAccountForApiKey unboundKey "h1" "claude-3-5-sonnet-20241022"
    stickyStore
  = (Returned mappedA3, stickyStore).
Proof. by_vm. Qed.

Lemma claude_selection_is_a_claude_account_witness :
  UnifiedClaudeScheduler.selectAccountForApiKey unboundKey "h1" "claude-3-5-sonnet-20241022"
    stickyStore
    = (Returned mappedA3, stickyStore)
  /\ (sel_accountType mappedA3 = "claude-official"
      \/ sel_accountType mappedA3 = "claude-console").
Proof.
  split; [exact sticky_call_h1|].
  exact (claude_selection_is_a_claude_account unboundKey "h1" "claude-3-5-sonnet-20241022"
           stickyStore stickyStore mappedA3 sticky_call_h1).
Defined.

(** A key bound to the group g9, which the store does not know, and one
    bound to g1. *)
Definition lostGroupKey : ApiKeyData :=
  {| keyName := "K"; claudeAccountId := ""; claudeConsoleAccountId := "";
     openaiAccountId := "group:g9" |}.

Definition groupKey : ApiKeyData :=
  {| keyName := "K"; claudeAccountId := ""; claudeConsoleAccountId := "";
     openaiAccountId := "group:g1" |}.

Lemma openai_group_binding_errors_witness :
  openaiAccountId lostGroupKey = "group:" +:+ "g9"
  /\ (group_getGroup "g9" openaiPoolStore = (Returned None, openaiPoolStore) ->
      UnifiedOpenAIScheduler.selectAccountForApiKey T0 lostGroupKey "" "gpt-4o"
        openaiPoolStore
      = (Thrown ("Group " +:+ "g9" +:+ " not found"), openaiPoolStore))
  /\ (forall group,
        group_getGroup "g9" openaiPoolStore = (Returned (Some group), openaiPoolStore) ->
        platform group <> "openai" ->
        UnifiedOpenAIScheduler.selectAccountForApiKey T0 lostGroupKey "" "gpt-4o"
          openaiPoolStore
        = (Thrown ("Group " +:+ groupName group +:+ " is not an OpenAI group"),
           openaiPoolStore))
  /\ (forall e,
        group_getGroup "g9" openaiPoolStore = (Thrown e, openaiPoolStore) ->
        UnifiedOpenAIScheduler.selectAccountForApiKey T0 lostGroupKey "" "gpt-4o"
          openaiPoolStore
        = (Thrown e, openaiPoolStore)).
Proof.
  split; [reflexivity|].
  exact (openai_group_binding_errors T0 lostGroupKey "g9" "" "gpt-4o" openaiPoolStore
           openaiPoolStore eq_refl).
Defined.

(** The group that is not there, and the pool that is not asked. *)
Example lost_group_is_an_error :
  UnifiedOpenAIScheduler.selectAccountForApiKey T0 lostGroupKey "" "gpt-4o" openaiPoolStore
  = (Thrown "Group g9 not found", openaiPoolStore).
Proof. by_vm. Qed.

Lemma openai_pool_is_the_eligible_accounts_witness :
  openaiAccountId unboundKey = ""
  /\ exists pool,
       UnifiedOpenAIScheduler._getAllAvailableAccounts T0 unboundKey "gpt-4o" openaiPoolStore
       = (Returned pool, openaiPoolStore)
       /\ forall c,
            c ∈ pool
            <-> exists account,
                  account ∈ openaiAccounts openaiPoolStore
                  /\ c = candidateOf account "openai"
                  /\ isActive account = JStr "true"
                  /\ status account <> "error"
                  /\ (accountType account = "shared" \/ accountType account = "")
                  /\ UnifiedOpenAIScheduler._isSchedulable (schedulable account) = true
                  /\ UnifiedOpenAIScheduler.modelNotSupported "gpt-4o" account = false
                  /\ fst (UnifiedOpenAIScheduler.isAccountRateLimited T0 (id account)
                            openaiPoolStore)
                     = Returned false.
Proof.
  split; [reflexivity|].
  exact (openai_pool_is_the_eligible_accounts T0 unboundKey "gpt-4o" openaiPoolStore eq_refl).
Defined.

Example pool_of_the_example :
  returnedIds (fst (UnifiedOpenAIScheduler._getAllAvailableAccounts T0 unboundKey "gpt-4o"
                      openaiPoolStore))
  = Some ["a1"; "a2"].
Proof. by_vm. Qed.

Lemma a2_in_pool :
  sharedAccount "a2" (JStr "true") "10" "" ∈ openaiAccounts openaiPoolStore.
Proof. apply list_elem_of_further, list_elem_of_here. Qed.

Lemma openai_selection_succeeds_when_an_account_is_eligible_witness :
  servedFromPool unboundKey openaiPoolStore
  /\ sharedAccount "a2" (JStr "true") "10" "" ∈ openaiAccounts openaiPoolStore
  /\ poolEligible T0 "gpt-4o" (openaiAccounts openaiPoolStore)
       (sharedAccount "a2" (JStr "true") "10" "") = true
  /\ exists sel s',
       UnifiedOpenAIScheduler.selectAccountForApiKey T0 unboundKey "h1" "gpt-4o"
         openaiPoolStore
       = (Returned sel, s').
Proof.
  assert (He : poolEligible T0 "gpt-4o" (openaiAccounts openaiPoolStore)
                 (sharedAccount "a2" (JStr "true") "10" "") = true) by by_vm.
  split; [exact (servedFromPool_unbound openaiPoolStore)|].
  split; [exact a2_in_pool|]. split; [exact He|].
  exact (openai_selection_succeeds_when_an_account_is_eligible T0 unboundKey "h1" "gpt-4o"
           openaiPoolStore _ (servedFromPool_unbound openaiPoolStore) a2_in_pool He).
Defined.

(** A store whose one OpenAI account is inactive. *)
Definition openaiIdleStore : SchedulerStore :=
  {| openaiAccounts := [ sharedAccount "a3" (JStr "false") "1" "" ];
     claudeAccounts := []; consoleAccounts := []; groups := ∅; sessions := ∅;
     clock := T0 |}.

Lemma idle_none_eligible (account : Account) :
  account ∈ openaiAccounts openaiIdleStore ->
  poolEligible T0 "gpt-4o" (openaiAccounts openaiIdleStore) account = false.
Proof. intros H. apply list_elem_of_singleton in H as ->. reflexivity. Qed.

Lemma openai_no_eligible_account_error_witness :
  servedFromPool unboundKey openaiIdleStore
  /\ ("" = "" \/
      sessions openaiIdleStore !! (UnifiedOpenAIScheduler.SESSION_MAPPING_PREFIX +:+ "")
      = None)
  /\ (forall account, account ∈ openaiAccounts openaiIdleStore ->
        poolEligible T0 "gpt-4o" (openaiAccounts openaiIdleStore) account = false)
  /\ UnifiedOpenAIScheduler.selectAccountForApiKey T0 unboundKey "" "gpt-4o" openaiIdleStore
     = (Thrown (if nonempty "gpt-4o"
                then "No available OpenAI accounts support the requested model: "
                     +:+ "gpt-4o"
                else "No available OpenAI accounts"), openaiIdleStore).
Proof.
  split; [exact (servedFromPool_unbound openaiIdleStore)|].
  split; [left; reflexivity|]. split; [exact idle_none_eligible|].
  exact (openai_no_eligible_account_error T0 unboundKey "" "gpt-4o" openaiIdleStore
           (servedFromPool_unbound openaiIdleStore) (or_introl eq_refl) idle_none_eligible).
Defined.

Lemma second_call_none :
  UnifiedOpenAIScheduler.selectAccountForApiKey T0 unboundKey "" "gpt-4o" openaiPoolStore
  = (Returned selectedA2, openaiPoolStore).
Proof. by_vm. Qed.

Lemma openai_pool_selection_is_eligible_and_best_ranked_witness :
  servedFromPool unboundKey openaiPoolStore
  /\ ("" = "" \/
      sessions openaiPoolStore !! (UnifiedOpenAIScheduler.SESSION_MAPPING_PREFIX +:+ "")
      = None)
  /\ UnifiedOpenAIScheduler.selectAccountForApiKey T0 unboundKey "" "gpt-4o" openaiPoolStore
     = (Returned selectedA2, openaiPoolStore)
  /\ exists account,
       account ∈ openaiAccounts openaiPoolStore
       /\ poolEligible T0 "gpt-4o" (openaiAccounts openaiPoolStore) account = true
       /\ selectedA2 = {| sel_accountId := id account; sel_accountType := "openai" |}
       /\ (datesValid (poolOf T0 "gpt-4o" (openaiAccounts openaiPoolStore)) ->
           forall other, other ∈ openaiAccounts openaiPoolStore ->
             poolEligible T0 "gpt-4o" (openaiAccounts openaiPoolStore) other = true ->
             rankLe (candidateOf account "openai") (candidateOf other "openai")).
Proof.
  split; [exact (servedFromPool_unbound openaiPoolStore)|].
  split; [left; reflexivity|]. split; [exact second_call_none|].
  exact (openai_pool_selection_is_eligible_and_best_ranked T0 unboundKey "" "gpt-4o"
           openaiPoolStore openaiPoolStore selectedA2
           (servedFromPool_unbound openaiPoolStore) (or_introl eq_refl) second_call_none).
Defined.





(** The session h1 mapped to a1 with 100 seconds left to live, where the
    pool would give a2. *)
Definition openaiAgeingStore : SchedulerStore :=
  setSessions
    {[ UnifiedOpenAIScheduler.SESSION_MAPPING_PREFIX +:+ "h1"
       := (stringifySelection "a1" "openai", 100) ]}
    openaiPoolStore.

(** Scenario 2 of the spec for OpenAI, and the end of the stickiness
    window: the session stays on a1 one millisecond before the mapping
    expires, its mapping then having one second left; at the instant of
    expiry the mapping is gone, the session moves to a2, the best of the
    pool, and is mapped to it for 3600 seconds.  A mapping written at [T0]
    is reused after 59 minutes and gone after two hours. *)
Example session_moves_when_its_mapping_expires :
  UnifiedOpenAIScheduler.selectAccountForApiKey T0 unboundKey "h1" "gpt-4o" openaiAgeingStore
    = (Returned {| sel_accountId := "a1"; sel_accountType := "openai" |}, openaiAgeingStore)
  /\ UnifiedOpenAIScheduler.selectAccountForApiKey (T0 + 99999) unboundKey "h1" "gpt-4o"
       (elapse 99999 openaiAgeingStore)
     = (Returned {| sel_accountId := "a1"; sel_accountType := "openai" |},
        elapse 99999 openaiAgeingStore)
  /\ sessions (elapse 99999 openaiAgeingStore)
       !! (UnifiedOpenAIScheduler.SESSION_MAPPING_PREFIX +:+ "h1")
     = Some (stringifySelection "a1" "openai", 1)
  /\ sessions (elapse 100000 openaiAgeingStore)
       !! (UnifiedOpenAIScheduler.SESSION_MAPPING_PREFIX +:+ "h1")
     = None
  /\ fst (UnifiedOpenAIScheduler.selectAccountForApiKey (T0 + 100000) unboundKey "h1" "gpt-4o"
            (elapse 100000 openaiAgeingStore))
     = Returned selectedA2
  /\ sessions (snd (UnifiedOpenAIScheduler.selectAccountForApiKey (T0 + 100000) unboundKey
                      "h1" "gpt-4o" (elapse 100000 openaiAgeingStore)))
       !! (UnifiedOpenAIScheduler.SESSION_MAPPING_PREFIX +:+ "h1")
     = Some (stringifySelection "a2" "openai", 3600)
  /\ (sessions (elapse (59 * 60 * 1000) openaiMappedStore)
        !! (UnifiedOpenAIScheduler.SESSION_MAPPING_PREFIX +:+ "h1")
      = Some (stringifySelection "a2" "openai", 60)
      /\ sessions (elapse (2 * 60 * 60 * 1000) openaiMappedStore) = ∅).
Proof. repeat split; by_vm. Qed.

Lemma openai_selection_writes_only_its_session_mapping_witness :
  servedFromPool unboundKey openaiPoolStore
  /\ UnifiedOpenAIScheduler.selectAccountForApiKey T0 unboundKey "h1" "gpt-4o"
       openaiPoolStore
     = (Returned selectedA2, openaiMappedStore)
  /\ openaiAccounts openaiMappedStore = openaiAccounts openaiPoolStore
  /\ claudeAccounts openaiMappedStore = claudeAccounts openaiPoolStore
  /\ consoleAccounts openaiMappedStore = consoleAccounts openaiPoolStore
  /\ groups openaiMappedStore = groups openaiPoolStore
  /\ (forall k, k <> UnifiedOpenAIScheduler.SESSION_MAPPING_PREFIX +:+ "h1" ->
        sessions openaiMappedStore !! k = sessions openaiPoolStore !! k)
  /\ ("h1" = "" -> openaiMappedStore = openaiPoolStore)
  /\ ("h1" <> "" ->
      let mapping := sessions openaiMappedStore
                       !! (UnifiedOpenAIScheduler.SESSION_MAPPING_PREFIX +:+ "h1") in
      mapping
      = Some (stringifySelection (sel_accountId selectedA2) (sel_accountType selectedA2),
              3600)
      \/ (openaiMappedStore = openaiPoolStore
          /\ exists mappingData ttl,
               mapping = Some (mappingData, ttl)
               /\ parseSelection mappingData = Some selectedA2))
  /\ (forall h,
        sessions openaiMappedStore !! (UnifiedClaudeScheduler.SESSION_MAPPING_PREFIX +:+ h)
        = sessions openaiPoolStore !! (UnifiedClaudeScheduler.SESSION_MAPPING_PREFIX +:+ h)).
Proof.
  split; [exact (servedFromPool_unbound openaiPoolStore)|]. split; [exact first_call_h1|].
  exact (openai_selection_writes_only_its_session_mapping T0 unboundKey "h1" "gpt-4o"
           openaiPoolStore openaiMappedStore selectedA2
           (servedFromPool_unbound openaiPoolStore) first_call_h1).
Defined.

(** A key bound to the inactive account a3. *)
Definition idleBoundKey : ApiKeyData :=
  {| keyName := "K"; claudeAccountId := ""; claudeConsoleAccountId := "";
     openaiAccountId := "a3" |}.

Lemma a3_unusable (boundAccount : Account) :
  findAccount (openaiAccountId idleBoundKey) (openaiAccounts openaiPoolStore)
    = Some boundAccount ->
  isActive boundAccount <> JStr "true" \/ status boundAccount = "error".
Proof. intros H. vm_compute in H. injection H as <-. left. discriminate. Qed.

Lemma openai_unusable_binding_degrades_to_pool_witness :
  startsWith "group:" (openaiAccountId idleBoundKey) = false
  /\ (forall boundAccount,
        findAccount (openaiAccountId idleBoundKey) (openaiAccounts openaiPoolStore)
          = Some boundAccount ->
        isActive boundAccount <> JStr "true" \/ status boundAccount = "error")
  /\ UnifiedOpenAIScheduler.selectAccountForApiKey T0 idleBoundKey "h1" "gpt-4o"
       openaiPoolStore
     = UnifiedOpenAIScheduler.selectAccountForApiKey T0 (withoutOpenAIBinding idleBoundKey)
         "h1" "gpt-4o" openaiPoolStore.
Proof.
  split; [reflexivity|]. split; [exact a3_unusable|].
  exact (openai_unusable_binding_degrades_to_pool T0 idleBoundKey "h1" "gpt-4o"
           openaiPoolStore eq_refl a3_unusable).
Defined.

Example idle_binding_served_from_pool :
  fst (UnifiedOpenAIScheduler.selectAccountForApiKey T0 idleBoundKey "" "gpt-4o"
         openaiPoolStore)
  = Returned selectedA2.
Proof. by_vm. Qed.

Lemma group_call :
  UnifiedOpenAIScheduler.selectAccountForApiKey T0 groupKey "" "gpt-4o" openaiPoolStore
  = (Returned selectedA2, openaiPoolStore).
Proof. by_vm. Qed.

Lemma openai_group_binding_returns_a_member_witness :
  openaiAccountId groupKey = "group:" +:+ "g1"
  /\ UnifiedOpenAIScheduler.selectAccountForApiKey T0 groupKey "" "gpt-4o" openaiPoolStore
     = (Returned selectedA2, openaiPoolStore)
  /\ exists group memberIds,
       groups openaiPoolStore !! "g1" = Some (group, memberIds)
       /\ platform group = "openai"
       /\ sel_accountId selectedA2 ∈ memberIds
       /\ sel_accountType selectedA2 = "openai"
       /\ availableAt T0 (openaiAccounts openaiPoolStore) (sel_accountId selectedA2) "openai"
          = true.
Proof.
  split; [reflexivity|]. split; [exact group_call|].
  exact (openai_group_binding_returns_a_member T0 groupKey "g1" "" "gpt-4o" openaiPoolStore
           openaiPoolStore selectedA2 eq_refl group_call).
Defined.

Lemma T0_printed : Date_toISOString (clock openaiPoolStore) <> "".
Proof. intros H. vm_compute in H. discriminate H. Qed.

Lemma T0_read_back :
  Date_parse (Date_toISOString (clock openaiPoolStore)) = Some (clock openaiPoolStore).
Proof. by_vm. Qed.

Lemma openai_marked_account_is_not_selected_witness :
  openaiAccountId unboundKey = ""
  /\ Date_toISOString (clock openaiPoolStore) <> ""
  /\ Date_parse (Date_toISOString (clock openaiPoolStore)) = Some (clock openaiPoolStore)
  /\ T0 + 1000 < clock openaiPoolStore + 60 * 60 * 1000
  /\ exists s1,
       UnifiedOpenAISchedulerWriters.markAccountRateLimited "a2" "openai" "h1"
         openaiMappedStore
       = (Returned tt, s1)
       /\ ("h1" <> "" ->
           fst (_getSessionMapping UnifiedOpenAIScheduler.SESSION_MAPPING_PREFIX "h1" s1)
           = Returned None)
       /\ forall sel s2,
            UnifiedOpenAIScheduler.selectAccountForApiKey (T0 + 1000) unboundKey "h1"
              "gpt-4o" s1
            = (Returned sel, s2) ->
            sel_accountId sel <> "a2".
Proof.
  assert (Hlt : T0 + 1000 < clock openaiPoolStore + 60 * 60 * 1000) by reflexivity.
  split; [reflexivity|]. split; [exact T0_printed|]. split; [exact T0_read_back|].
  split; [exact Hlt|].
  exact (openai_marked_account_is_not_selected (T0 + 1000) unboundKey "a2" "h1" "h1" "gpt-4o"
           openaiMappedStore eq_refl T0_printed T0_read_back Hlt).
Defined.

(** Scenario 3 of the spec for OpenAI: a2 is marked limited, and the
    session h1 moves to a1. *)
Example marked_account_gives_way :
  fst (UnifiedOpenAIScheduler.selectAccountForApiKey (T0 + 1000) unboundKey "h1" "gpt-4o"
         (snd (UnifiedOpenAISchedulerWriters.markAccountRateLimited "a2" "openai" "h1"
                 openaiMappedStore)))
  = Returned {| sel_accountId := "a1"; sel_accountType := "openai" |}.
Proof. by_vm. Qed.

(** Scenario 3 of the spec: A3 was marked limited one minute ago and the
    session h1 is mapped to it. *)
Definition claudeFalloverStore : SchedulerStore :=
  setClaudeAccounts
    [ limitedSince "2025-01-01T00:00:00.000Z"
        (sharedAccount "A3" (JStr "true") "50" "2024-12-31T23:59:50.000Z");
      sharedAccount "A4" (JStr "true") "50" "2024-12-31T23:59:55.000Z" ]
    (setSessions (sessions stickyStore) (emptyStore (T0 + 60000))).

Definition selectedA4 : Selection :=
  {| sel_accountId := "A4"; sel_accountType := "claude-official" |}.

Lemma A3_limited : claudeLimited "A3" claudeFalloverStore.
Proof. eexists. split; [reflexivity|]. split; reflexivity. Qed.

Lemma fallover_call :
  UnifiedClaudeScheduler.selectAccountForApiKey unboundKey "h1" "claude-3-5-sonnet-20241022"
    claudeFalloverStore
  = (Returned selectedA4,
     snd (UnifiedClaudeScheduler.selectAccountForApiKey unboundKey "h1"
            "claude-3-5-sonnet-20241022" claudeFalloverStore)).
Proof. by_vm. Qed.

Lemma claude_limited_account_is_not_selected_witness :
  claudeAccountId unboundKey = ""
  /\ claudeConsoleAccountId unboundKey = ""
  /\ claudeLimited "A3" claudeFalloverStore
  /\ UnifiedClaudeScheduler.selectAccountForApiKey unboundKey "h1"
       "claude-3-5-sonnet-20241022" claudeFalloverStore
     = (Returned selectedA4,
        snd (UnifiedClaudeScheduler.selectAccountForApiKey unboundKey "h1"
               "claude-3-5-sonnet-20241022" claudeFalloverStore))
  /\ selectedA4 <> {| sel_accountId := "A3"; sel_accountType := "claude-official" |}.
Proof.
  split; [reflexivity|]. split; [reflexivity|]. split; [exact A3_limited|].
  split; [exact fallover_call|].
  exact (claude_limited_account_is_not_selected "A3" unboundKey "h1"
           "claude-3-5-sonnet-20241022" claudeFalloverStore _ selectedA4 eq_refl eq_refl
           A3_limited fallover_call).
Defined.

End FurtherSelectionExamples.

Section FurtherKeyExamples.
#[local] Existing Instance nodeRuntime.

Lemma validateApiKey_refuses_malformed_key_before_the_store_witness :
  ("sk-other" = "" \/ startsWith (ApiKeyService.prefix exampleConfig) "sk-other" = false)
  /\ ApiKeyService.validateApiKey exampleConfig T0 "sk-other" expiringStore
     = (Returned (Invalid "Invalid API key format"), expiringStore).
Proof.
  assert (H : "sk-other" = ""
              \/ startsWith (ApiKeyService.prefix exampleConfig) "sk-other" = false)
    by (right; reflexivity).
  split; [exact H|].
  exact (validateApiKey_refuses_malformed_key_before_the_store exampleConfig T0 "sk-other"
           expiringStore H).
Defined.

Lemma validateApiKey_accepts_only_active_unexpired_keys_witness :
  exists vk,
    ApiKeyService.validateApiKey exampleConfig (T0 + 1000) exampleApiKey expiringStore
      = (Returned (Valid vk), expiringStore)
    /\ exists keyData s1,
         exampleApiKey <> ""
         /\ startsWith (ApiKeyService.prefix exampleConfig) exampleApiKey = true
         /\ redis_findApiKeyByHash (ApiKeyService._hashApiKey exampleConfig exampleApiKey)
              expiringStore
            = (Returned (Some keyData), s1)
         /\ fieldOf keyData "isActive" = "true"
         /\ (forall expiry,
               fieldOf keyData "expiresAt" <> "" ->
               Date_parse (fieldOf keyData "expiresAt") = Some expiry ->
               T0 + 1000 <= expiry)
         /\ vk_id vk = keyData !! "id".
Proof.
  let v := eval vm_compute in
      (fst (ApiKeyService.validateApiKey exampleConfig (T0 + 1000) exampleApiKey
              expiringStore)) in
  match v with
  | Returned (Valid ?vk) =>
      exists vk;
      assert (Hv : ApiKeyService.validateApiKey exampleConfig (T0 + 1000) exampleApiKey
                     expiringStore
                   = (Returned (Valid vk), expiringStore)) by by_vm
  end.
  split; [exact Hv|].
  exact (validateApiKey_accepts_only_active_unexpired_keys exampleConfig (T0 + 1000)
           exampleApiKey expiringStore expiringStore _ Hv).
Defined.

Lemma updateApiKey_unknown_key_throws_witness :
  (redis_getApiKey "no-such-key" emptyKeyStore = (Returned None, emptyKeyStore)
   \/ redis_getApiKey "no-such-key" emptyKeyStore = (Returned (Some ∅), emptyKeyStore))
  /\ ApiKeyService.updateApiKey T0 "no-such-key" [("name", JStr "renamed")] emptyKeyStore
     = (Thrown "API key not found", emptyKeyStore).
Proof.
  assert (H : redis_getApiKey "no-such-key" emptyKeyStore = (Returned None, emptyKeyStore)
              \/ redis_getApiKey "no-such-key" emptyKeyStore
                 = (Returned (Some ∅), emptyKeyStore))
    by (left; reflexivity).
  split; [exact H|].
  exact (updateApiKey_unknown_key_throws T0 "no-such-key" [("name", JStr "renamed")]
           emptyKeyStore emptyKeyStore H).
Defined.

Lemma getAllApiKeys_never_lists_the_hashed_secret_witness :
  exists listed,
    ApiKeyServiceAdmin.getAllApiKeys expiringStore = (Returned listed, expiringStore)
    /\ Forall (fun key => key !! "apiKey" = None) listed
    /\ exists apiKeys s1,
         redis_getAllApiKeys expiringStore = (Returned apiKeys, s1)
         /\ map (.!! "id") listed = map (fun key => JStr <$> key !! "id") apiKeys.
Proof.
  let v := eval vm_compute in (fst (ApiKeyServiceAdmin.getAllApiKeys expiringStore)) in
  match v with
  | Returned ?listed =>
      exists listed;
      assert (Hl : ApiKeyServiceAdmin.getAllApiKeys expiringStore
                   = (Returned listed, expiringStore)) by by_vm
  end.
  split; [exact Hl|].
  exact (getAllApiKeys_never_lists_the_hashed_secret expiringStore expiringStore _ Hl).
Defined.

(** The key record holds the hashed secret and its listing does not. *)
Example listing_hides_the_hash :
  (apikeys expiringStore !! exampleKeyId ≫= (.!! "apiKey"))
    = Some "b4957394bba3d5e8dd3aa39aef585fb835e8bc285c46d25cbf227f63f192ad31"
  /\ match fst (ApiKeyServiceAdmin.getAllApiKeys expiringStore) with
     | Returned listed => map (fun key => (key !! "id", key !! "apiKey")) listed
     | Thrown _ => []
     end = [(Some (JStr exampleKeyId), None)].
Proof. split; by_vm. Qed.

(** The body [{ apiKey }] of a request. *)
Definition keyIdRequest (apiKey : string) : jsval := JObj [("apiKey", JStr apiKey)].

(** The route on the example key: its id for the secret, 401 for a secret
    of the right shape that no key has and for the expired key, 400 for a
    short secret, for one of nine characters that take fifteen bytes, and
    for a body without [apiKey], and 500 for a request without a body. *)
Example getKeyId_examples :
  fst (ApiStats.getKeyId exampleConfig (T0 + 1000) (keyIdRequest exampleApiKey) expiringStore)
    = Returned (200, JObj [("success", JBool true);
                           ("data", JObj [("id", JStr exampleKeyId)])])
  /\ fst (ApiStats.getKeyId exampleConfig (T0 + 1000) (keyIdRequest "cr_0123456789")
            expiringStore)
     = Returned (401, ApiStats.errorBody "Invalid API key" "API key not found")
  /\ fst (ApiStats.getKeyId exampleConfig (T1 + 1) (keyIdRequest exampleApiKey) expiringStore)
     = Returned (401, ApiStats.errorBody "Invalid API key" "API key has expired")
  /\ fst (ApiStats.getKeyId exampleConfig (T0 + 1000) (keyIdRequest "cr_012") expiringStore)
     = Returned (400, ApiStats.errorBody "Invalid API key format"
                        "API key format is invalid")
  /\ (String.length "cr_éééééé" = 15%nat /\ js_length "cr_éééééé" = 9)
  /\ fst (ApiStats.getKeyId exampleConfig (T0 + 1000) (keyIdRequest "cr_éééééé")
            expiringStore)
     = Returned (400, ApiStats.errorBody "Invalid API key format"
                        "API key format is invalid")
  /\ fst (ApiStats.getKeyId exampleConfig (T0 + 1000) (JObj []) expiringStore)
     = Returned (400, ApiStats.errorBody "API Key is required"
                        "Please provide your API Key")
  /\ ApiStats.getKeyId exampleConfig (T0 + 1000) JUndefined expiringStore
     = (Returned (500, ApiStats.errorBody "Internal server error"
                         "Failed to retrieve API key ID"), expiringStore).
Proof. repeat split; by_vm. Qed.

Lemma renaming_sets_no_gate (entry : string * jsval) :
  entry ∈ [("name", JStr "renamed"); ("tokenLimit", JNum 0)] ->
  entry.1 <> "isActive" /\ entry.1 <> "expiresAt".
Proof.
  intros [->|H]%elem_of_cons; [split; discriminate|].
  apply list_elem_of_singleton in H as ->. split; discriminate.
Qed.

Lemma updating_other_fields_keeps_a_key_valid_witness :
  exists vk,
    fst (ApiKeyService.validateApiKey exampleConfig (T0 + 2000) exampleApiKey expiringStore)
      = Returned (Valid vk)
    /\ (forall entry,
          entry ∈ [("name", JStr "renamed"); ("tokenLimit", JNum 0)] ->
          entry.1 <> "isActive" /\ entry.1 <> "expiresAt")
    /\ exists vk',
         fst (ApiKeyService.validateApiKey exampleConfig (T0 + 2000) exampleApiKey
                (snd (ApiKeyService.updateApiKey (T0 + 1000) exampleKeyId
                        [("name", JStr "renamed"); ("tokenLimit", JNum 0)] expiringStore)))
         = Returned (Valid vk')
         /\ vk_id vk' = vk_id vk.
Proof.
  let v := eval vm_compute in
      (fst (ApiKeyService.validateApiKey exampleConfig (T0 + 2000) exampleApiKey
              expiringStore)) in
  match v with
  | Returned (Valid ?vk) =>
      exists vk;
      assert (Hv : fst (ApiKeyService.validateApiKey exampleConfig (T0 + 2000) exampleApiKey
                          expiringStore)
                   = Returned (Valid vk)) by by_vm
  end.
  split; [exact Hv|]. split; [exact renaming_sets_no_gate|].
  exact (updating_other_fields_keeps_a_key_valid exampleConfig (T0 + 2000) (T0 + 1000)
           exampleApiKey exampleKeyId [("name", JStr "renamed"); ("tokenLimit", JNum 0)]
           expiringStore _ Hv renaming_sets_no_gate).
Defined.

Lemma example_indexed :
  hash_map expiringStore !! ApiKeyService._hashApiKey exampleConfig exampleApiKey
  = Some exampleKeyId.
Proof. by_vm. Qed.

Lemma example_recorded : is_Some (apikeys expiringStore !! exampleKeyId).
Proof. exists expiringKeyData. apply expiringKeyData_recorded. Qed.

Lemma deleted_key_is_refused_witness :
  exampleApiKey <> ""
  /\ startsWith (ApiKeyService.prefix exampleConfig) exampleApiKey = true
  /\ hash_map expiringStore !! ApiKeyService._hashApiKey exampleConfig exampleApiKey
     = Some exampleKeyId
  /\ is_Some (apikeys expiringStore !! exampleKeyId)
  /\ exists s',
       ApiKeyServiceAdmin.deleteApiKey exampleKeyId expiringStore = (Returned tt, s')
       /\ fst (ApiKeyService.validateApiKey exampleConfig (T0 + 1000) exampleApiKey s')
          = Returned (Invalid "API key not found")
       /\ ApiKeyServiceAdmin.deleteApiKey exampleKeyId s'
          = (Thrown "API key not found", s').
Proof.
  assert (H1 : exampleApiKey <> "") by discriminate.
  assert (H2 : startsWith (ApiKeyService.prefix exampleConfig) exampleApiKey = true)
    by reflexivity.
  split; [exact H1|]. split; [exact H2|]. split; [exact example_indexed|].
  split; [exact example_recorded|].
  exact (deleted_key_is_refused exampleConfig (T0 + 1000) exampleApiKey exampleKeyId
           expiringStore H1 H2 example_indexed example_recorded).
Defined.

(** Three admin updates: the example key is renamed (with an attempt
    at its hashed secret), a key that is not there is updated, and the
    example key is disabled. *)
Definition exampleUpdates : list AdminUpdate :=
  [ (T0 + 1000, exampleKeyId, [("name", JStr "renamed"); ("apiKey", JStr "forged")]);
    (T0 + 2000, "no-such-key", [("name", JStr "other")]);
    (T0 + 3000, exampleKeyId, [("isActive", JBool false)]) ].

Lemma admin_updates_change_allowed_fields_only_witness :
  apikeys expiringStore !! exampleKeyId = Some expiringKeyData
  /\ expiringKeyData <> ∅
  /\ let s' := adminUpdates exampleUpdates expiringStore in
     exists updatedData,
       apikeys s' !! exampleKeyId = Some updatedData
       /\ (forall f, f ∉ ApiKeyService.allowedUpdates -> f <> "updatedAt" ->
                     updatedData !! f = expiringKeyData !! f)
       /\ updatedData !! "apiKey" = expiringKeyData !! "apiKey"
       /\ updatedData !! "id" = expiringKeyData !! "id"
       /\ updatedData !! "createdAt" = expiringKeyData !! "createdAt"
       /\ match lastUpdateOf exampleKeyId exampleUpdates with
          | Some now => updatedData !! "updatedAt" = Some (Date_toISOString now)
          | None => updatedData = expiringKeyData
          end
       /\ (forall now updates,
             fst (ApiKeyService.updateApiKey now exampleKeyId updates s') = Returned tt)
       /\ hash_map s' = hash_map expiringStore
       /\ (forall hashedKey, hash_map expiringStore !! hashedKey = Some exampleKeyId ->
             fst (redis_findApiKeyByHash hashedKey s') = Returned (Some updatedData))
       /\ (forall apiKey,
             apiKey <> "" ->
             startsWith (ApiKeyService.prefix exampleConfig) apiKey = true ->
             hash_map expiringStore !! ApiKeyService._hashApiKey exampleConfig apiKey
               = Some exampleKeyId ->
             let verdict :=
               fst (ApiKeyService.validateApiKey exampleConfig (T0 + 4000) apiKey s') in
             (verdict = Returned (Invalid "API key is disabled")
              <-> fieldOf updatedData "isActive" <> "true")
             /\ (verdict = Returned (Invalid "API key has expired")
                 <-> fieldOf updatedData "isActive" = "true"
                     /\ fieldOf updatedData "expiresAt" <> ""
                     /\ exists expiry,
                          Date_parse (fieldOf updatedData "expiresAt") = Some expiry
                          /\ expiry < T0 + 4000)
             /\ ((exists vk, verdict = Returned (Valid vk))
                 <-> fieldOf updatedData "isActive" = "true"
                     /\ forall expiry,
                          fieldOf updatedData "expiresAt" <> "" ->
                          Date_parse (fieldOf updatedData "expiresAt") = Some expiry ->
                          T0 + 4000 <= expiry)
             /\ (forall vk, verdict = Returned (Valid vk) ->
                   vk_id vk = expiringKeyData !! "id")).
Proof.
  destruct expiringKeyData_recorded as [H1 H2].
  split; [exact H1|]. split; [exact H2|].
  exact (admin_updates_change_allowed_fields_only exampleConfig (T0 + 4000) exampleKeyId
           exampleUpdates expiringStore expiringKeyData H1 H2).
Defined.

(** The example key after the three updates: renamed, stamped by the
    last of them, its hashed secret, id and creation time as generated;
    its secret resolves to the record and is refused as disabled.  After
    the first two updates only, the secret validates to the same id. *)
Example record_after_the_updates :
  map (fun f => apikeys (adminUpdates exampleUpdates expiringStore) !! exampleKeyId ≫= (.!! f))
      ["name"; "isActive"; "updatedAt"; "apiKey"; "id"; "createdAt"]
    = [ Some "renamed"; Some "false"; Some "2025-01-01T00:00:03.000Z";
        Some "b4957394bba3d5e8dd3aa39aef585fb835e8bc285c46d25cbf227f63f192ad31";
        Some exampleKeyId; Some "2025-01-01T00:00:00.000Z" ]
  /\ lastUpdateOf exampleKeyId exampleUpdates = Some (T0 + 3000)
  /\ fst (ApiKeyService.validateApiKey exampleConfig (T0 + 4000) exampleApiKey
            (adminUpdates exampleUpdates expiringStore))
     = Returned (Invalid "API key is disabled")
  /\ validatedId (fst (ApiKeyService.validateApiKey exampleConfig (T0 + 4000) exampleApiKey
                         (adminUpdates (take 2 exampleUpdates) expiringStore)))
     = Some exampleKeyId.
Proof. repeat split; by_vm. Qed.

Lemma idsRecorded_empty : idsRecorded emptyKeyStore.
Proof.
  intros keyId keyData H. change (apikeys emptyKeyStore) with (∅ : gmap string KeyData) in H.
  by rewrite lookup_empty in H.
Qed.

Lemma idsRecorded_example : idsRecorded expiringStore.
Proof.
  assert (Hs : expiringStore
               = setKeys (<[exampleKeyId := expiringKeyData]> (apikeys emptyKeyStore))
                   (hash_map expiringStore) emptyKeyStore) by by_vm.
  rewrite Hs. apply idsRecorded_insert; [exact idsRecorded_empty|].
  apply newKeyData_id.
Qed.

Lemma cleanupExpiredKeys_disables_the_expired_keys_witness :
  idsRecorded expiringStore
  /\ exists s',
       ApiKeyServiceAdmin.cleanupExpiredKeys (T1 + 1) expiringStore
       = (Returned (Z.of_nat (length (List.filter (expiredActive (T1 + 1))
                                        (map snd (map_to_list (apikeys expiringStore)))))),
          s')
       /\ hash_map s' = hash_map expiringStore
       /\ (forall keyId keyData,
             apikeys expiringStore !! keyId = Some keyData ->
             apikeys s' !! keyId
             = Some (if expiredActive (T1 + 1) keyData
                     then <["updatedAt" := Date_toISOString (T1 + 1)]>
                            (<["isActive" := "false"]> keyData)
                     else keyData))
       /\ (forall keyId, apikeys expiringStore !! keyId = None -> apikeys s' !! keyId = None)
       /\ (forall apiKey,
             fst (ApiKeyService.validateApiKey exampleConfig (T1 + 1) apiKey s')
             <> Returned (Invalid "API key has expired")).
Proof.
  split; [exact idsRecorded_example|].
  exact (cleanupExpiredKeys_disables_the_expired_keys exampleConfig (T1 + 1) expiringStore
           idsRecorded_example).
Defined.

(** The example key one millisecond after it expired: refused as expired
    before the sweep, which counts one key, and as disabled after it. *)
Example sweep_of_the_example :
  fst (ApiKeyService.validateApiKey exampleConfig (T1 + 1) exampleApiKey expiringStore)
    = Returned (Invalid "API key has expired")
  /\ fst (ApiKeyServiceAdmin.cleanupExpiredKeys (T1 + 1) expiringStore) = Returned 1
  /\ fst (ApiKeyServiceAdmin.cleanupExpiredKeys T1 expiringStore) = Returned 0
  /\ fst (ApiKeyService.validateApiKey exampleConfig (T1 + 1) exampleApiKey
            (snd (ApiKeyServiceAdmin.cleanupExpiredKeys (T1 + 1) expiringStore)))
     = Returned (Invalid "API key is disabled").
Proof. repeat split; by_vm. Qed.

Lemma stored_records_carry_their_id_witness :
  idsRecorded expiringStore
  /\ (forall now keyId secretKey options,
        idsRecorded (snd (ApiKeyService.generateApiKey exampleConfig now keyId secretKey
                            options expiringStore)))
  /\ (forall now keyId updates,
        idsRecorded (snd (ApiKeyService.updateApiKey now keyId updates expiringStore)))
  /\ (forall now keyId input output cacheCreate cacheRead model accountId,
        idsRecorded (snd (ApiKeyService.recordUsage now keyId input output cacheCreate
                            cacheRead model accountId expiringStore)))
  /\ (forall keyId, idsRecorded (snd (ApiKeyServiceAdmin.deleteApiKey keyId expiringStore)))
  /\ (forall now,
        idsRecorded (snd (ApiKeyServiceAdmin.cleanupExpiredKeys now expiringStore))).
Proof.
  split; [exact idsRecorded_example|].
  exact (stored_records_carry_their_id exampleConfig expiringStore idsRecorded_example).
Defined.

(** On the store of the example key each of the five operations changes
    the records: a second key is generated beside the first, an update
    and a recorded usage stamp the record, the sweep disables it once it
    has expired, and a deletion removes it. *)
Example operations_change_the_example_records :
  map fst (map_to_list (apikeys (snd (ApiKeyService.generateApiKey exampleConfig T0
                                        "second-key" "ffeeddccbbaa99887766554433221100"
                                        (JObj []) expiringStore))))
    ≡ₚ [exampleKeyId; "second-key"]
  /\ (apikeys (snd (ApiKeyService.updateApiKey (T0 + 1000) exampleKeyId
                      [("name", JStr "renamed")] expiringStore))
        !! exampleKeyId ≫= (.!! "name")) = Some "renamed"
  /\ (apikeys (snd (ApiKeyService.recordUsage (T0 + 1000) exampleKeyId 10 20 0 0
                      "claude-3-5-sonnet-20241022" "" expiringStore))
        !! exampleKeyId ≫= (.!! "lastUsedAt")) = Some "2025-01-01T00:00:01.000Z"
  /\ (apikeys (snd (ApiKeyServiceAdmin.cleanupExpiredKeys (T1 + 1) expiringStore))
        !! exampleKeyId ≫= (.!! "isActive")) = Some "false"
  /\ apikeys (snd (ApiKeyServiceAdmin.deleteApiKey exampleKeyId expiringStore))
       !! exampleKeyId = None.
Proof.
  split; [|repeat split; by_vm].
  apply (bool_decide_unpack _). vm_compute. exact I.
Qed.

End FurtherKeyExamples.
